(** * vtfs: an in-memory file system (node tree, growable file buffers,
      directory cursor), embedded from the C sources

    The embedding follows [vtfs.h], [vtfs_file.c], [vtfs_inode.c] and
    [vtfs_dir.c].  Kernel memory is a finite map from addresses to
    [vtfs_node] records; a C pointer is an optional address.  Integers are
    mathematical integers with the conversions of the C types written out
    (LP64: [size_t] and [ino_t] are 64-bit unsigned, [loff_t] and [ssize_t]
    64-bit signed, [uint] 32-bit unsigned).  What the kernel decides
    (whether an allocation succeeds, how far a user copy gets, how many
    entries a directory reader accepts) is an explicit argument. *)

From Stdlib Require Import ZArith Lia.
From Stdlib.Strings Require Import Byte Ascii.
From stdpp Require Import gmap strings list.

Local Open Scope Z_scope.

(** ** Machine integers and constants *)

Definition SIZE_MAX : Z := 2 ^ 64 - 1.
Definition LLONG_MAX : Z := 2 ^ 63 - 1.

(** [PAGE_SIZE] comes from the kernel headers; 4096 on the usual targets. *)
Definition PAGE_SIZE : Z := 4096.

Definition VTFS_FILE_NAME_LEN : Z := 255.

(** Conversion to a 64-bit signed type ([loff_t], [ssize_t]). *)
Definition to_s64 (z : Z) : Z := (z + 2 ^ 63) mod 2 ^ 64 - 2 ^ 63.
(** Conversion to a 64-bit unsigned type ([size_t], [u64], [ino_t]). *)
Definition to_u64 (z : Z) : Z := z mod 2 ^ 64.
(** Conversion to [uint]. *)
Definition to_uint (z : Z) : Z := z mod 2 ^ 32.

Definition EPERM : Z := 1.
Definition ENOENT : Z := 2.
Definition EIO : Z := 5.
Definition ENOMEM : Z := 12.
Definition EFAULT : Z := 14.
Definition EEXIST : Z := 17.
Definition ENOTDIR : Z := 20.
Definition EISDIR : Z := 21.
Definition EINVAL : Z := 22.
Definition EFBIG : Z := 27.

Definition S_IFMT : Z := 61440.   (* 0170000 *)
Definition S_IFDIR : Z := 16384.  (* 0040000 *)
Definition S_IFREG : Z := 32768.  (* 0100000 *)
Definition S_ISDIR (m : Z) : bool := Z.land m S_IFMT =? S_IFDIR.

Definition DT_DIR : Z := 4.
Definition DT_REG : Z := 8.

(** ** Nodes and kernel memory *)

Definition loc := positive.
(** A [struct vtfs_node *]; [None] is [NULL]. *)
Definition ptr := option loc.

(** [struct vtfs_node].  [name] holds the characters before the
    terminating NUL of the C array; [data] is [None] for a NULL buffer and
    otherwise the allocated block, whose length is the allocation size.
    The [lock] field has no content in a sequential model. *)
Record vtfs_node := mk_node {
  name : string;
  ino : Z;
  is_dir : bool;
  mode : Z;
  parent : ptr;
  first_child : ptr;
  next_sibling : ptr;
  link_target : ptr;
  data : option (list byte);
  size : Z;
  capacity : Z
}.

Definition set_buffer (nd : vtfs_node) (d : option (list byte)) (sz cap : Z) : vtfs_node :=
  mk_node (name nd) (ino nd) (is_dir nd) (mode nd) (parent nd) (first_child nd)
          (next_sibling nd) (link_target nd) d sz cap.

Definition set_first_child (nd : vtfs_node) (p : ptr) : vtfs_node :=
  mk_node (name nd) (ino nd) (is_dir nd) (mode nd) (parent nd) p
          (next_sibling nd) (link_target nd) (data nd) (size nd) (capacity nd).

Definition set_next_sibling (nd : vtfs_node) (p : ptr) : vtfs_node :=
  mk_node (name nd) (ino nd) (is_dir nd) (mode nd) (parent nd) (first_child nd)
          p (link_target nd) (data nd) (size nd) (capacity nd).

Definition set_parent (nd : vtfs_node) (p : ptr) : vtfs_node :=
  mk_node (name nd) (ino nd) (is_dir nd) (mode nd) p (first_child nd)
          (next_sibling nd) (link_target nd) (data nd) (size nd) (capacity nd).

Abbreviation heap := (gmap loc vtfs_node).

(** ** Byte blocks *)

(** [memset(d + off, 0, n)]. *)
Definition memset0 (d : list byte) (off n : Z) : list byte :=
  take (Z.to_nat off) d ++ replicate (Z.to_nat n) x00 ++ drop (Z.to_nat (off + n)) d.

(** [krealloc(d, n, GFP_KERNEL)] when it succeeds: the old contents are
    kept and the rest of the block is whatever the memory held, given by
    [fill] (the flag set has no [__GFP_ZERO]). *)
Definition krealloc (d : option (list byte)) (n : Z) (fill : nat → byte) : list byte :=
  let old := default [] d in
  take (Z.to_nat n) old ++ (fill <$> seq (length old) (Z.to_nat n - length old)).

(** [copy_from_user(d + pos, buf, len)] where the first [ua] bytes of the
    user buffer can be read: the readable part is copied, the rest of the
    destination is cleared (the kernel pads a short copy with zeros), and
    the number of bytes not copied is returned. *)
Definition copy_from_user (d : list byte) (pos : Z) (buf : list byte) (ua : nat)
    : list byte * Z :=
  let k := Nat.min ua (length buf) in
  (take (Z.to_nat pos) d ++ take k buf ++ replicate (length buf - k) x00
     ++ drop (Z.to_nat pos + length buf) d,
   Z.of_nat (length buf - k)).

(** [copy_to_user(buf, src, n)] where the first [ua] bytes of the user
    buffer can be written: what reaches the user, and the count not copied. *)
Definition copy_to_user (src : list byte) (ua : nat) : list byte * Z :=
  let k := Nat.min ua (length src) in
  (take k src, Z.of_nat (length src - k)).

(** ** vtfs_file.c *)

(** [vtfs_data_node].  The argument is dereferenced, so a NULL or dangling
    pointer is a fault ([None]); the result is never NULL, which leaves the
    [if (!node) return -EIO;] of the callers without a case. *)
Definition vtfs_data_node (h : heap) (node : ptr) : option loc :=
  a ← node;
  nd ← h !! a;
  Some (match link_target nd with Some t => t | None => a end).

Record read_result := ReadResult {
  r_ret : Z;            (* the returned [ssize_t] *)
  r_out : list byte;    (* the bytes delivered to the user buffer *)
  r_pos : Z             (* [*ppos] on return *)
}.

(** [vtfs_read].  [ua] bounds how far [copy_to_user] gets.  The outer
    [None] is a memory fault. *)
Definition vtfs_read (h : heap) (i_private : ptr) (len : Z) (ppos : Z) (ua : nat)
    : option read_result :=
  a ← vtfs_data_node h i_private;
  node ← h !! a;
  let pos := ppos in
  if is_dir node then Some (ReadResult (- EISDIR) [] ppos) else
  if pos <? 0 then Some (ReadResult (- EINVAL) [] ppos) else
  match data node with
  | None => Some (ReadResult 0 [] ppos)
  | Some d =>
    if pos >=? size node then Some (ReadResult 0 [] ppos) else
    let available := size node - pos in
    let to_copy := Z.min available len in
    if to_copy =? 0 then Some (ReadResult 0 [] ppos) else
    let '(out, not_copied) :=
      copy_to_user (take (Z.to_nat to_copy) (drop (Z.to_nat pos) d)) ua in
    if negb (not_copied =? 0) then Some (ReadResult (- EFAULT) out ppos)
    else Some (ReadResult (to_s64 to_copy) out (to_s64 (pos + to_copy)))
  end.

(** What the kernel decides during one [vtfs_write]. *)
Record write_env := WriteEnv {
  krealloc_ok : bool;          (* does [krealloc] return a block *)
  krealloc_fill : nat → byte;  (* contents of the fresh part of the block *)
  uaccess1 : nat;              (* readable bytes seen by the first [copy_from_user] *)
  uaccess2 : nat               (* ... and by the second one *)
}.

Inductive grow_result :=
| GrowOk (new_capacity : Z)
| GrowOverflow
| GrowFuel.

(** The doubling loop, lines 125-135.  Each round doubles a value that is
    at most [SIZE_MAX / 2], so 64 rounds are more than the loop can make
    from a positive start (see [grow_capacity_total]). *)
Fixpoint grow_capacity (fuel : nat) (new_capacity end_pos : Z) : grow_result :=
  if new_capacity <? end_pos then
    if new_capacity >? SIZE_MAX / 2 then GrowOverflow
    else match fuel with
         | O => GrowFuel
         | S f => grow_capacity f (new_capacity * 2) end_pos
         end
  else GrowOk new_capacity.

(** The block [if (end_pos > node->capacity) { ... }], lines 118-154: an
    error code for [goto out_unlock], or the node to go on with. *)
Definition grow_buffer (node : vtfs_node) (end_pos : Z) (env : write_env)
    : option (Z + vtfs_node) :=
  if end_pos >? capacity node then
    let new_capacity := capacity node in
    let new_capacity := if new_capacity =? 0 then PAGE_SIZE else new_capacity in
    match grow_capacity 64 new_capacity end_pos with
    | GrowFuel => None
    | GrowOverflow => Some (inl (- EFBIG))
    | GrowOk new_capacity =>
      if krealloc_ok env then
        let new_data := krealloc (data node) new_capacity (krealloc_fill env) in
        let new_data :=
          if new_capacity >? capacity node
          then memset0 new_data (capacity node) (new_capacity - capacity node)
          else new_data in
        Some (inr (set_buffer node (Some new_data) (size node) new_capacity))
      else Some (inl (- ENOMEM))
    end
  else Some (inr node).

Record write_result := WriteResult {
  w_ret : Z;       (* the returned [ssize_t] *)
  w_heap : heap;   (* kernel memory on return *)
  w_pos : Z;       (* [*ppos] on return *)
  w_isize : Z      (* [inode->i_size] on return *)
}.

(** [vtfs_write].  [o_append] is [file->f_flags & O_APPEND], [buf] the
    user buffer with [len] its length, [i_size] the inode's size field on
    entry.  The outer [None] is a memory fault. *)
Definition vtfs_write (h : heap) (i_private : ptr) (i_size : Z) (o_append : bool)
    (buf : list byte) (ppos : Z) (env : write_env) : option write_result :=
  let len := Z.of_nat (length buf) in
  a ← vtfs_data_node h i_private;
  node ← h !! a;
  let stop (r : Z) := Some (WriteResult r h ppos i_size) in
  if is_dir node then stop (- EISDIR) else
  let pos := if o_append then to_s64 (size node) else ppos in
  if pos <? 0 then stop (- EINVAL) else
  if len =? 0 then stop 0 else
  if pos >? SIZE_MAX then stop (- EFBIG) else
  if len >? SIZE_MAX - pos then stop (- EFBIG) else
  let end_pos := pos + len in
  g ← grow_buffer node end_pos env;
  match g with
  | inl e => stop e
  | inr node =>
    d ← data node;
    let d := if pos >? size node then memset0 d (size node) (pos - size node) else d in
    let finish (d : list byte) :=
      let sz := if end_pos >? size node then end_pos else size node in
      Some (WriteResult (to_s64 len)
              (<[a := set_buffer node (Some d) sz (capacity node)]> h)
              (to_s64 (pos + len)) sz) in
    let '(d, failed) := copy_from_user d pos buf (uaccess1 env) in
    if negb (failed =? 0) then
      let '(d, not_copied) := copy_from_user d pos buf (uaccess2 env) in
      let written := len - not_copied in
      if negb (not_copied =? 0) then
        let sz := if pos + written >? size node then pos + written else size node in
        Some (WriteResult (if negb (written =? 0) then to_s64 written else - EFAULT)
                (<[a := set_buffer node (Some d) sz (capacity node)]> h)
                (to_s64 (pos + written)) sz)
      else finish d
    else finish d
  end.

(** A file node whose buffer fields are consistent: the block, when there
    is one, has [capacity] bytes, and [0 <= size <= capacity <= SIZE_MAX]. *)
Definition buffer_ok (nd : vtfs_node) : Prop :=
  0 ≤ size nd ≤ capacity nd ∧ capacity nd ≤ SIZE_MAX ∧
  match data nd with
  | Some d => Z.of_nat (length d) = capacity nd
  | None => capacity nd = 0
  end.

(** ** Stages of the block during one write *)

(** The block after the growth step: the old block followed by zeros up to
    the capacity [c1]. *)
Definition grown (nd : vtfs_node) (c1 : Z) : list byte :=
  default [] (data nd) ++ replicate (Z.to_nat (c1 - capacity nd)) x00.

(** ... after the hole between the old size and [pos] is cleared
    (lines 156-157). *)
Definition hole_cleared (nd : vtfs_node) (c1 pos : Z) : list byte :=
  if pos >? size nd then memset0 (grown nd c1) (size nd) (pos - size nd)
  else grown nd c1.

(** ... and after a user copy that brought [k] of the bytes of [buf]. *)
Definition stored (nd : vtfs_node) (c1 pos : Z) (buf : list byte) (k : nat) : list byte :=
  take (Z.to_nat pos) (hole_cleared nd c1 pos) ++ take k buf
    ++ replicate (length buf - k) x00
    ++ drop (Z.to_nat pos + length buf) (hole_cleared nd c1 pos).

(** The number of bytes brought by the copy whose result [vtfs_write]
    keeps: the first [copy_from_user] when it is complete, the second one
    otherwise. *)
Definition copied (env : write_env) (buf : list byte) : nat :=
  if decide (length buf ≤ uaccess1 env)%nat then length buf
  else Nat.min (uaccess2 env) (length buf).


(** ** vtfs_inode.c *)

(** A store through a pointer, [a->field = ...]: the node at [a] is read
    and written back; a dangling [a] is a fault. *)
Definition store (h : heap) (a : loc) (f : vtfs_node → vtfs_node) : option heap :=
  nd ← h !! a; Some (<[a := f nd]> h).

Definition set_ino (nd : vtfs_node) (i : Z) : vtfs_node :=
  mk_node (name nd) i (is_dir nd) (mode nd) (parent nd) (first_child nd)
          (next_sibling nd) (link_target nd) (data nd) (size nd) (capacity nd).

(** The first [n] characters of a string (all of it when it is shorter). *)
Fixpoint str_prefix (n : nat) (s : string) : string :=
  match n, s with
  | S n, String c s => String c (str_prefix n s)
  | _, _ => EmptyString
  end.

(** [strscpy(dst, src, count)], the contents of [dst] afterwards: at most
    [count - 1] characters of [src], the last byte being kept for the
    terminating NUL. *)
Definition strscpy (src : string) (count : Z) : string :=
  str_prefix (Z.to_nat (count - 1)) src.

(** [strnlen(s, n)]. *)
Definition strnlen (s : string) (n : Z) : Z := Z.min (Z.of_nat (String.length s)) n.

(** [vtfs_alloc_node].  [kzalloc] is what the allocator returns: [None]
    for NULL, else the address of a zeroed block.  The result is the new
    pointer with the memory holding the node, or [None] for NULL. *)
Definition vtfs_alloc_node (h : heap) (kzalloc : ptr) (nm : string) (dir : bool)
    (md : Z) : option (loc * heap) :=
  node ← kzalloc;
  let inode_mode :=
    if Z.land md S_IFMT =? 0 then Z.lor md (if dir then S_IFDIR else S_IFREG)
    else md in
  Some (node,
        <[node := mk_node (strscpy nm VTFS_FILE_NAME_LEN) 0 dir inode_mode
                    None None None None None 0 0]> h).

(** The scan [for (child = first; child; child = child->next_sibling)
    if (strcmp(child->name, name) == 0) ...] of [vtfs_lookup] and
    [vtfs_mkdir]: the first node of the sibling chain with that name, or
    NULL at the end of the chain.  The outer [None] is a fault or the end
    of the fuel. *)
Fixpoint find_child (fuel : nat) (h : heap) (child : ptr) (nm : string)
    : option ptr :=
  match child with
  | None => Some None
  | Some c =>
    match fuel with
    | O => None
    | S f =>
      nd ← h !! c;
      if String.eqb (name nd) nm then Some (Some c)
      else find_child f h (next_sibling nd) nm
    end
  end.

(** [vtfs_lookup]: the error of the returned pointer (0 for NULL) and the
    node whose inode is attached to the dentry ([None]: a negative
    dentry).  [inode_ok] tells whether [vtfs_get_inode] gets an inode. *)
Definition vtfs_lookup (fuel : nat) (h : heap) (parent : ptr) (nm : string)
    (inode_ok : bool) : option (Z * ptr) :=
  match parent with
  | None => Some (0, None)
  | Some pa =>
    pn ← h !! pa;
    found ← find_child fuel h (first_child pn) nm;
    match found with
    | Some c => if inode_ok then Some (0, Some c) else Some (- ENOMEM, None)
    | None => Some (0, None)
    end
  end.

(** The loop of [vtfs_unlink], lines 76-92: [cur] when the loop ends
    (NULL when [node] was not met) and the memory then. *)
Fixpoint detach (fuel : nat) (h : heap) (parent node : loc) (prev cur : ptr)
    : option (ptr * heap) :=
  match cur with
  | None => Some (None, h)
  | Some c =>
    if decide (c = node) then
      cn ← h !! c;
      h ← match prev with
          | Some p => store h p (λ nd, set_next_sibling nd (next_sibling cn))
          | None => store h parent (λ nd, set_first_child nd (next_sibling cn))
          end;
      h ← store h node (λ nd, set_parent nd None);
      h ← store h node (λ nd, set_next_sibling nd None);
      Some (Some c, h)
    else
      match fuel with
      | O => None
      | S f => cn ← h !! c; detach f h parent node (Some c) (next_sibling cn)
      end
  end.

(** [vtfs_unlink], with [parent = dir->i_private] and
    [node = d_inode(dentry)->i_private].  The link count of the inode is
    kernel state outside this model. *)
Definition vtfs_unlink (fuel : nat) (h : heap) (parent node : ptr)
    : option (Z * heap) :=
  match parent, node with
  | Some pa, Some n =>
    nd ← h !! n;
    if is_dir nd then Some (- EISDIR, h) else
    pn ← h !! pa;
    r ← detach fuel h pa n None (first_child pn);
    match r.1 with
    | None => Some (- ENOENT, r.2)
    | Some _ => Some (0, r.2)
    end
  | _, _ => Some (- EINVAL, h)
  end.

(** [vtfs_create]: the return value, the memory and [fs->next_ino]. *)
Definition vtfs_create (h : heap) (next_ino : Z) (parent : ptr) (nm : string)
    (md : Z) (kzalloc : ptr) (inode_ok : bool) : option (Z * heap * Z) :=
  match parent with
  | None => Some (- EINVAL, h, next_ino)
  | Some pa =>
    match vtfs_alloc_node h kzalloc nm false md with
    | None => Some (- ENOMEM, h, next_ino)
    | Some (node, h) =>
      h ← store h node (λ nd, set_ino nd next_ino);
      let next_ino := to_u64 (next_ino + 1) in
      h ← store h node (λ nd, set_parent nd (Some pa));
      pn ← h !! pa;
      h ← store h node (λ nd, set_next_sibling nd (first_child pn));
      h ← store h pa (λ nd, set_first_child nd (Some node));
      if inode_ok then Some (0, h, next_ino)
      else
        nd ← h !! node;
        h ← store h pa (λ pn, set_first_child pn (next_sibling nd));
        Some (- ENOMEM, delete node h, next_ino)
    end
  end.

(** [vtfs_mkdir]. *)
Definition vtfs_mkdir (fuel : nat) (h : heap) (next_ino : Z) (parent : ptr)
    (nm : string) (md : Z) (kzalloc : ptr) (inode_ok : bool)
    : option (Z * heap * Z) :=
  match parent with
  | None => Some (- EINVAL, h, next_ino)
  | Some pa =>
    pn ← h !! pa;
    found ← find_child fuel h (first_child pn) nm;
    match found with
    | Some _ => Some (- EEXIST, h, next_ino)
    | None =>
      let md := if Z.land md S_IFMT =? 0 then Z.lor md S_IFDIR else md in
      match vtfs_alloc_node h kzalloc nm true md with
      | None => Some (- ENOMEM, h, next_ino)
      | Some (node, h) =>
        h ← store h node (λ nd, set_ino nd next_ino);
        let next_ino := to_u64 (next_ino + 1) in
        h ← store h node (λ nd, set_parent nd (Some pa));
        pn ← h !! pa;
        h ← store h node (λ nd, set_next_sibling nd (first_child pn));
        h ← store h pa (λ nd, set_first_child nd (Some node));
        if inode_ok then Some (0, h, next_ino)
        else
          nd ← h !! node;
          h ← store h pa (λ pn, set_first_child pn (next_sibling nd));
          h ← store h node (λ nd, set_next_sibling nd None);
          h ← store h node (λ nd, set_parent nd None);
          Some (- ENOMEM, delete node h, next_ino)
      end
    end
  end.

(** The node a successful [vtfs_create] or [vtfs_mkdir] leaves at the new
    address. *)
Definition fresh_node (nm : string) (dir : bool) (md : Z) (i : Z) (pa : loc)
    (sibling : ptr) : vtfs_node :=
  mk_node (strscpy nm VTFS_FILE_NAME_LEN) i dir
          (if Z.land md S_IFMT =? 0 then Z.lor md (if dir then S_IFDIR else S_IFREG)
           else md)
          (Some pa) None sibling None None 0 0.

(** [vtfs_link], with [old_node = d_inode(old_dentry)->i_private],
    [i_mode] the mode of that inode and [parent = dir->i_private].  The new
    node is a zeroed block whose fields are then filled in. *)
Definition vtfs_link (h : heap) (i_mode : Z) (old_node parent : ptr)
    (nm : string) (kzalloc : ptr) : option (Z * heap) :=
  match old_node, parent with
  | Some o, Some pa =>
    if S_ISDIR i_mode then Some (- EPERM, h) else
    on ← h !! o;
    let data_node := match link_target on with Some t => t | None => o end in
    match kzalloc with
    | None => Some (- ENOMEM, h)
    | Some new_node =>
      let h := <[new_node := mk_node EmptyString 0 false 0 None None None None None 0 0]> h in
      on ← h !! o;
      pn ← h !! pa;
      h ← store h new_node (λ _,
             mk_node (strscpy nm VTFS_FILE_NAME_LEN) (ino on) false (mode on)
                     (Some pa) None (first_child pn) (Some data_node) None 0 0);
      h ← store h pa (λ nd, set_first_child nd (Some new_node));
      Some (0, h)
    end
  | _, _ => Some (- EINVAL, h)
  end.

(** ** vtfs_dir.c *)

Record dirent := Dirent { d_name : string; d_ino : Z; d_type : Z }.

(** What [dir_emit] is called with for a child: the first
    [strnlen(child->name, VTFS_FILE_NAME_LEN)] characters of its name, its
    inode number and its type. *)
Definition dirent_of (nd : vtfs_node) : dirent :=
  Dirent (str_prefix (Z.to_nat (strnlen (name nd) VTFS_FILE_NAME_LEN)) (name nd))
         (ino nd) (if is_dir nd then DT_DIR else DT_REG).

(** The kernel's [dir_emit_dots]: "." at position 0 and ".." at position
    1, each if the reader takes it.  [room] is the number of entries the
    reader still takes ([dir_emit] returns false when it is zero).  The
    result tells whether to go on, what was emitted, the position and the
    room left. *)
Definition dir_emit_dots (room : nat) (pos self_ino parent_ino : Z)
    : bool * list dirent * Z * nat :=
  let '(ok, out, pos, room) :=
    if pos =? 0 then
      match room with
      | O => (false, [], pos, room)
      | S r => (true, [Dirent "." self_ino DT_DIR], 1, r)
      end
    else (true, [], pos, room) in
  if negb ok then (false, out, pos, room) else
  if pos =? 1 then
    match room with
    | O => (false, out, pos, room)
    | S r => (true, out ++ [Dirent ".." parent_ino DT_DIR], 2, r)
    end
  else (true, out, pos, room).

(** [while (child && idx > 0) { child = child->next_sibling; idx--; }] *)
Fixpoint skip_children (h : heap) (child : ptr) (idx : nat) : option ptr :=
  match child, idx with
  | Some c, S i => nd ← h !! c; skip_children h (next_sibling nd) i
  | _, _ => Some child
  end.

(** [while (child) { ... if (!dir_emit(...)) break; ctx->pos++; ... }]:
    the entries emitted and the position at the end. *)
Fixpoint emit_children (room : nat) (h : heap) (child : ptr) (pos : Z)
    : option (list dirent * Z) :=
  match child with
  | None => Some ([], pos)
  | Some c =>
    nd ← h !! c;
    match room with
    | O => Some ([], pos)
    | S r =>
      rest ← emit_children r h (next_sibling nd) (to_s64 (pos + 1));
      Some (dirent_of nd :: rest.1, rest.2)
    end
  end.

(** [vtfs_iterate]: the return value, the entries emitted during the call
    and [ctx->pos] on return.  [i_mode] is the mode of the directory's
    inode, [dir_node] its [i_private], [self_ino] and [parent_ino] the
    inode numbers the kernel gives the dot entries. *)
Definition vtfs_iterate (h : heap) (i_mode : Z) (dir_node : ptr) (pos : Z)
    (room : nat) (self_ino parent_ino : Z) : option (Z * list dirent * Z) :=
  if negb (S_ISDIR i_mode) then Some (- ENOTDIR, [], pos) else
  match dir_node with
  | None => Some (- EINVAL, [], pos)
  | Some dn =>
    let '(ok, dots, pos, room) := dir_emit_dots room pos self_ino parent_ino in
    if negb ok then Some (0, dots, pos) else
    let idx := to_uint (pos - 2) in
    dnode ← h !! dn;
    child ← skip_children h (first_child dnode) (Z.to_nat idx);
    r ← emit_children room h child pos;
    Some (0, dots ++ r.1, r.2)
  end.

(** ** Sibling chains *)

(** [lseg h p q l]: following [next_sibling] from [p] visits the nodes at
    [l] in order and then arrives at [q]. *)
Inductive lseg (h : heap) : ptr → ptr → list loc → Prop :=
| lseg_nil p : lseg h p p []
| lseg_cons a nd q l :
    h !! a = Some nd → lseg h (next_sibling nd) q l → lseg h (Some a) q (a :: l).

(** The children of a directory whose [first_child] is [p]. *)
Definition chain (h : heap) (p : ptr) (l : list loc) : Prop := lseg h p None l.

(** The nodes at a list of addresses. *)
Definition nodes_at (h : heap) (l : list loc) : list vtfs_node :=
  omap (λ a, h !! a) l.

(** Every link target is a data owner: an alias never points to an alias. *)
Definition no_alias_chain (h : heap) : Prop :=
  ∀ a nd t, h !! a = Some nd → link_target nd = Some t →
    ∃ tn, h !! t = Some tn ∧ link_target tn = None.

(** ** A small file system to run the code on *)

(** A root directory with two files: "f", still empty, and "g", which
    holds the four bytes [1 2 3 4] in a block of eight. *)
Definition root_dir : vtfs_node :=
  mk_node "/" 1 true (Z.lor S_IFDIR 511) None (Some 2%positive) None None None 0 0.

Definition file_f : vtfs_node :=
  mk_node "f" 2 false S_IFREG (Some 1%positive) None (Some 3%positive) None None 0 0.

Definition file_g : vtfs_node :=
  mk_node "g" 3 false S_IFREG (Some 1%positive) None None None
          (Some [x01; x02; x03; x04; x00; x00; x00; x00]) 4 8.

Definition small_fs : heap :=
  <[1%positive := root_dir]> (<[2%positive := file_f]> (<[3%positive := file_g]> ∅)).

(** A kernel with memory to spare, whose fresh blocks are full of [0xff],
    and a user buffer that can be read in full. *)
Definition kind_env : write_env := WriteEnv true (λ _, xff) 4096 4096.

(** The user buffer faults after two bytes, at both attempts. *)
Definition faulting_env : write_env := WriteEnv true (λ _, xff) 2 2.

(** A name of [n] characters. *)
Fixpoint long_name (n : nat) : string :=
  match n with
  | O => EmptyString
  | S k => String "a"%char (long_name k)
  end.

(** ** The rest of vtfs_file.c and vtfs_inode.c *)

Definition ENOTEMPTY : Z := 39.

(** [vtfs_open].  [o_trunc] is [file->f_flags & O_TRUNC]; the result is
    the return value, the memory and [inode->i_size].  There is no test of
    [is_dir] here. *)
Definition vtfs_open (h : heap) (i_private : ptr) (i_size : Z) (o_trunc : bool)
    : option (Z * heap * Z) :=
  a ← vtfs_data_node h i_private;
  if o_trunc then
    h ← store h a (λ nd, set_buffer nd None 0 0);
    Some (0, h, 0)
  else Some (0, h, i_size).

(** [vtfs_rmdir], with [parent = dir->i_private] and
    [node = d_inode(dentry)->i_private].  Its loop, lines 232-248, is the
    loop of [vtfs_unlink] again. *)
Definition vtfs_rmdir (fuel : nat) (h : heap) (parent node : ptr)
    : option (Z * heap) :=
  match parent, node with
  | Some pa, Some n =>
    nd ← h !! n;
    if negb (is_dir nd) then Some (- ENOTDIR, h) else
    match first_child nd with
    | Some _ => Some (- ENOTEMPTY, h)
    | None =>
      pn ← h !! pa;
      r ← detach fuel h pa n None (first_child pn);
      match r.1 with
      | None => Some (- ENOENT, r.2)
      | Some _ => Some (0, r.2)
      end
    end
  | _, _ => Some (- EINVAL, h)
  end.

(** ** The module file: inodes, eviction, teardown *)

(** What [vtfs_get_inode] sets in the new inode. *)
Record inode := Inode {
  i_ino : Z;
  i_mode : Z;
  i_private : ptr;
  i_nlink : Z;
  i_dir_ops : bool   (* [i_fop] is [vtfs_dir_ops] rather than [vtfs_file_ops] *)
}.

(** [vtfs_get_inode]: NULL when [new_inode] gives none ([new_inode_ok]).
    [inode_init_owner] with no directory leaves the mode as it is. *)
Definition vtfs_get_inode (h : heap) (node : loc) (new_inode_ok : bool)
    : option (option inode) :=
  if new_inode_ok then
    nd ← h !! node;
    Some (Some (Inode (ino nd) (mode nd) (Some node)
                      (if is_dir nd then 2 else 1) (is_dir nd)))
  else Some None.

(** [vtfs_evict_inode]: the memory and [inode->i_private] afterwards.  A
    node's block lives in its record here, so [kfree(node->data)] and
    [kfree(node)] are one removal; an alias has no block of its own. *)
Definition vtfs_evict_inode (h : heap) (i_private : ptr) (i_nlink : Z)
    : option (heap * ptr) :=
  match i_private with
  | None => Some (h, None)
  | Some n =>
    nd ← h !! n;
    if negb (i_nlink =? 0) then Some (h, Some n)
    else Some (delete n h, None)
  end.

(** [vtfs_free_node_recursive], and its loop over the children, which
    reads [child->next_sibling] before the child is freed.  The fuel bounds
    the calls and the rounds together. *)
Fixpoint vtfs_free_node_recursive (fuel : nat) (h : heap) (node : ptr)
    : option heap :=
  match node with
  | None => Some h
  | Some n =>
    match fuel with
    | O => None
    | S f =>
      nd ← h !! n;
      h ← free_children f h (first_child nd);
      _ ← h !! n;
      Some (delete n h)
    end
  end
with free_children (fuel : nat) (h : heap) (child : ptr) : option heap :=
  match child with
  | None => Some h
  | Some c =>
    match fuel with
    | O => None
    | S f =>
      cn ← h !! c;
      let next := next_sibling cn in
      h ← vtfs_free_node_recursive f h (Some c);
      free_children f h next
    end
  end.

(** ** Shapes *)

(** [tree_at h a l]: the nodes below and including [a] are those at [l]
    ([a] first, then the subtrees of its children in chain order);
    [forest h p l] is the same for a sibling chain starting at [p]. *)
Inductive tree_at (h : heap) : loc → list loc → Prop :=
| tree_node a nd l :
    h !! a = Some nd → forest h (first_child nd) l → tree_at h a (a :: l)
with forest (h : heap) : ptr → list loc → Prop :=
| forest_nil : forest h None []
| forest_cons c cn l1 l2 :
    h !! c = Some cn → tree_at h c l1 → forest h (next_sibling cn) l2 →
    forest h (Some c) (l1 ++ l2).

Scheme tree_at_mut := Minimality for tree_at Sort Prop
with forest_mut := Minimality for forest Sort Prop.

(** Every child on the chain names [pa] as its parent. *)
Definition children_point_to (h : heap) (pa : loc) (l : list loc) : Prop :=
  ∀ c, c ∈ l → parent <$> h !! c = Some (Some pa).

(** Every inode number in use is below the counter. *)
Definition inos_below (h : heap) (next_ino : Z) : Prop :=
  ∀ a nd, h !! a = Some nd → 0 ≤ ino nd < next_ino.

(** What a node holds apart from its place in the tree: the record with
    the three tree links cleared. *)
Definition payload (nd : vtfs_node) : vtfs_node :=
  mk_node (name nd) (ino nd) (is_dir nd) (mode nd) None None None
          (link_target nd) (data nd) (size nd) (capacity nd).

(** The first address of [l] whose node is called [nm]. *)
Definition first_named (h : heap) (nm : string) (l : list loc) : ptr :=
  head (filter (λ a, name <$> h !! a = Some nm) l).

(** The memory after the nodes at [l] are freed. *)
Definition freed (h : heap) (l : list loc) : heap := foldr delete h l.

(** The small file system with an empty directory "d" put before its two
    files. *)
Definition dir_d : vtfs_node :=
  mk_node "d" 4 true (Z.lor S_IFDIR 493) (Some 1%positive) None (Some 2%positive)
          None None 0 0.

Definition dir_fs : heap :=
  <[1%positive := set_first_child root_dir (Some 4%positive)]>
    (<[4%positive := dir_d]> small_fs).

(** ** A directory with any number of files *)

(** A name for every address: its binary digits from the lowest up,
    written [o] and [i], with [h] for the leading one. *)
Fixpoint pos_name (p : positive) : string :=
  match p with
  | xI q => String "i" (pos_name q)
  | xO q => String "o" (pos_name q)
  | xH => "h"
  end.

(** File number [j] lives at address [j + 2], is called after its address
    and points to file [j - 1] as its next sibling; the last file made is
    the first child, as [vtfs_create] leaves it. *)
Definition file_addr (j : nat) : loc := Pos.of_succ_nat (S j).

Definition last_file (k : nat) : ptr :=
  match k with
  | O => None
  | S j => Some (file_addr j)
  end.

Definition numbered_file (j : nat) : vtfs_node :=
  mk_node (pos_name (file_addr j)) (Z.of_nat j + 2) false S_IFREG (Some 1%positive) None
          (last_file j) None None 0 0.

Fixpoint many_files (k : nat) : heap :=
  match k with
  | O => ∅
  | S j => <[file_addr j := numbered_file j]> (many_files j)
  end.

Fixpoint file_addrs (k : nat) : list loc :=
  match k with
  | O => []
  | S j => file_addr j :: file_addrs j
  end.

Definition big_root (k : nat) : vtfs_node :=
  mk_node "/" 1 true (Z.lor S_IFDIR 511) None (last_file k) None None None 0 0.

(** A root directory at address 1 with [k] files. *)
Definition big_fs (k : nat) : heap := <[1%positive := big_root k]> (many_files k).
(** ** Arithmetic of the conversions and of the doubling loop *)

Ltac zbool :=
  repeat match goal with
  | |- context [?a >? ?b] => rewrite (Z.gtb_ltb a b)
  | |- context [?a >=? ?b] => rewrite (Z.geb_leb a b)
  | H : context [?a >? ?b] |- _ => rewrite (Z.gtb_ltb a b) in H
  | H : context [?a >=? ?b] |- _ => rewrite (Z.geb_leb a b) in H
  end.

(** Reads through stacks of stores. *)
Ltac heap_simpl :=
  repeat first
    [ rewrite lookup_insert_eq
    | rewrite insert_insert_eq
    | rewrite lookup_insert_ne by done
    | rewrite lookup_delete_eq
    | rewrite lookup_delete_ne by done
    | match goal with
      | H : ?h !! ?a = _ |- context [?h !! ?a] => rewrite H
      end
    | progress simpl ].

Lemma SIZE_MAX_half : SIZE_MAX / 2 = 2 ^ 63 - 1.
Proof. reflexivity. Qed.

Lemma to_s64_id z : - 2 ^ 63 ≤ z < 2 ^ 63 → to_s64 z = z.
Proof. intros Hz. unfold to_s64. rewrite Z.mod_small; lia. Qed.

Lemma to_s64_range z : - 2 ^ 63 ≤ to_s64 z < 2 ^ 63.
Proof.
  unfold to_s64. pose proof (Z.mod_pos_bound (z + 2 ^ 63) (2 ^ 64)). lia.
Qed.

Lemma pow2_step c j : 0 < j → c * 2 ^ j = c * 2 * 2 ^ (j - 1).
Proof.
  intros Hj. replace j with (Z.succ (j - 1)) at 1 by lia.
  rewrite Z.pow_succ_r by lia. ring.
Qed.

Lemma grow_capacity_total fuel c e :
  1 ≤ c → 2 ^ 63 ≤ c * 2 ^ Z.of_nat fuel → grow_capacity fuel c e ≠ GrowFuel.
Proof.
  revert c. induction fuel as [|f IH]; intros c Hc Hbig; simpl; zbool;
    rewrite SIZE_MAX_half.
  - destruct (Z.ltb_spec c e); [|done].
    destruct (Z.ltb_spec (2 ^ 63 - 1) c); [done|]. simpl in Hbig. lia.
  - destruct (Z.ltb_spec c e); [|done].
    destruct (Z.ltb_spec (2 ^ 63 - 1) c); [done|].
    apply IH; [lia|]. rewrite (pow2_step c (Z.of_nat (S f))) in Hbig by lia.
    replace (Z.of_nat (S f) - 1) with (Z.of_nat f) in Hbig by lia. done.
Qed.

(** What the loop computes: it stops after [k] doublings, either because
    the capacity reached [e] or because one more doubling would exceed
    [SIZE_MAX]; every earlier round was below [e] and could be doubled. *)
Lemma grow_capacity_spec fuel c e :
  1 ≤ c → grow_capacity fuel c e ≠ GrowFuel →
  ∃ k, 0 ≤ k ∧
    (∀ j, 0 ≤ j < k → c * 2 ^ j < e ∧ 2 * (c * 2 ^ j) ≤ SIZE_MAX) ∧
    ((grow_capacity fuel c e = GrowOk (c * 2 ^ k) ∧ e ≤ c * 2 ^ k) ∨
     (grow_capacity fuel c e = GrowOverflow ∧ c * 2 ^ k < e ∧ SIZE_MAX < 2 * (c * 2 ^ k))).
Proof.
  revert c. induction fuel as [|f IH]; intros c Hc; simpl; zbool;
    rewrite SIZE_MAX_half; unfold SIZE_MAX.
  - destruct (Z.ltb_spec c e).
    + destruct (Z.ltb_spec (2 ^ 63 - 1) c); [|done]. intros _.
      exists 0. rewrite Z.mul_1_r. split; [lia|]. split; [lia|]. right. split; [done|lia].
    + intros _. exists 0. rewrite Z.mul_1_r. split; [lia|]. split; [lia|]. left.
      split; [done|lia].
  - destruct (Z.ltb_spec c e).
    + destruct (Z.ltb_spec (2 ^ 63 - 1) c).
      * intros _. exists 0. rewrite Z.mul_1_r. split; [lia|]. split; [lia|]. right. split; [done|lia].
      * intros Hf. destruct (IH (c * 2) ltac:(lia) Hf) as (k & Hk & Hlow & Hres).
        exists (k + 1). split; [lia|].
        rewrite (pow2_step c (k + 1)) by lia. replace (k + 1 - 1) with k by lia.
        split; [|exact Hres].
        intros j Hj. destruct (decide (j = 0)) as [->|Hj0].
        -- rewrite Z.mul_1_r. lia.
        -- rewrite (pow2_step c j) by lia. apply Hlow. lia.
    + intros _. exists 0. rewrite Z.mul_1_r. split; [lia|]. split; [lia|]. left.
      split; [done|lia].
Qed.

(** ** The growth block *)

Lemma set_buffer_id nd : set_buffer nd (data nd) (size nd) (capacity nd) = nd.
Proof. by destruct nd. Qed.

Lemma buffer_ok_length nd :
  buffer_ok nd → Z.of_nat (length (default [] (data nd))) = capacity nd.
Proof. intros (_ & _ & Hd). destruct (data nd); simpl; lia. Qed.

(** After [krealloc] and the [memset] of lines 149-150 the block is the old
    block followed by zeros, whatever the fresh memory held. *)
Lemma krealloc_memset0 d c n fill :
  Z.of_nat (length (default [] d)) = c → c ≤ n →
  memset0 (krealloc d n fill) c (n - c)
  = default [] d ++ replicate (Z.to_nat (n - c)) x00.
Proof.
  intros Hlen Hle. unfold memset0, krealloc. set (old := default [] d) in *.
  rewrite (take_ge old) by lia.
  rewrite take_app_length' by lia.
  rewrite drop_ge; [by rewrite app_nil_r|].
  rewrite length_app, length_fmap, length_seq. lia.
Qed.

Lemma grow_buffer_inr nd e env nd1 :
  buffer_ok nd → 0 < e → grow_buffer nd e env = Some (inr nd1) →
  ∃ c1, e ≤ c1 ≤ SIZE_MAX ∧ capacity nd ≤ c1 ∧
    nd1 = set_buffer nd
            (Some (default [] (data nd) ++ replicate (Z.to_nat (c1 - capacity nd)) x00))
            (size nd) c1.
Proof.
  intros Hok He. pose proof (buffer_ok_length nd Hok) as Hlen.
  destruct Hok as (Hsz & Hcap & Hd). unfold grow_buffer. zbool.
  destruct (Z.ltb_spec (capacity nd) e) as [Hlt|Hge].
  - set (c0 := if capacity nd =? 0 then PAGE_SIZE else capacity nd).
    assert (1 ≤ c0 ≤ SIZE_MAX ∧ capacity nd ≤ c0) as (Hc0 & Hc0').
    { unfold c0, PAGE_SIZE, SIZE_MAX in *. destruct (Z.eqb_spec (capacity nd) 0); lia. }
    assert (grow_capacity 64 c0 e ≠ GrowFuel) as Hfuel.
    { apply grow_capacity_total; [lia|]. change (2 ^ Z.of_nat 64) with (2 ^ 64). lia. }
    destruct (grow_capacity_spec 64 c0 e ltac:(lia) Hfuel)
      as (k & Hk & Hlow & [[-> Hstop]|[-> _]]); [|done].
    destruct (krealloc_ok env); [|done]. intros [= <-].
    assert (c0 * 2 ^ k ≤ SIZE_MAX) as Hmax.
    { destruct (decide (k = 0)) as [->|Hk0]; [rewrite Z.mul_1_r; lia|].
      rewrite (pow2_step c0 k) by lia.
      destruct (Hlow (k - 1) ltac:(lia)) as [_ H2]. lia. }
    exists (c0 * 2 ^ k). split; [lia|]. split; [lia|].
    zbool. destruct (Z.ltb_spec (capacity nd) (c0 * 2 ^ k)); [|lia].
    by rewrite krealloc_memset0 by lia.
  - intros [= <-]. exists (capacity nd). split; [lia|]. split; [lia|].
    rewrite Z.sub_diag. simpl. rewrite app_nil_r.
    destruct (data nd) as [d|] eqn:Ed.
    + simpl. rewrite <- Ed. by rewrite set_buffer_id.
    + lia.
Qed.

(** ** One write, traced *)

Lemma set_buffer_set_buffer nd d sz c d' sz' c' :
  set_buffer (set_buffer nd d sz c) d' sz' c' = set_buffer nd d' sz' c'.
Proof. done. Qed.

Lemma Z_max_if a b : (if a <? b then b else a) = Z.max a b.
Proof. destruct (Z.ltb_spec a b); lia. Qed.

Lemma length_memset0 d off n :
  0 ≤ off → 0 ≤ n → off + n ≤ Z.of_nat (length d) →
  length (memset0 d off n) = length d.
Proof.
  intros. unfold memset0.
  rewrite !length_app, length_take, length_replicate, length_drop. lia.
Qed.

Lemma length_grown nd c1 :
  buffer_ok nd → capacity nd ≤ c1 → Z.of_nat (length (grown nd c1)) = c1.
Proof.
  intros Hok Hc. pose proof (buffer_ok_length nd Hok). unfold grown.
  rewrite length_app, length_replicate. lia.
Qed.

Lemma length_hole_cleared nd c1 pos :
  buffer_ok nd → capacity nd ≤ c1 → pos ≤ c1 →
  Z.of_nat (length (hole_cleared nd c1 pos)) = c1.
Proof.
  intros Hok Hc Hp. pose proof (length_grown nd c1 Hok Hc).
  destruct Hok as (Hsz & _). unfold hole_cleared. zbool.
  destruct (Z.ltb_spec (size nd) pos); [|done].
  rewrite length_memset0; lia.
Qed.

Lemma length_stored nd c1 pos buf k :
  buffer_ok nd → capacity nd ≤ c1 → 0 ≤ pos →
  pos + Z.of_nat (length buf) ≤ c1 → (k ≤ length buf)%nat →
  Z.of_nat (length (stored nd c1 pos buf k)) = c1.
Proof.
  intros Hok Hc Hp He Hk.
  pose proof (length_hole_cleared nd c1 pos Hok Hc ltac:(lia)).
  unfold stored.
  rewrite !length_app, !length_take, length_replicate, length_drop. lia.
Qed.

Lemma vtfs_write_copy (h : heap) ip a nd isz (o_append : bool) buf ppos env c1 :
  vtfs_data_node h ip = Some a → h !! a = Some nd → buffer_ok nd →
  is_dir nd = false →
  let pos := if o_append then to_s64 (size nd) else ppos in
  let len := Z.of_nat (length buf) in
  let k := copied env buf in
  let sz := Z.max (size nd) (pos + Z.of_nat k) in
  0 ≤ pos → 0 < len → pos + len ≤ SIZE_MAX →
  grow_buffer nd (pos + len) env
    = Some (inr (set_buffer nd (Some (grown nd c1)) (size nd) c1)) →
  pos + len ≤ c1 → capacity nd ≤ c1 →
  vtfs_write h ip isz o_append buf ppos env
  = Some (WriteResult (if Z.of_nat k =? 0 then - EFAULT else to_s64 (Z.of_nat k))
            (<[a := set_buffer nd (Some (stored nd c1 pos buf k)) sz c1]> h)
            (to_s64 (pos + Z.of_nat k)) sz).
Proof.
  intros Hdn Hnd Hok Hdir pos len k sz Hpos Hlen Hend Hgrow Hc1 Hcap.
  pose proof (length_hole_cleared nd c1 pos Hok Hcap ltac:(lia)) as Hlh.
  unfold vtfs_write. rewrite Hdn. simpl. rewrite Hnd. simpl. rewrite Hdir.
  fold pos len. zbool.
  destruct (Z.ltb_spec pos 0); [lia|].
  destruct (Z.eqb_spec len 0); [lia|].
  destruct (Z.ltb_spec SIZE_MAX pos); [lia|].
  destruct (Z.ltb_spec (SIZE_MAX - pos) len); [lia|].
  rewrite Hgrow. simpl. fold (hole_cleared nd c1 pos).
  zbool. rewrite !set_buffer_set_buffer, !Z_max_if.
  subst k sz. unfold copied, stored.
  destruct (decide (length buf ≤ uaccess1 env)%nat) as [Hfull|Hshort].
  - rewrite Nat.min_r by done. rewrite Nat.sub_diag. simpl. fold len.
    destruct (Z.eqb_spec len 0); [lia|]. done.
  - rewrite (Nat.min_l (uaccess1 env)) by lia.
    destruct (Z.eqb_spec (Z.of_nat (length buf - uaccess1 env)) 0); [lia|]. simpl.
    set (k2 := Nat.min (uaccess2 env) (length buf)).
    assert (k2 ≤ length buf)%nat by lia.
    rewrite take_app_length' by (rewrite length_take; lia).
    rewrite !(assoc_L (++) (take _ (hole_cleared nd c1 pos))).
    rewrite !(assoc_L (++) _ (replicate _ _)).
    rewrite drop_app_length'
      by (rewrite !length_app, !length_take, length_replicate; lia).
    rewrite <- !(assoc_L (++)).
    replace (len - Z.of_nat (length buf - k2)) with (Z.of_nat k2) by lia.
    destruct (Z.eqb_spec (Z.of_nat (length buf - k2)) 0) as [E|E]; simpl.
    + assert (k2 = length buf) as Hk2 by lia. rewrite Hk2, Nat.sub_diag. simpl.
      fold len. destruct (Z.eqb_spec len 0); [lia|]. done.
    + destruct (Z.eqb_spec (Z.of_nat k2) 0); simpl; done.
Qed.

Lemma grow_buffer_spec nd e env :
  buffer_ok nd → capacity nd < e →
  let c0 := if capacity nd =? 0 then PAGE_SIZE else capacity nd in
  ∃ k, 0 ≤ k ∧
    (∀ j, 0 ≤ j < k → c0 * 2 ^ j < e ∧ 2 * (c0 * 2 ^ j) ≤ SIZE_MAX) ∧
    ((c0 * 2 ^ k < e ∧ SIZE_MAX < 2 * (c0 * 2 ^ k) ∧
      grow_buffer nd e env = Some (inl (- EFBIG))) ∨
     (e ≤ c0 * 2 ^ k ∧ c0 * 2 ^ k ≤ SIZE_MAX ∧ capacity nd ≤ c0 * 2 ^ k ∧
      grow_buffer nd e env
      = if krealloc_ok env
        then Some (inr (set_buffer nd (Some (grown nd (c0 * 2 ^ k))) (size nd)
                          (c0 * 2 ^ k)))
        else Some (inl (- ENOMEM)))).
Proof.
  intros Hok Hlt c0. pose proof (buffer_ok_length nd Hok) as Hlen.
  destruct Hok as (Hsz & Hcap & Hd). unfold grow_buffer. zbool.
  destruct (Z.ltb_spec (capacity nd) e) as [_|?]; [|lia]. fold c0.
  assert (1 ≤ c0 ≤ SIZE_MAX ∧ capacity nd ≤ c0) as (Hc0 & Hc0').
  { unfold c0, PAGE_SIZE, SIZE_MAX in *. destruct (Z.eqb_spec (capacity nd) 0); lia. }
  assert (grow_capacity 64 c0 e ≠ GrowFuel) as Hfuel.
  { apply grow_capacity_total; [lia|]. change (2 ^ Z.of_nat 64) with (2 ^ 64). lia. }
  destruct (grow_capacity_spec 64 c0 e ltac:(lia) Hfuel)
    as (k & Hk & Hlow & [[-> Hstop]|[-> Hov]]);
    exists k; (split; [done|]); (split; [done|]); [right|left; by destruct Hov].
  assert (c0 * 2 ^ k ≤ SIZE_MAX) as Hmax.
  { destruct (decide (k = 0)) as [->|Hk0]; [rewrite Z.mul_1_r; lia|].
    rewrite (pow2_step c0 k) by lia.
    destruct (Hlow (k - 1) ltac:(lia)) as [_ H2]. lia. }
  split; [done|]. split; [done|]. split; [lia|].
  destruct (krealloc_ok env); [|done]. zbool.
  destruct (Z.ltb_spec (capacity nd) (c0 * 2 ^ k)); [|lia].
  unfold grown. by rewrite krealloc_memset0 by lia.
Qed.

Lemma to_s64_le z : 0 ≤ z → to_s64 z ≤ z.
Proof.
  intros Hz. unfold to_s64.
  pose proof (Z.mod_le (z + 2 ^ 63) (2 ^ 64) ltac:(lia) ltac:(lia)). lia.
Qed.

Lemma grow_buffer_inl nd e env r :
  grow_buffer nd e env = Some (inl r) → r = - EFBIG ∨ r = - ENOMEM.
Proof.
  unfold grow_buffer. destruct (e >? capacity nd); [|done].
  destruct (grow_capacity _ _ _); [|naive_solver..].
  destruct (krealloc_ok env); naive_solver.
Qed.

(** A write that returns a count reached the user copy: its arguments
    passed the checks and the buffer was large enough or could be grown. *)
Lemma vtfs_write_ok_inv (h : heap) ip a nd isz (o_append : bool) buf ppos env w :
  vtfs_data_node h ip = Some a → h !! a = Some nd → buffer_ok nd →
  vtfs_write h ip isz o_append buf ppos env = Some w →
  0 ≤ w_ret w → (0 < length buf)%nat →
  let pos := if o_append then to_s64 (size nd) else ppos in
  let len := Z.of_nat (length buf) in
  is_dir nd = false ∧ 0 ≤ pos ∧ pos + len ≤ SIZE_MAX ∧
  ∃ c1, pos + len ≤ c1 ≤ SIZE_MAX ∧ capacity nd ≤ c1 ∧
    grow_buffer nd (pos + len) env
    = Some (inr (set_buffer nd (Some (grown nd c1)) (size nd) c1)).
Proof.
  intros Hdn Hnd Hok Hw Hret Hlen pos len.
  unfold vtfs_write in Hw. rewrite Hdn in Hw. simpl in Hw. rewrite Hnd in Hw.
  simpl in Hw. fold pos len in Hw.
  destruct (is_dir nd); [injection Hw as <-; simpl in Hret; unfold EISDIR in *; lia|].
  zbool.
  destruct (Z.ltb_spec pos 0);
    [injection Hw as <-; simpl in Hret; unfold EINVAL in *; lia|].
  destruct (Z.eqb_spec len 0); [lia|].
  destruct (Z.ltb_spec SIZE_MAX pos);
    [injection Hw as <-; simpl in Hret; unfold EFBIG in *; lia|].
  destruct (Z.ltb_spec (SIZE_MAX - pos) len);
    [injection Hw as <-; simpl in Hret; unfold EFBIG in *; lia|].
  destruct (grow_buffer nd (pos + len) env) as [[r|nd1]|] eqn:Hg; [| |done].
  - simpl in Hw. injection Hw as <-. simpl in Hret.
    destruct (grow_buffer_inl _ _ _ _ Hg) as [-> | ->];
      unfold EFBIG, ENOMEM in *; lia.
  - destruct (grow_buffer_inr nd (pos + len) env nd1 Hok ltac:(lia) Hg)
      as (c1 & Hc1 & Hcap & ->).
    split; [done|]. split; [lia|]. split; [lia|]. exists c1. done.
Qed.

(** A pointer keeps its data node when a node is replaced by one with the
    same link target. *)
Lemma vtfs_data_node_insert (h : heap) a nd nd' p :
  h !! a = Some nd → link_target nd' = link_target nd →
  vtfs_data_node (<[a := nd']> h) p = vtfs_data_node h p.
Proof.
  intros Hnd Hlt. destruct p as [b|]; [|done]. simpl.
  destruct (decide (a = b)) as [->|Hne].
  - rewrite lookup_insert_eq, Hnd. simpl. by rewrite Hlt.
  - by rewrite lookup_insert_ne.
Qed.

(** Reading back the range a copy was stored in. *)
Lemma stored_readback nd c1 pos buf k :
  buffer_ok nd → capacity nd ≤ c1 → 0 ≤ pos →
  pos + Z.of_nat (length buf) ≤ c1 → (k ≤ length buf)%nat →
  take (length buf) (drop (Z.to_nat pos) (stored nd c1 pos buf k))
  = take k buf ++ replicate (length buf - k) x00.
Proof.
  intros Hok Hc Hp He Hk.
  pose proof (length_hole_cleared nd c1 pos Hok Hc ltac:(lia)).
  unfold stored. rewrite drop_app_length' by (rewrite length_take; lia).
  rewrite (assoc_L (++)). apply take_app_length'.
  rewrite length_app, length_take, length_replicate. lia.
Qed.

Lemma vtfs_read_run (h : heap) ip a nd d len pos ua :
  vtfs_data_node h ip = Some a → h !! a = Some nd → is_dir nd = false →
  data nd = Some d → 0 ≤ pos < size nd → 0 < len →
  let n := Z.min (size nd - pos) len in
  let slice := take (Z.to_nat n) (drop (Z.to_nat pos) d) in
  (length slice ≤ ua)%nat →
  vtfs_read h ip len pos ua = Some (ReadResult (to_s64 n) slice (to_s64 (pos + n))).
Proof.
  intros Hdn Hnd Hdir Hd Hpos Hlen n slice Hua.
  unfold vtfs_read. rewrite Hdn. simpl. rewrite Hnd. simpl. rewrite Hdir, Hd.
  zbool. destruct (Z.ltb_spec pos 0); [lia|].
  destruct (Z.leb_spec (size nd) pos); [lia|]. fold n.
  destruct (Z.eqb_spec n 0); [lia|]. fold slice.
  unfold copy_to_user. rewrite Nat.min_r by done. rewrite Nat.sub_diag. simpl.
  by rewrite take_ge by done.
Qed.

(** Writing through one pointer and reading back through another one that
    resolves to the same data node. *)
Lemma write_then_read (h : heap) ip1 ip2 a nd isz buf pos env w ua :
  vtfs_data_node h ip1 = Some a → vtfs_data_node h ip2 = Some a →
  h !! a = Some nd → buffer_ok nd →
  vtfs_write h ip1 isz false buf pos env = Some w →
  w_ret w = Z.of_nat (length buf) →
  (length buf ≤ ua)%nat →
  ∃ r, vtfs_read (w_heap w) ip2 (Z.of_nat (length buf)) pos ua = Some r ∧
       r_ret r = Z.of_nat (length buf) ∧ r_out r = buf.
Proof.
  intros Hdn Hdn2 Hnd Hok Hw Hret Hua.
  destruct (decide (length buf = 0)%nat) as [Hz|Hnz].
  - (* nothing to write: the call returns before touching the node *)
    apply length_zero_iff_nil in Hz as ->. simpl in *.
    unfold vtfs_write in Hw. rewrite Hdn in Hw. simpl in Hw. rewrite Hnd in Hw.
    simpl in Hw. unfold vtfs_read.
    destruct (is_dir nd) eqn:Hdir; [injection Hw as <-; done|].
    destruct (Z.ltb_spec pos 0); [injection Hw as <-; done|].
    injection Hw as <-. simpl. rewrite Hdn2. simpl. rewrite Hnd. simpl.
    rewrite Hdir. destruct (Z.ltb_spec pos 0); [lia|].
    destruct (data nd); [|by eexists]. zbool.
    destruct (Z.leb_spec (size nd) pos); [by eexists|].
    rewrite Z.min_r by lia. by eexists.
  - destruct (vtfs_write_ok_inv h ip1 a nd isz false buf pos env w)
      as (Hdir & Hpos & Hend & c1 & Hc1 & Hcap & Hg); try done; [lia..|].
    rewrite (vtfs_write_copy h ip1 a nd isz false buf pos env c1) in Hw;
      try done; [|lia..].
    injection Hw as <-. simpl in *.
    assert (copied env buf ≤ length buf)%nat as Hk
      by (unfold copied; case_decide; lia).
    assert (copied env buf = length buf) as Hcp.
    { destruct (Z.eqb_spec (Z.of_nat (copied env buf)) 0) as [E|E];
        [unfold EFAULT in Hret; lia|].
      pose proof (to_s64_le (Z.of_nat (copied env buf)) ltac:(lia)). lia. }
    rewrite Hcp in *. destruct (Z.eqb_spec (Z.of_nat (length buf)) 0); [lia|].
    pose proof (to_s64_range (Z.of_nat (length buf))) as Hrng.
    set (nd' := set_buffer nd _ _ _).
    eexists. split.
    + eapply (vtfs_read_run _ ip2 a nd'); try done.
      * rewrite vtfs_data_node_insert with (nd := nd); done.
      * apply lookup_insert_eq.
      * simpl. lia.
      * lia.
      * rewrite length_take. simpl. lia.
    + simpl. rewrite Z.min_r by lia. split; [apply to_s64_id; lia|].
      rewrite Nat2Z.id, stored_readback by (done || lia).
      rewrite take_ge by done. rewrite Nat.sub_diag. simpl. apply app_nil_r.
Qed.

(** When the arguments are in range, memory can be had if the block has
    to grow and the user buffer is readable, the write is in full.  The
    end offset is within [LLONG_MAX] for every call that comes through the
    VFS; the doubling loop then cannot overflow. *)
Lemma vtfs_write_in_full (h : heap) ip a nd isz buf pos env :
  vtfs_data_node h ip = Some a → h !! a = Some nd → buffer_ok nd →
  is_dir nd = false → 0 ≤ pos → pos + Z.of_nat (length buf) ≤ LLONG_MAX →
  (capacity nd < pos + Z.of_nat (length buf) → krealloc_ok env = true) →
  (length buf ≤ uaccess1 env)%nat →
  ∃ w, vtfs_write h ip isz false buf pos env = Some w ∧
       w_ret w = Z.of_nat (length buf).
Proof.
  intros Hdn Hnd Hok Hdir Hpos Hend Hmem Hua. unfold LLONG_MAX in Hend.
  destruct (decide (length buf = 0)%nat) as [Hz|Hnz].
  - apply length_zero_iff_nil in Hz as ->. simpl.
    unfold vtfs_write. rewrite Hdn. simpl. rewrite Hnd. simpl. rewrite Hdir.
    destruct (Z.ltb_spec pos 0); [lia|]. by eexists.
  - assert (∃ c1, pos + Z.of_nat (length buf) ≤ c1 ∧ capacity nd ≤ c1 ∧
              grow_buffer nd (pos + Z.of_nat (length buf)) env
              = Some (inr (set_buffer nd (Some (grown nd c1)) (size nd) c1)))
      as (c1 & Hc1 & Hcap & Hg).
    { destruct (Z.le_gt_cases (pos + Z.of_nat (length buf)) (capacity nd))
        as [Hfit|Hgrow].
      - destruct (grow_buffer nd (pos + Z.of_nat (length buf)) env)
          as [[r|nd1]|] eqn:Hg.
        + unfold grow_buffer in Hg. zbool.
          destruct (Z.ltb_spec (capacity nd) (pos + Z.of_nat (length buf)));
            [lia|done].
        + assert (0 < pos + Z.of_nat (length buf)) as Hlt by lia.
          destruct (grow_buffer_inr nd _ env nd1 Hok Hlt Hg)
            as (c1 & ? & ? & ->). exists c1. split; [lia|]. done.
        + unfold grow_buffer in Hg. zbool.
          destruct (Z.ltb_spec (capacity nd) (pos + Z.of_nat (length buf)));
            [lia|done].
      - pose proof (grow_buffer_spec nd _ env Hok Hgrow) as Hs.
        cbv zeta in Hs.
        destruct Hs as (k & Hk & _ & [(Hlt & Hov & _)|(Hge & _ & Hc & Hg)]).
        + unfold SIZE_MAX in Hov. lia.
        + rewrite (Hmem ltac:(lia)) in Hg. eexists. split; [exact Hge|]. done. }
    eexists. split.
    + apply (vtfs_write_copy h ip a nd isz false buf pos env c1);
        try done; unfold SIZE_MAX; lia.
    + simpl. unfold copied. rewrite decide_True by done.
      destruct (Z.eqb_spec (Z.of_nat (length buf)) 0); [lia|].
      apply to_s64_id. lia.
Qed.

(** C1.  Take an offset and a byte sequence whose end offset is within
    [SIZE_MAX].  Whenever the write is in full (the call returns the
    length of the sequence), a read at the same offset with the same
    length delivers exactly the bytes written.  And the write is in full
    whenever the offset is not negative, the end offset is within
    [LLONG_MAX], memory can be had if the block has to grow, and the user
    buffer can be read.  The node is reached through any pointer that
    resolves to it, in particular the data-owning node itself. *)
Theorem write_read_roundtrip (h : heap) ip a nd isz buf pos env ua :
  vtfs_data_node h ip = Some a → h !! a = Some nd → buffer_ok nd →
  is_dir nd = false →
  pos + Z.of_nat (length buf) ≤ SIZE_MAX →
  (length buf ≤ ua)%nat →
  (∀ w, vtfs_write h ip isz false buf pos env = Some w →
        w_ret w = Z.of_nat (length buf) →
        ∃ r, vtfs_read (w_heap w) ip (Z.of_nat (length buf)) pos ua = Some r ∧
             r_ret r = Z.of_nat (length buf) ∧ r_out r = buf) ∧
  (0 ≤ pos → pos + Z.of_nat (length buf) ≤ LLONG_MAX →
   (capacity nd < pos + Z.of_nat (length buf) → krealloc_ok env = true) →
   (length buf ≤ uaccess1 env)%nat →
   ∃ w, vtfs_write h ip isz false buf pos env = Some w ∧
        w_ret w = Z.of_nat (length buf)).
Proof.
  intros Hdn Hnd Hok Hdir _ Hua. split.
  - intros w Hw Hret.
    by apply (write_then_read h ip ip a nd isz buf pos env w ua).
  - intros Hpos Hend Hmem Hread.
    by apply (vtfs_write_in_full h ip a nd isz buf pos env).
Qed.

(** ** Contents of the block, byte by byte *)

Lemma lookup_memset0 d off n (i : nat) :
  0 ≤ off → 0 ≤ n → off + n ≤ Z.of_nat (length d) →
  memset0 d off n !! i
  = if decide (off ≤ Z.of_nat i < off + n) then Some x00 else d !! i.
Proof.
  intros Hoff Hn Hlen. unfold memset0.
  destruct (decide (Z.of_nat i < off)) as [Hlt|Hge].
  - rewrite lookup_app_l by (rewrite length_take; lia).
    rewrite lookup_take_lt by lia. case_decide; [lia|done].
  - rewrite lookup_app_r by (rewrite length_take; lia).
    rewrite length_take, Nat.min_l by lia.
    destruct (decide (Z.of_nat i < off + n)) as [Hin|Hout].
    + rewrite lookup_app_l by (rewrite length_replicate; lia).
      rewrite lookup_replicate_2 by lia. case_decide; [done|lia].
    + rewrite lookup_app_r by (rewrite length_replicate; lia).
      rewrite length_replicate, lookup_drop. case_decide; [lia|].
      f_equal. lia.
Qed.

Lemma lookup_grown_fresh nd c1 (i : nat) :
  buffer_ok nd → capacity nd ≤ Z.of_nat i < c1 → grown nd c1 !! i = Some x00.
Proof.
  intros Hok Hi. pose proof (buffer_ok_length nd Hok). unfold grown.
  rewrite lookup_app_r by lia. apply lookup_replicate_2. lia.
Qed.

Lemma lookup_hole_cleared nd c1 pos (i : nat) :
  buffer_ok nd → capacity nd ≤ c1 → pos ≤ c1 →
  hole_cleared nd c1 pos !! i
  = if decide (size nd ≤ Z.of_nat i < pos) then Some x00 else grown nd c1 !! i.
Proof.
  intros Hok Hc Hp. pose proof (length_grown nd c1 Hok Hc).
  destruct Hok as (Hsz & _). unfold hole_cleared. zbool.
  destruct (Z.ltb_spec (size nd) pos).
  - rewrite lookup_memset0 by lia. repeat case_decide; (done || lia).
  - case_decide; [lia|done].
Qed.

Lemma lookup_stored_outside nd c1 pos buf k (i : nat) :
  buffer_ok nd → capacity nd ≤ c1 → 0 ≤ pos →
  pos + Z.of_nat (length buf) ≤ c1 → (k ≤ length buf)%nat →
  ¬ (pos ≤ Z.of_nat i < pos + Z.of_nat (length buf)) →
  stored nd c1 pos buf k !! i = hole_cleared nd c1 pos !! i.
Proof.
  intros Hok Hc Hp He Hk Hi.
  pose proof (length_hole_cleared nd c1 pos Hok Hc ltac:(lia)).
  unfold stored. destruct (decide (Z.of_nat i < pos)).
  - rewrite lookup_app_l by (rewrite length_take; lia).
    apply lookup_take_lt. lia.
  - rewrite (assoc_L (++) (take k buf)), (assoc_L (++) (take _ _)).
    rewrite lookup_app_r
      by (rewrite !length_app, !length_take, length_replicate; lia).
    rewrite lookup_drop. f_equal.
    rewrite !length_app, !length_take, length_replicate. lia.
Qed.

Lemma take_drop_zeros (l : list byte) (o n : nat) :
  (∀ j, (j < n)%nat → l !! (o + j)%nat = Some x00) →
  take n (drop o l) = replicate n x00.
Proof.
  intros Hz. apply list_eq. intros j. rewrite lookup_take, lookup_drop.
  case_decide.
  - rewrite Hz by done. symmetry. by apply lookup_replicate_2.
  - symmetry. apply lookup_replicate_None. lia.
Qed.

(** C3, as the code has it.  A write in full of at least one byte at an
    offset beyond the current size clears the hole between the old size
    and the offset: the size becomes offset + length, and any read inside
    the hole delivers zero bytes. *)
Theorem write_past_size_zero_fills (h : heap) ip a nd isz buf pos env w :
  vtfs_data_node h ip = Some a → h !! a = Some nd → buffer_ok nd →
  (0 < length buf)%nat → size nd < pos →
  vtfs_write h ip isz false buf pos env = Some w →
  w_ret w = Z.of_nat (length buf) →
  ∃ nd', w_heap w !! a = Some nd' ∧
    size nd' = pos + Z.of_nat (length buf) ∧
    ∀ o n ua, size nd ≤ o → 0 < n → o + n ≤ pos → (Z.to_nat n ≤ ua)%nat →
      ∃ r, vtfs_read (w_heap w) ip n o ua = Some r ∧
           r_out r = replicate (Z.to_nat n) x00.
Proof.
  intros Hdn Hnd Hok Hlen Hhole Hw Hret.
  destruct (vtfs_write_ok_inv h ip a nd isz false buf pos env w)
    as (Hdir & Hpos & Hend & c1 & Hc1 & Hcap & Hg); try done; [lia|].
  rewrite (vtfs_write_copy h ip a nd isz false buf pos env c1) in Hw;
    try done; [|lia..].
  injection Hw as <-. simpl in *.
  assert (copied env buf ≤ length buf)%nat as Hk
    by (unfold copied; case_decide; lia).
  assert (copied env buf = length buf) as Hcp.
  { destruct (Z.eqb_spec (Z.of_nat (copied env buf)) 0) as [E|E];
      [unfold EFAULT in Hret; lia|].
    pose proof (to_s64_le (Z.of_nat (copied env buf)) ltac:(lia)). lia. }
  rewrite Hcp in *. destruct (proj1 Hok) as [Hsz0 Hsz1].
  set (nd' := set_buffer nd _ _ _).
  exists nd'. split; [apply lookup_insert_eq|]. split; [simpl; lia|].
  intros o n ua Ho Hn Hon Hua. eexists. split.
  - eapply (vtfs_read_run _ ip a nd'); try done.
    + rewrite vtfs_data_node_insert with (nd := nd); done.
    + apply lookup_insert_eq.
    + simpl. lia.
    + rewrite length_take. simpl. lia.
  - simpl. rewrite Z.min_r by lia. apply take_drop_zeros. intros j Hj.
    rewrite lookup_stored_outside by (done || lia).
    rewrite lookup_hole_cleared by (done || lia). case_decide; [done|lia].
Qed.

(** C2.  When the first user copy stops early, the copy is made again and
    its count [k] of bytes brought in is what the bookkeeping follows: the
    block holds these [k] bytes at the offset, the size is
    [max size (pos + k)], the inode size follows it, the file position
    advances by [k], and the call returns [k], or [-EFAULT] exactly when
    [k] is zero. *)
Theorem partial_copy_bookkeeping (h : heap) ip a nd isz (o_append : bool)
    buf ppos env nd1 :
  vtfs_data_node h ip = Some a → h !! a = Some nd → buffer_ok nd →
  is_dir nd = false →
  let pos := if o_append then to_s64 (size nd) else ppos in
  let len := Z.of_nat (length buf) in
  let k := Nat.min (uaccess2 env) (length buf) in
  0 ≤ pos → pos + len ≤ SIZE_MAX →
  grow_buffer nd (pos + len) env = Some (inr nd1) →
  (uaccess1 env < length buf)%nat →
  ∃ w nd' d', vtfs_write h ip isz o_append buf ppos env = Some w ∧
    w_heap w !! a = Some nd' ∧ data nd' = Some d' ∧
    take (length buf) (drop (Z.to_nat pos) d')
      = take k buf ++ replicate (length buf - k) x00 ∧
    size nd' = Z.max (size nd) (pos + Z.of_nat k) ∧
    w_isize w = size nd' ∧
    w_pos w = to_s64 (pos + Z.of_nat k) ∧
    w_ret w = (if decide (k = 0%nat) then - EFAULT else to_s64 (Z.of_nat k)) ∧
    (pos + len ≤ LLONG_MAX →
       w_pos w = pos + Z.of_nat k ∧ (k ≠ 0%nat → w_ret w = Z.of_nat k)).
Proof.
  intros Hdn Hnd Hok Hdir pos len k Hpos Hend Hg Hshort.
  destruct (grow_buffer_inr nd (pos + len) env nd1 Hok ltac:(lia) Hg)
    as (c1 & Hc1 & Hcap & ->). fold (grown nd c1) in Hg.
  assert (copied env buf = k) as Hk
    by (unfold copied; case_decide; [lia|done]).
  pose proof (vtfs_write_copy h ip a nd isz o_append buf ppos env c1
                Hdn Hnd Hok Hdir Hpos ltac:(lia) Hend Hg ltac:(lia) Hcap) as Hw.
  rewrite Hk in Hw. fold pos in Hw.
  eexists _, _, _. split; [exact Hw|]. simpl.
  split; [apply lookup_insert_eq|]. simpl. split; [done|].
  split; [apply stored_readback; (done || lia)|].
  split; [done|]. split; [done|]. split; [done|].
  split.
  - destruct (Z.eqb_spec (Z.of_nat k) 0); case_decide; (done || lia).
  - unfold LLONG_MAX. intros Hll. split.
    + apply to_s64_id. lia.
    + intros Hk0. destruct (Z.eqb_spec (Z.of_nat k) 0); [lia|].
      apply to_s64_id. lia.
Qed.

(** C4.  A write whose end offset [e] exceeds the capacity starts from the
    capacity, or from one page when the capacity is zero, and doubles it
    [k] times, every earlier value being below [e] and safe to double.
    Either the value reached is still below [e] and cannot be doubled
    within [SIZE_MAX]: the write fails with [-EFBIG] and kernel memory is
    as before.  Or it is at least [e]: without memory the write fails with
    [-ENOMEM], and otherwise the node gets this capacity, with a block of
    that many bytes in which every byte beyond the old capacity that the
    written range does not cover is zero. *)
Theorem write_grows_capacity (h : heap) ip a nd isz (o_append : bool) buf ppos env :
  vtfs_data_node h ip = Some a → h !! a = Some nd → buffer_ok nd →
  is_dir nd = false →
  let pos := if o_append then to_s64 (size nd) else ppos in
  let len := Z.of_nat (length buf) in
  let e := pos + len in
  let c0 := if capacity nd =? 0 then PAGE_SIZE else capacity nd in
  0 ≤ pos → 0 < len → e ≤ SIZE_MAX → capacity nd < e →
  ∃ k, 0 ≤ k ∧
    (∀ j, 0 ≤ j < k → c0 * 2 ^ j < e ∧ 2 * (c0 * 2 ^ j) ≤ SIZE_MAX) ∧
    ((c0 * 2 ^ k < e ∧ SIZE_MAX < 2 * (c0 * 2 ^ k) ∧
      vtfs_write h ip isz o_append buf ppos env
      = Some (WriteResult (- EFBIG) h ppos isz)) ∨
     (e ≤ c0 * 2 ^ k ∧ krealloc_ok env = false ∧
      vtfs_write h ip isz o_append buf ppos env
      = Some (WriteResult (- ENOMEM) h ppos isz)) ∨
     (e ≤ c0 * 2 ^ k ∧ krealloc_ok env = true ∧
      ∃ w nd' d', vtfs_write h ip isz o_append buf ppos env = Some w ∧
        w_heap w !! a = Some nd' ∧ capacity nd' = c0 * 2 ^ k ∧
        data nd' = Some d' ∧ Z.of_nat (length d') = c0 * 2 ^ k ∧
        ∀ i : nat, capacity nd ≤ Z.of_nat i < c0 * 2 ^ k →
                   ¬ (pos ≤ Z.of_nat i < e) → d' !! i = Some x00)).
Proof.
  intros Hdn Hnd Hok Hdir pos len e c0 Hpos Hlen He Hcap.
  pose proof (grow_buffer_spec nd e env Hok Hcap) as Hs.
  cbv zeta in Hs. fold c0 in Hs.
  destruct Hs as (k & Hk & Hlow & [(Hlt & Hov & Hg)|(Hge & Hmax & Hc & Hg)]);
    exists k; (split; [done|]); (split; [done|]).
  - left. split; [done|]. split; [done|].
    unfold vtfs_write. rewrite Hdn. simpl. rewrite Hnd. simpl. rewrite Hdir.
    fold pos len e. zbool.
    destruct (Z.ltb_spec pos 0); [lia|]. destruct (Z.eqb_spec len 0); [lia|].
    destruct (Z.ltb_spec SIZE_MAX pos); [lia|].
    destruct (Z.ltb_spec (SIZE_MAX - pos) len); [lia|]. by rewrite Hg.
  - right. destruct (krealloc_ok env) eqn:Hkr.
    + right. split; [done|]. split; [done|].
      assert (copied env buf ≤ length buf)%nat as Hcp
        by (unfold copied; case_decide; lia).
      eexists _, _, _. split.
      { apply (vtfs_write_copy h ip a nd isz o_append buf ppos env (c0 * 2 ^ k));
          (done || lia). }
      simpl. split; [apply lookup_insert_eq|]. simpl. split; [done|].
      split; [done|]. split; [apply length_stored; (done || lia)|].
      intros i Hi Hout. fold pos.
      rewrite lookup_stored_outside by (done || lia).
      rewrite lookup_hole_cleared by (done || lia). case_decide; [done|].
      by apply lookup_grown_fresh.
    + left. split; [done|]. split; [done|].
      unfold vtfs_write. rewrite Hdn. simpl. rewrite Hnd. simpl. rewrite Hdir.
      fold pos len e. zbool.
      destruct (Z.ltb_spec pos 0); [lia|]. destruct (Z.eqb_spec len 0); [lia|].
      destruct (Z.ltb_spec SIZE_MAX pos); [lia|].
      destruct (Z.ltb_spec (SIZE_MAX - pos) len); [lia|]. by rewrite Hg.
Qed.

(** ** Sibling chains: structure *)

Lemma lseg_app (h : heap) p q r l1 l2 :
  lseg h p q l1 → lseg h q r l2 → lseg h p r (l1 ++ l2).
Proof.
  induction 1 as [|a nd q l Ha _ IH]; intros Hr; simpl; [done|].
  econstructor; eauto.
Qed.

Lemma lseg_split (h : heap) p r l1 l2 :
  lseg h p r (l1 ++ l2) → ∃ q, lseg h p q l1 ∧ lseg h q r l2.
Proof.
  revert p. induction l1 as [|a l1 IH]; intros p Hl; simpl in *.
  - exists p. split; [constructor|done].
  - inversion Hl as [|a' nd q l Ha Hrest]; subst.
    destruct (IH _ Hrest) as (q' & H1 & H2).
    exists q'. split; [econstructor; eauto|done].
Qed.

Lemma chain_ind' (h : heap) (P : ptr → list loc → Prop) :
  P None [] →
  (∀ a nd l, h !! a = Some nd → chain h (next_sibling nd) l →
             P (next_sibling nd) l → P (Some a) (a :: l)) →
  ∀ p l, chain h p l → P p l.
Proof.
  intros Hnil Hcons p l Hl. unfold chain in *.
  remember None as q eqn:Hq.
  induction Hl as [p|a nd q l Ha Hl IH]; subst; [done|].
  apply (Hcons a nd l); auto.
Qed.

Lemma chain_det (h : heap) p l l' : chain h p l → chain h p l' → l = l'.
Proof.
  unfold chain. intros Hl. revert l'.
  remember None as q eqn:Hq.
  induction Hl as [p|a nd q l Ha _ IH]; intros l' Hl'; subst.
  - by inversion Hl'.
  - inversion Hl' as [|a' nd' q' l2 Ha' Hrest]; subst.
    rewrite Ha in Ha'. injection Ha' as <-. f_equal. by apply IH.
Qed.

Lemma chain_NoDup (h : heap) p l : chain h p l → NoDup l.
Proof.
  unfold chain. revert p. induction l as [|a l IH]; intros p Hl; [constructor|].
  inversion Hl as [|a' nd q l' Ha Hrest]; subst.
  constructor; [|by eapply IH].
  intros (l1 & l2 & ->)%list_elem_of_split.
  destruct (lseg_split _ _ _ _ _ Hrest) as (q & _ & H2).
  inversion H2 as [|a' nd' q' l' Ha' Hrest']; subst.
  rewrite Ha in Ha'. injection Ha' as <-.
  pose proof (chain_det _ _ _ _ Hrest Hrest') as Heq.
  apply (f_equal length) in Heq. rewrite length_app in Heq. simpl in Heq. lia.
Qed.

Lemma chain_lookup (h : heap) p l a :
  chain h p l → a ∈ l → is_Some (h !! a).
Proof.
  unfold chain. induction 1 as [|b nd q l Hb _ IH]; intros Hin.
  - by apply elem_of_nil in Hin.
  - apply elem_of_cons in Hin as [->|Hin]; [by eexists|by apply IH].
Qed.

(** A chain only depends on the [next_sibling] fields of its nodes. *)
Lemma lseg_ext (h h' : heap) p q l :
  (∀ a, a ∈ l → next_sibling <$> h' !! a = next_sibling <$> h !! a) →
  lseg h p q l → lseg h' p q l.
Proof.
  intros Hext Hl. induction Hl as [|a nd q l Ha _ IH]; [constructor|].
  pose proof (Hext a ltac:(left)) as Hn. rewrite Ha in Hn. simpl in Hn.
  destruct (h' !! a) as [nd'|] eqn:Ha'; [|done]. injection Hn as Hn.
  econstructor; [done|]. rewrite Hn. apply IH.
  intros b Hb. apply Hext. by right.
Qed.

Lemma nodes_at_cons (h : heap) a nd l :
  h !! a = Some nd → nodes_at h (a :: l) = nd :: nodes_at h l.
Proof. intros Ha. unfold nodes_at. simpl. by rewrite Ha. Qed.

Lemma nodes_at_take (h : heap) p l n :
  chain h p l → nodes_at h (take n l) = take n (nodes_at h l).
Proof.
  unfold chain. intros Hl. revert n.
  induction Hl as [|a nd q l Ha _ IH]; intros [|n]; try done.
  rewrite (nodes_at_cons _ _ nd l) by done. rewrite !firstn_cons.
  rewrite (nodes_at_cons _ _ nd) by done. by rewrite IH.
Qed.

Lemma nodes_at_drop (h : heap) p l n :
  chain h p l → nodes_at h (drop n l) = drop n (nodes_at h l).
Proof.
  unfold chain. intros Hl. revert n.
  induction Hl as [|a nd q l Ha _ IH]; intros [|n]; try done.
  rewrite (nodes_at_cons _ _ nd l) by done. rewrite !skipn_cons. apply IH.
Qed.

Lemma length_nodes_at (h : heap) p l :
  chain h p l → length (nodes_at h l) = length l.
Proof.
  unfold chain. induction 1 as [|a nd q l Ha _ IH]; [done|].
  rewrite (nodes_at_cons _ _ nd) by done. simpl. by rewrite IH.
Qed.

(** ** The name scan *)

Lemma find_child_miss fuel (h : heap) p l nm :
  chain h p l → (length l < fuel)%nat →
  nm ∉ name <$> nodes_at h l → find_child fuel h p nm = Some None.
Proof.
  intros Hl. revert fuel.
  induction Hl as [|a nd l Ha _ IH] using chain_ind'; intros fuel Hf Hnm.
  - by destruct fuel.
  - destruct fuel as [|f]; [simpl in Hf; lia|]. simpl. rewrite Ha. simpl.
    rewrite (nodes_at_cons _ _ nd) in Hnm by done.
    rewrite fmap_cons, not_elem_of_cons in Hnm. destruct Hnm as [Hne Hnm].
    destruct (String.eqb_spec (name nd) nm) as [Heq|_]; [done|].
    apply IH; [simpl in Hf; lia|done].
Qed.

Lemma find_child_hit fuel (h : heap) p l nm :
  chain h p l → (length l < fuel)%nat →
  nm ∈ name <$> nodes_at h l →
  ∃ c nd, find_child fuel h p nm = Some (Some c) ∧ c ∈ l ∧
          h !! c = Some nd ∧ name nd = nm.
Proof.
  intros Hl. revert fuel.
  induction Hl as [|a nd l Ha _ IH] using chain_ind'; intros fuel Hf Hnm.
  - by apply elem_of_nil in Hnm.
  - destruct fuel as [|f]; [simpl in Hf; lia|]. simpl. rewrite Ha. simpl.
    rewrite (nodes_at_cons _ _ nd) in Hnm by done.
    rewrite fmap_cons, elem_of_cons in Hnm.
    destruct (String.eqb_spec (name nd) nm) as [Heq|Hne].
    + exists a, nd. split; [done|]. split; [by left|done].
    + destruct Hnm as [Heq|Hnm]; [done|].
      destruct (IH f ltac:(simpl in Hf; lia) Hnm) as (c & cn & Hfc & Hin & Hc).
      exists c, cn. split; [done|]. split; [by right|done].
Qed.

(** ** create and mkdir *)

Lemma mode_dir_twice md :
  let md' := if Z.land md S_IFMT =? 0 then Z.lor md S_IFDIR else md in
  (if Z.land md' S_IFMT =? 0 then Z.lor md' S_IFDIR else md')
  = (if Z.land md S_IFMT =? 0 then Z.lor md S_IFDIR else md).
Proof.
  simpl. destruct (Z.eqb_spec (Z.land md S_IFMT) 0) as [E|E].
  - rewrite Z.land_lor_distr_l, E, Z.lor_0_l.
    by change (Z.land S_IFDIR S_IFMT =? 0) with false.
  - destruct (Z.eqb_spec (Z.land md S_IFMT) 0); congruence.
Qed.

Lemma vtfs_mkdir_ok fuel (h : heap) n pa pn l nm md a :
  h !! pa = Some pn → chain h (first_child pn) l → (length l < fuel)%nat →
  nm ∉ name <$> nodes_at h l → h !! a = None →
  vtfs_mkdir fuel h n (Some pa) nm md (Some a) true
  = Some (0, <[pa := set_first_child pn (Some a)]>
               (<[a := fresh_node nm true md n pa (first_child pn)]> h),
          to_u64 (n + 1)).
Proof.
  intros Hpa Hl Hf Hnm Ha. assert (a ≠ pa) as Hne by congruence.
  unfold vtfs_mkdir. rewrite Hpa. simpl.
  rewrite (find_child_miss fuel h _ l nm) by done. simpl.
  unfold store. heap_simpl.
  unfold fresh_node, set_next_sibling, set_parent, set_ino. simpl.
  by rewrite (mode_dir_twice md).
Qed.

Lemma nodes_at_fmap_ext {A} (f : vtfs_node → A) (h h' : heap) l :
  (∀ b, b ∈ l → f <$> h' !! b = f <$> h !! b) →
  f <$> nodes_at h' l = f <$> nodes_at h l.
Proof.
  induction l as [|b l IH]; intros Hext; [done|].
  pose proof (Hext b ltac:(left)) as Hb.
  specialize (IH (λ c Hc, Hext c ltac:(by right))).
  unfold nodes_at in *. simpl.
  destruct (h' !! b), (h !! b); simplify_eq/=; try done. by f_equal.
Qed.

Lemma filter_eq_not_elem_of (x : string) (l : list string) :
  x ∉ l → filter (λ y, y = x) l = [].
Proof.
  induction l as [|y l IH]; [done|]. rewrite not_elem_of_cons. intros [Hne Hl].
  rewrite filter_cons_False by congruence. by apply IH.
Qed.

(** A new child at the head of a chain: the old children keep their
    places and names. *)
Lemma chain_push (h : heap) pa pn l a nd :
  h !! pa = Some pn → chain h (first_child pn) l → h !! a = None →
  next_sibling nd = first_child pn →
  let h1 := <[pa := set_first_child pn (Some a)]> (<[a := nd]> h) in
  chain h1 (Some a) (a :: l) ∧
  name <$> nodes_at h1 (a :: l) = name nd :: (name <$> nodes_at h l).
Proof.
  intros Hpa Hl Ha Hnext h1. assert (a ≠ pa) as Hne by congruence.
  assert (∀ b, b ∈ l → b ≠ a) as Hfresh.
  { intros b Hb ->. destruct (chain_lookup h _ l a Hl Hb) as [x Hx]. congruence. }
  assert (h1 !! a = Some nd) as Ha1 by (unfold h1; by heap_simpl).
  split.
  - econstructor; [exact Ha1|]. rewrite Hnext.
    apply (lseg_ext h); [|done]. intros b Hb. pose proof (Hfresh b Hb).
    unfold h1. destruct (decide (b = pa)) as [->|]; by heap_simpl.
  - rewrite (nodes_at_cons _ _ nd) by done. rewrite fmap_cons. f_equal.
    apply nodes_at_fmap_ext. intros b Hb. pose proof (Hfresh b Hb).
    unfold h1. destruct (decide (b = pa)) as [->|]; by heap_simpl.
Qed.

(** C5.  When a child of the directory already has the name, [vtfs_mkdir]
    returns [-EEXIST] and changes nothing (neither the memory nor the
    inode counter).  In particular, after a first [mkdir] of "a" in a
    directory without such a child, a second [mkdir] of "a" fails this way
    and the children hold exactly one node named "a". *)
Theorem mkdir_existing_name fuel (h : heap) n pa pn l nm md kz iok :
  h !! pa = Some pn → chain h (first_child pn) l → (length l < fuel)%nat →
  (nm ∈ name <$> nodes_at h l →
   vtfs_mkdir fuel h n (Some pa) nm md kz iok = Some (- EEXIST, h, n)) ∧
  (∀ a md2 kz2 iok2,
     "a"%string ∉ name <$> nodes_at h l → h !! a = None →
     (S (length l) < fuel)%nat →
     ∃ h1 n1 pn1,
       vtfs_mkdir fuel h n (Some pa) "a" md (Some a) true = Some (0, h1, n1) ∧
       vtfs_mkdir fuel h1 n1 (Some pa) "a" md2 kz2 iok2 = Some (- EEXIST, h1, n1) ∧
       h1 !! pa = Some pn1 ∧ chain h1 (first_child pn1) (a :: l) ∧
       length (filter (λ x, x = "a"%string) (name <$> nodes_at h1 (a :: l))) = 1%nat).
Proof.
  intros Hpa Hl Hf.
  assert (∀ fuel (h : heap) n pn l kz iok md,
    h !! pa = Some pn → chain h (first_child pn) l → (length l < fuel)%nat →
    nm ∈ name <$> nodes_at h l →
    vtfs_mkdir fuel h n (Some pa) nm md kz iok = Some (- EEXIST, h, n)) as Hdup.
  { clear. intros fuel h n pn l kz iok md Hpa Hl Hf Hnm.
    destruct (find_child_hit fuel h _ l nm Hl Hf Hnm) as (c & cn & Hfc & _).
    unfold vtfs_mkdir. rewrite Hpa. simpl. by rewrite Hfc. }
  split; [intros Hnm; by eapply Hdup|].
  intros a md2 kz2 iok2 Hnew Ha Hf2.
  pose proof (chain_push h pa pn l a (fresh_node "a" true md n pa (first_child pn))
                Hpa Hl Ha eq_refl) as [Hc Hnames].
  assert (a ≠ pa) as Hne by congruence.
  eexists _, _, _. split; [by apply (vtfs_mkdir_ok fuel h n pa pn l)|].
  assert (name (fresh_node "a" true md n pa (first_child pn)) = "a"%string)
    as Hname by done.
  rewrite Hname in Hnames.
  split; [|split; [by heap_simpl|split; [exact Hc|]]].
  - clear Hdup.
    destruct (find_child_hit fuel _ _ (a :: l) "a" Hc ltac:(simpl; lia))
      as (c & cn & Hfc & _); [rewrite Hnames; by left|].
    unfold vtfs_mkdir. heap_simpl. by rewrite Hfc.
  - rewrite Hnames. rewrite filter_cons_True by done.
    by rewrite filter_eq_not_elem_of.
Qed.

Lemma set_first_child_back nd p :
  set_first_child (set_first_child nd p) (first_child nd) = nd.
Proof. by destruct nd. Qed.

Lemma rollback_heap (h : heap) pa pn a x :
  h !! pa = Some pn → h !! a = None →
  delete a (<[pa := pn]> (<[a := x]> h)) = h.
Proof.
  intros Hpa Ha. assert (a ≠ pa) as Hne by congruence.
  apply map_eq. intros i. destruct (decide (i = a)) as [->|Hia].
  - by rewrite lookup_delete_eq.
  - rewrite lookup_delete_ne by done.
    destruct (decide (i = pa)) as [->|Hip]; by heap_simpl.
Qed.

(** C10.  When the inode cannot be obtained after the new node was put at
    the head of the children, [vtfs_create] and [vtfs_mkdir] return
    [-ENOMEM] and the memory is exactly as before the call: the parent's
    [first_child] is the old one and the new node is freed.  (The inode
    counter has advanced by one.) *)
Theorem inode_failure_rolls_back fuel (h : heap) n pa pn l nm md a :
  h !! pa = Some pn → h !! a = None →
  chain h (first_child pn) l → (length l < fuel)%nat →
  vtfs_create h n (Some pa) nm md (Some a) false
    = Some (- ENOMEM, h, to_u64 (n + 1)) ∧
  (nm ∉ name <$> nodes_at h l →
   vtfs_mkdir fuel h n (Some pa) nm md (Some a) false
     = Some (- ENOMEM, h, to_u64 (n + 1))).
Proof.
  intros Hpa Ha Hl Hf. assert (a ≠ pa) as Hne by congruence. split.
  - unfold vtfs_create, vtfs_alloc_node, store. heap_simpl.
    rewrite set_first_child_back. by rewrite (rollback_heap h pa pn a).
  - intros Hnm. unfold vtfs_mkdir. rewrite Hpa. simpl.
    rewrite (find_child_miss fuel h _ l nm) by done.
    unfold vtfs_alloc_node, store. heap_simpl.
    rewrite set_first_child_back, delete_insert_eq.
    by rewrite (rollback_heap h pa pn a).
Qed.

(** ** unlink *)

Lemma detach_miss fuel (h : heap) pa n prev p l :
  chain h p l → (length l < fuel)%nat → n ∉ l →
  detach fuel h pa n prev p = Some (None, h).
Proof.
  intros Hl. revert fuel prev.
  induction Hl as [|a nd l Ha _ IH] using chain_ind'; intros fuel prev Hf Hn.
  - by destruct fuel.
  - apply not_elem_of_cons in Hn as [Hne Hn].
    destruct fuel as [|f]; [simpl in Hf; lia|]. simpl.
    rewrite decide_False by done. rewrite Ha. simpl.
    apply IH; [simpl in Hf; lia|done].
Qed.

(** The node is met after the nodes of [l1]; the pointer that led to it
    (the [next_sibling] of the node before it, or [first_child] of the
    parent) is redirected, then its own links are cleared. *)
Lemma detach_hit fuel (h : heap) pa n nd prev p l1 l2 :
  chain h p (l1 ++ n :: l2) → (length l1 ≤ fuel)%nat → n ∉ l1 →
  h !! n = Some nd →
  detach fuel h pa n prev p
  = (h ← match default prev (Some <$> last l1) with
         | Some q => store h q (λ x, set_next_sibling x (next_sibling nd))
         | None => store h pa (λ x, set_first_child x (next_sibling nd))
         end;
     h ← store h n (λ x, set_parent x None);
     h ← store h n (λ x, set_next_sibling x None);
     Some (Some n, h)).
Proof.
  revert fuel prev p. induction l1 as [|b l1 IH]; intros fuel prev p Hl Hf Hn Hnd.
  - simpl in Hl. inversion Hl; subst.
    destruct fuel; simpl; rewrite decide_True by done; by rewrite Hnd.
  - apply not_elem_of_cons in Hn as [Hne Hn].
    simpl in Hl. inversion Hl as [|b' bn q l Hb Hrest]; subst.
    destruct fuel as [|f]; [simpl in Hf; lia|]. simpl.
    rewrite decide_False by done. rewrite Hb. simpl.
    rewrite (IH f (Some b) _ Hrest) by (done || simpl in Hf; lia).
    rewrite last_cons. by destruct (last l1).
Qed.

Lemma lseg_nil_inv (h : heap) p q : lseg h p q [] → p = q.
Proof. by inversion 1. Qed.

Lemma dom_insert2 (h : heap) a b x y x' y' :
  h !! a = Some x → h !! b = Some y → dom (<[a := x']> (<[b := y']> h)) = dom h.
Proof.
  intros Ha Hb. rewrite dom_insert_lookup_L.
  - apply dom_insert_lookup_L. by eexists.
  - destruct (decide (a = b)) as [->|]; heap_simpl; by eexists.
Qed.

(** C6.  [vtfs_unlink] returns [-EISDIR] for a directory node.  For a
    file node it looks for the node itself among the children of the
    parent: when the node is not there it returns [-ENOENT]; when it is,
    the children are the former ones without this node, in the same
    order, the node has no parent and no sibling any more, and it is still
    allocated, as is every other node.  Nothing changes in the two error
    cases. *)
Theorem unlink_detaches fuel (h : heap) pa pn n nd l :
  h !! pa = Some pn → is_dir pn = true → h !! n = Some nd →
  chain h (first_child pn) l → (length l < fuel)%nat →
  (is_dir nd = true →
   vtfs_unlink fuel h (Some pa) (Some n) = Some (- EISDIR, h)) ∧
  (is_dir nd = false → n ∉ l →
   vtfs_unlink fuel h (Some pa) (Some n) = Some (- ENOENT, h)) ∧
  (is_dir nd = false → n ∈ l →
   ∃ h' pn' l1 l2,
     vtfs_unlink fuel h (Some pa) (Some n) = Some (0, h') ∧
     l = l1 ++ n :: l2 ∧
     h' !! pa = Some pn' ∧ chain h' (first_child pn') (l1 ++ l2) ∧
     h' !! n = Some (set_next_sibling (set_parent nd None) None) ∧
     dom h' = dom h).
Proof.
  intros Hpa Hpdir Hn Hl Hf. split; [|split].
  - intros Hdir. unfold vtfs_unlink. rewrite Hn. simpl. by rewrite Hdir.
  - intros Hdir Hnl. unfold vtfs_unlink. rewrite Hn. simpl. rewrite Hdir, Hpa.
    simpl. by rewrite (detach_miss fuel h pa n None _ l).
  - intros Hdir Hin. assert (n ≠ pa) as Hne by (intros ->; congruence).
    pose proof (chain_NoDup _ _ _ Hl) as Hnd.
    apply list_elem_of_split in Hin as (l1 & l2 & ->).
    apply NoDup_app in Hnd as (Hnd1 & Hn1 & Hnd2).
    apply NoDup_cons in Hnd2 as [Hn2 Hnd2].
    assert (n ∉ l1) as Hnl1 by (intros Hx; apply (Hn1 n Hx); by left).
    destruct (lseg_split _ _ _ _ _ Hl) as (q & Hseg1 & Hseg2).
    inversion Hseg2 as [|n' nd' q' l' Hn' Hrest]; subst.
    rewrite Hn in Hn'. injection Hn' as <-.
    unfold vtfs_unlink. rewrite Hn. simpl. rewrite Hdir, Hpa. simpl.
    rewrite (detach_hit fuel h pa n nd None _ l1 l2 Hl)
      by (done || rewrite length_app in Hf; lia).
    destruct (last l1) as [q|] eqn:Hlast; simpl.
    + (* the node before [n] is redirected *)
      apply last_Some in Hlast as (l1' & ->).
      assert (q ≠ n) as Hqn by (intros ->; apply Hnl1; set_solver).
      apply lseg_split in Hseg1 as (r & Hseg1 & Hq).
      inversion Hq as [|q' qn r' l' Hq' Hnil]; subst.
      apply lseg_nil_inv in Hnil as Hqnext.
      apply NoDup_app in Hnd1 as (Hnd1 & Hq1 & _).
      assert (q ∉ l1') as Hql1 by (intros Hx; apply (Hq1 q Hx); by left).
      assert (q ∉ l2) as Hql2.
      { intros Hx. apply (Hn1 q); [set_solver|by right]. }
      unfold store. heap_simpl.
      destruct (decide (pa = q)) as [->|Hpq].
      * eexists _, _, (l1' ++ [q]), l2. split; [done|]. split; [done|].
        split; [by heap_simpl|]. simpl.
        split; [|split; [by heap_simpl|]].
        -- rewrite Hpa in Hq'. injection Hq' as <-. simpl.
           rewrite <- (assoc_L (++)). apply (lseg_app _ _ (Some q)).
           ++ apply (lseg_ext h); [|done]. intros b Hb.
              assert (b ≠ q) by (intros ->; done).
              assert (b ≠ n) by (intros ->; apply Hnl1; set_solver).
              by heap_simpl.
           ++ econstructor; [by heap_simpl|]. simpl.
              apply (lseg_ext h); [|done]. intros b Hb.
              assert (b ≠ q) by (intros ->; done).
              assert (b ≠ n) by (intros ->; done).
              by heap_simpl.
        -- by apply (dom_insert2 h n q nd pn).
      * eexists _, _, (l1' ++ [q]), l2. split; [done|]. split; [done|].
        split; [by heap_simpl|].
        split; [|split; [by heap_simpl|]].
        -- rewrite <- (assoc_L (++)). apply (lseg_app _ _ (Some q)).
           ++ apply (lseg_ext h); [|done]. intros b Hb.
              assert (b ≠ q) by (intros ->; done).
              assert (b ≠ n) by (intros ->; apply Hnl1; set_solver).
              by heap_simpl.
           ++ econstructor; [by heap_simpl|]. simpl.
              apply (lseg_ext h); [|done]. intros b Hb.
              assert (b ≠ q) by (intros ->; done).
              assert (b ≠ n) by (intros ->; done).
              by heap_simpl.
        -- by apply (dom_insert2 h n q nd qn).
    + (* [n] is the first child: the parent is redirected *)
      apply last_None in Hlast as ->. simpl in *.
      apply lseg_nil_inv in Hseg1 as Hfirst.
      unfold store. heap_simpl.
      eexists _, _, [], l2. split; [done|]. split; [done|].
      split; [by heap_simpl|]. simpl.
      split; [|split; [by heap_simpl|]].
      * apply (lseg_ext h); [|done]. intros b Hb.
        assert (b ≠ n) by (intros ->; done).
        destruct (decide (b = pa)) as [->|]; by heap_simpl.
      * by apply (dom_insert2 h n pa nd pn).
Qed.

(** ** The directory cursor *)

Lemma skip_children_spec (h : heap) p l k :
  chain h p l → ∃ q, skip_children h p k = Some q ∧ chain h q (drop k l).
Proof.
  intros Hl. revert k.
  induction Hl as [|a nd l Ha Hl IH] using chain_ind'; intros k.
  - exists None. split; [by destruct k|]. rewrite drop_nil. constructor.
  - destruct k as [|k]; simpl.
    + exists (Some a). split; [done|]. by econstructor.
    + rewrite Ha. simpl. apply IH.
Qed.

Lemma emit_children_spec r (h : heap) p l pos :
  chain h p l → 0 ≤ pos → pos + Z.of_nat (length l) ≤ LLONG_MAX →
  emit_children r h p pos
  = Some (dirent_of <$> nodes_at h (take r l),
          pos + Z.of_nat (Nat.min r (length l))).
Proof.
  intros Hl. revert r pos.
  induction Hl as [|a nd l Ha Hl IH] using chain_ind'; intros r pos Hpos Hmax.
  - rewrite take_nil, Nat.min_0_r, Z.add_0_r. by destruct r.
  - destruct r as [|r]; simpl; rewrite Ha; simpl.
    + by rewrite Z.add_0_r.
    + unfold LLONG_MAX in Hmax. simpl length in Hmax.
      rewrite to_s64_id by lia.
      rewrite IH by (unfold LLONG_MAX; lia). simpl.
      f_equal. f_equal. lia.
Qed.

Lemma S_ISDIR_negb m : S_ISDIR m = true → negb (S_ISDIR m) = false.
Proof. by intros ->. Qed.

(** The listing of a directory: the two dot entries, then the children in
    chain order.  Position [n] of the cursor is index [n] of this list. *)
Lemma vtfs_iterate_at (h : heap) m dn dnode l si pi (c : nat) r :
  S_ISDIR m = true → h !! dn = Some dnode → chain h (first_child dnode) l →
  Z.of_nat (length l) < 2 ^ 32 → (c ≤ 2 + length l)%nat →
  let listing := Dirent "." si DT_DIR :: Dirent ".." pi DT_DIR
                   :: (dirent_of <$> nodes_at h l) in
  vtfs_iterate h m (Some dn) (Z.of_nat c) r si pi
  = Some (0, take r (drop c listing),
          Z.of_nat c + Z.of_nat (length (take r (drop c listing)))).
Proof.
  intros Hm Hdn Hl Hlen Hc listing.
  assert (∀ k r, (k ≤ length l)%nat →
    (skip_children h (first_child dnode) k ≫= λ child,
       emit_children r h child (2 + Z.of_nat k))
    = Some (take r (drop k (dirent_of <$> nodes_at h l)),
            2 + Z.of_nat k
              + Z.of_nat (length (take r (drop k (dirent_of <$> nodes_at h l))))))
    as Hkids.
  { intros k r' Hk.
    destruct (skip_children_spec h _ l k Hl) as (q & -> & Hq). simpl.
    rewrite (emit_children_spec r' h q (drop k l)); try done; try lia.
    - rewrite (nodes_at_take h q (drop k l)) by done.
      rewrite (nodes_at_drop h (first_child dnode) l) by done.
      rewrite fmap_take, fmap_drop.
      rewrite length_take, !length_drop, length_fmap.
      by rewrite (length_nodes_at h (first_child dnode) l).
    - rewrite length_drop. unfold LLONG_MAX. lia. }
  unfold vtfs_iterate. rewrite (S_ISDIR_negb m Hm).
  destruct c as [|[|k]].
  - (* position 0: the dot entries come first *)
    destruct r as [|[|r]]; [by cbn..|].
    change (dir_emit_dots (S (S r)) (Z.of_nat 0) si pi)
      with (true, [Dirent "." si DT_DIR; Dirent ".." pi DT_DIR], 2, r).
    cbn -[skip_children emit_children]. rewrite Hdn.
    cbn -[skip_children emit_children].
    pose proof (Hkids 0%nat r ltac:(lia)) as Hk.
    change (2 + Z.of_nat 0) with 2 in Hk.
    change (Z.to_nat (to_uint (2 - 2))) with 0%nat.
    destruct (skip_children h (first_child dnode) 0) as [child|];
      cbn -[emit_children] in Hk |- *; [|done].
    rewrite Hk. cbn. do 2 f_equal. rewrite drop_0. lia.
  - (* position 1 *)
    destruct r as [|r]; [by cbn|].
    change (dir_emit_dots (S r) (Z.of_nat 1) si pi)
      with (true, [Dirent ".." pi DT_DIR], 2, r).
    cbn -[skip_children emit_children]. rewrite Hdn.
    cbn -[skip_children emit_children].
    pose proof (Hkids 0%nat r ltac:(lia)) as Hk.
    change (2 + Z.of_nat 0) with 2 in Hk.
    change (Z.to_nat (to_uint (2 - 2))) with 0%nat.
    destruct (skip_children h (first_child dnode) 0) as [child|];
      cbn -[emit_children] in Hk |- *; [|done].
    rewrite Hk. cbn. do 2 f_equal. rewrite drop_0. lia.
  - (* a position among the children *)
    assert (dir_emit_dots r (Z.of_nat (S (S k))) si pi
            = (true, [], Z.of_nat (S (S k)), r)) as ->.
    { assert (2 ≤ Z.of_nat (S (S k))) as Hz by lia.
      revert Hz. generalize (Z.of_nat (S (S k))). intros z Hz.
      unfold dir_emit_dots.
      destruct (Z.eqb_spec z 0); [lia|]. cbn.
      destruct (Z.eqb_spec z 1); [lia|]. done. }
    cbn -[skip_children emit_children Z.to_nat to_uint Z.of_nat]. rewrite Hdn.
    cbn -[skip_children emit_children Z.to_nat to_uint Z.of_nat].
    replace (Z.to_nat (to_uint (Z.of_nat (S (S k)) - 2))) with k
      by (unfold to_uint; rewrite Z.mod_small; lia).
    pose proof (Hkids k r ltac:(lia)) as Hk.
    replace (2 + Z.of_nat k) with (Z.of_nat (S (S k))) in Hk by lia.
    destruct (skip_children h (first_child dnode) k) as [child|];
      cbn -[emit_children Z.of_nat] in Hk |- *; [|done].
    rewrite Hk. done.
Qed.

(** X22.  Let the listing of a directory with fewer than [2 ^ 32] children
    be the two dot entries followed by the children in chain order.  A
    call from cursor [c] that the reader stops after [r1] entries leaves
    the cursor at [c] plus the number of entries emitted; a second call
    from that cursor, the directory being unchanged, emits the entries
    that follow, and both calls together emit what a single call with room
    for [r1 + r2] entries emits: the entries of the listing from index
    [c] on, in order, none twice and none left out. *)
Theorem iterate_resumes (h : heap) m dn dnode l si pi (c r1 r2 : nat) :
  S_ISDIR m = true → h !! dn = Some dnode → chain h (first_child dnode) l →
  Z.of_nat (length l) < 2 ^ 32 → (c ≤ 2 + length l)%nat →
  let listing := Dirent "." si DT_DIR :: Dirent ".." pi DT_DIR
                   :: (dirent_of <$> nodes_at h l) in
  ∃ out1 c1 out2 c2,
    vtfs_iterate h m (Some dn) (Z.of_nat c) r1 si pi = Some (0, out1, c1) ∧
    c1 = Z.of_nat c + Z.of_nat (length out1) ∧
    vtfs_iterate h m (Some dn) c1 r2 si pi = Some (0, out2, c2) ∧
    c2 = c1 + Z.of_nat (length out2) ∧
    out1 ++ out2 = take (r1 + r2) (drop c listing) ∧
    vtfs_iterate h m (Some dn) (Z.of_nat c) (r1 + r2) si pi
      = Some (0, out1 ++ out2, c2).
Proof.
  intros Hm Hdn Hl Hlen Hc listing.
  set (out1 := take r1 (drop c listing)).
  set (c1 := (c + length out1)%nat).
  assert (length listing = 2 + length l)%nat as Hll.
  { unfold listing. simpl. rewrite length_fmap.
    by rewrite (length_nodes_at h (first_child dnode) l). }
  assert (c1 ≤ 2 + length l)%nat as Hc1.
  { unfold c1, out1. rewrite length_take, length_drop. lia. }
  assert (out1 ++ take r2 (drop c1 listing) = take (r1 + r2) (drop c listing))
    as Hcat.
  { unfold c1, out1. rewrite <- drop_drop.
    destruct (decide (r1 ≤ length (drop c listing))%nat) as [Hle|Hgt].
    - rewrite length_take, Nat.min_l by done. apply take_take_drop.
    - rewrite (take_ge (drop c listing) r1) by lia.
      rewrite (take_ge (drop c listing) (r1 + r2)) by lia.
      rewrite drop_all, take_nil. apply app_nil_r. }
  exists out1, (Z.of_nat c1), (take r2 (drop c1 listing)),
         (Z.of_nat c1 + Z.of_nat (length (take r2 (drop c1 listing)))).
  split; [|split; [|split; [|split; [|split]]]].
  - rewrite (vtfs_iterate_at h m dn dnode l) by done. fold listing out1.
    do 3 f_equal. unfold c1. lia.
  - unfold c1. lia.
  - by rewrite (vtfs_iterate_at h m dn dnode l) by done.
  - done.
  - done.
  - rewrite (vtfs_iterate_at h m dn dnode l) by done. fold listing.
    rewrite <- Hcat. do 2 f_equal. rewrite length_app. unfold c1. lia.
Qed.

(** ** Hard links *)

(** C8.  [vtfs_link] gives the new node the data node of the existing one
    as its link target: the existing node itself when it owns its data,
    and otherwise the owner it points to, which is never an alias.  So no
    alias points to an alias afterwards either, both names resolve to the
    same data node, a write through one of them is the same write through
    the other, and the bytes written in full through one are what a read
    through the other delivers. *)
Theorem link_shares_buffer (h : heap) m o on pa pn nm a d dn :
  no_alias_chain h → h !! o = Some on → h !! pa = Some pn → h !! a = None →
  S_ISDIR m = false →
  vtfs_data_node h (Some o) = Some d → h !! d = Some dn → buffer_ok dn →
  ∃ h' new dn',
    vtfs_link h m (Some o) (Some pa) nm (Some a) = Some (0, h') ∧
    h' !! a = Some new ∧ link_target new = Some d ∧
    h' !! d = Some dn' ∧ link_target dn' = None ∧
    no_alias_chain h' ∧
    vtfs_data_node h' (Some a) = Some d ∧
    vtfs_data_node h' (Some o) = Some d ∧
    (∀ isz (o_append : bool) buf ppos env,
       vtfs_write h' (Some a) isz o_append buf ppos env
       = vtfs_write h' (Some o) isz o_append buf ppos env) ∧
    (∀ isz buf pos env w ua,
       vtfs_write h' (Some o) isz false buf pos env = Some w →
       w_ret w = Z.of_nat (length buf) → (length buf ≤ ua)%nat →
       ∃ r, vtfs_read (w_heap w) (Some a) (Z.of_nat (length buf)) pos ua = Some r ∧
            r_ret r = Z.of_nat (length buf) ∧ r_out r = buf) ∧
    (∀ isz buf pos env w ua,
       vtfs_write h' (Some a) isz false buf pos env = Some w →
       w_ret w = Z.of_nat (length buf) → (length buf ≤ ua)%nat →
       ∃ r, vtfs_read (w_heap w) (Some o) (Z.of_nat (length buf)) pos ua = Some r ∧
            r_ret r = Z.of_nat (length buf) ∧ r_out r = buf).
Proof.
  intros Hinv Ho Hpa Ha Hm Hd Hdn Hok.
  assert (a ≠ pa) as Hapa by congruence.
  assert (a ≠ o) as Hao by congruence.
  assert (a ≠ d) as Had by congruence.
  assert (link_target dn = None) as Hown.
  { simpl in Hd. rewrite Ho in Hd. simpl in Hd.
    destruct (link_target on) as [t|] eqn:Ht.
    - injection Hd as ->. destruct (Hinv o on d Ho Ht) as (tn & Htn & Hnone).
      congruence.
    - injection Hd as ->. congruence. }
  set (new := mk_node (strscpy nm VTFS_FILE_NAME_LEN) (ino on) false (mode on)
                (Some pa) None (first_child pn) (Some d) None 0 0).
  set (h' := <[pa := set_first_child pn (Some a)]> (<[a := new]> h)).
  assert (vtfs_link h m (Some o) (Some pa) nm (Some a) = Some (0, h')) as Hlink.
  { unfold vtfs_link. rewrite Hm, Ho. simpl. unfold store. heap_simpl.
    unfold h', new. simpl in Hd. rewrite Ho in Hd. simpl in Hd.
    injection Hd as <-. done. }
  assert (∀ b nb, h !! b = Some nb →
            ∃ nb', h' !! b = Some nb' ∧ link_target nb' = link_target nb ∧
                   (buffer_ok nb → buffer_ok nb')) as Hkeep.
  { intros b nb Hb. assert (b ≠ a) by congruence. unfold h'.
    destruct (decide (b = pa)) as [->|].
    - exists (set_first_child pn (Some a)). heap_simpl.
      rewrite Hpa in Hb. injection Hb as <-. done.
    - exists nb. by heap_simpl. }
  assert (h' !! a = Some new) as Ha' by (unfold h'; by heap_simpl).
  destruct (Hkeep d dn Hdn) as (dn' & Hdn' & Hlt' & Hok').
  destruct (Hkeep o on Ho) as (on' & Hon' & Hlto & _).
  assert (vtfs_data_node h' (Some a) = Some d) as Hda
    by (simpl; by rewrite Ha').
  assert (vtfs_data_node h' (Some o) = Some d) as Hdo.
  { simpl. rewrite Hon'. simpl. rewrite Hlto.
    simpl in Hd. by rewrite Ho in Hd. }
  exists h', new, dn'.
  split; [done|]. split; [done|]. split; [done|]. split; [done|].
  split; [congruence|]. split; [|split; [done|split; [done|split; [|split]]]].
  - intros b nb t Hb Ht. destruct (decide (b = a)) as [->|Hba].
    + rewrite Ha' in Hb. injection Hb as <-. simpl in Ht. injection Ht as <-.
      exists dn'. split; [done|congruence].
    + assert (∃ nb0, h !! b = Some nb0 ∧ link_target nb0 = Some t)
        as (nb0 & Hb0 & Ht0).
      { unfold h' in Hb. destruct (decide (b = pa)) as [->|].
        - rewrite lookup_insert_eq in Hb. injection Hb as <-. by exists pn.
        - rewrite !lookup_insert_ne in Hb by done. by exists nb. }
      destruct (Hinv b nb0 t Hb0 Ht0) as (tn & Htn & Hnone).
      destruct (Hkeep t tn Htn) as (tn' & Htn' & Hlt & _).
      exists tn'. split; [done|congruence].
  - intros isz o_append buf ppos env. unfold vtfs_write. by rewrite Hda, Hdo.
  - intros isz buf pos env w ua Hw Hret Hua.
    by apply (write_then_read h' (Some o) (Some a) d dn' isz buf pos env w ua);
      auto.
  - intros isz buf pos env w ua Hw Hret Hua.
    by apply (write_then_read h' (Some a) (Some o) d dn' isz buf pos env w ua);
      auto.
Qed.

(** ** Names *)

Lemma length_str_prefix room nm :
  String.length (str_prefix room nm) = Nat.min room (String.length nm).
Proof.
  revert nm. induction room as [|r IH]; intros [|c nm]; simpl; try done.
  by rewrite IH.
Qed.

Lemma strscpy_short nm :
  (String.length nm < 255)%nat → strscpy nm VTFS_FILE_NAME_LEN = nm.
Proof.
  unfold strscpy, VTFS_FILE_NAME_LEN. change (Z.to_nat (255 - 1)) with 254%nat.
  generalize 254%nat. intros n. revert n.
  induction nm as [|c nm IH]; intros [|n] Hn; simpl in *; try done; try lia.
  f_equal. apply IH. lia.
Qed.

(** C9, at a name of 255 bytes.  The name field has room for 254
    characters and the terminator: [vtfs_alloc_node] keeps a name of fewer
    than 255 bytes whole and cuts any other to its first 254 bytes.  So
    [vtfs_create] with a 255-byte name stores 254 of them; looking the
    same 255-byte name up again finds no child, and only the shortened
    name does. *)
Theorem name_of_255_bytes_is_cut :
  (∀ nm, (String.length nm < 255)%nat → strscpy nm VTFS_FILE_NAME_LEN = nm) ∧
  (∀ nm, String.length (strscpy nm VTFS_FILE_NAME_LEN)
         = Nat.min 254 (String.length nm)) ∧
  String.length (long_name 255) = 255%nat ∧
  ∃ h' nd,
    vtfs_create small_fs 4 (Some 1%positive) (long_name 255) 0 (Some 4%positive) true
      = Some (0, h', 5) ∧
    h' !! 4%positive = Some nd ∧
    name nd = long_name 254 ∧
    vtfs_lookup 8 h' (Some 1%positive) (long_name 255) true = Some (0, None) ∧
    vtfs_lookup 8 h' (Some 1%positive) (long_name 254) true
      = Some (0, Some 4%positive).
Proof.
  split; [exact strscpy_short|].
  split; [intros nm; apply length_str_prefix|].
  split; [reflexivity|].
  eexists _, _. split; [reflexivity|]. split; [reflexivity|].
  split; [reflexivity|]. split; reflexivity.
Qed.

(** ** The theorems at work on the small file system *)

Lemma small_fs_children : chain small_fs (first_child root_dir) [2%positive; 3%positive].
Proof.
  unfold chain. simpl.
  apply (lseg_cons _ _ file_f); [reflexivity|].
  apply (lseg_cons _ _ file_g); [reflexivity|].
  apply lseg_nil.
Defined.

Lemma buffer_ok_file_f : buffer_ok file_f.
Proof. unfold buffer_ok, SIZE_MAX. simpl. lia. Defined.

Lemma buffer_ok_file_g : buffer_ok file_g.
Proof. unfold buffer_ok, SIZE_MAX. simpl. lia. Defined.

(** Three bytes written at offset 5 of the empty file "f" and read back. *)
Lemma write_read_roundtrip_witness :
  ∃ w r,
    vtfs_write small_fs (Some 2%positive) 0 false [x0a; x0b; x0c] 5 kind_env = Some w ∧
    w_ret w = 3 ∧
    vtfs_read (w_heap w) (Some 2%positive) 3 5 3 = Some r ∧
    r_ret r = 3 ∧ r_out r = [x0a; x0b; x0c].
Proof.
  destruct (write_read_roundtrip small_fs (Some 2%positive) 2%positive file_f 0
              [x0a; x0b; x0c] 5 kind_env 3%nat
              eq_refl eq_refl buffer_ok_file_f eq_refl
              ltac:(unfold SIZE_MAX; simpl; lia) ltac:(simpl; lia))
    as [Hback Hfull].
  destruct (Hfull ltac:(lia) ltac:(unfold LLONG_MAX; simpl; lia)
              ltac:(intros _; reflexivity) ltac:(simpl; lia))
    as (w & Hw & Hret).
  destruct (Hback w Hw Hret) as (r & Hr & Hrr & Hout).
  exists w, r. split; [exact Hw|]. split; [exact Hret|]. split; [exact Hr|].
  split; [exact Hrr|exact Hout].
Defined.

(** Three bytes for "g" at offset 4, of which only two can be read from
    the user buffer: the call returns 2, and size and position are 6. *)
Lemma partial_copy_bookkeeping_witness :
  ∃ w nd' d',
    vtfs_write small_fs (Some 3%positive) 4 false [x0a; x0b; x0c] 4 faulting_env
      = Some w ∧
    w_heap w !! 3%positive = Some nd' ∧ data nd' = Some d' ∧
    take 3 (drop 4 d') = [x0a; x0b; x00] ∧
    size nd' = 6 ∧ w_isize w = 6 ∧ w_pos w = 6 ∧ w_ret w = 2.
Proof.
  destruct (partial_copy_bookkeeping small_fs (Some 3%positive) 3%positive file_g 4
              false [x0a; x0b; x0c] 4 faulting_env file_g
              eq_refl eq_refl buffer_ok_file_g eq_refl
              ltac:(simpl; lia) ltac:(unfold SIZE_MAX; simpl; lia) eq_refl
              ltac:(simpl; lia))
    as (w & nd' & d' & Hw & Hnd' & Hd' & Hbytes & Hsz & Hisz & Hpos & Hret & _).
  exists w, nd', d'.
  split; [exact Hw|]. split; [exact Hnd'|]. split; [exact Hd'|].
  split; [exact Hbytes|]. split; [exact Hsz|].
  split; [rewrite Hisz; exact Hsz|]. split; [exact Hpos|exact Hret].
Defined.

(** One byte for "g" at offset 6, two bytes past its end. *)
Lemma write_past_size_zero_fills_witness :
  ∃ w nd',
    vtfs_write small_fs (Some 3%positive) 4 false [x0a] 6 kind_env = Some w ∧
    w_heap w !! 3%positive = Some nd' ∧ size nd' = 7 ∧
    ∃ r, vtfs_read (w_heap w) (Some 3%positive) 2 4 2 = Some r ∧
         r_out r = [x00; x00].
Proof.
  eexists.
  assert (vtfs_write small_fs (Some 3%positive) 4 false [x0a] 6 kind_env = Some _)
    as Hw by reflexivity.
  destruct (write_past_size_zero_fills small_fs (Some 3%positive) 3%positive file_g 4
              [x0a] 6 kind_env _
              eq_refl eq_refl buffer_ok_file_g ltac:(simpl; lia) ltac:(simpl; lia)
              Hw eq_refl)
    as (nd' & Hnd' & Hsz & Hread).
  exists nd'. split; [exact Hw|]. split; [exact Hnd'|]. split; [exact Hsz|].
  exact (Hread 4 2 2%nat ltac:(simpl; lia) ltac:(lia) ltac:(lia) ltac:(simpl; lia)).
Defined.

(** C3 as stated fails for an empty byte sequence: the call returns 0 at
    once, the size of "g" stays 4 instead of becoming 6 + 0, and a read
    of the hole delivers nothing. *)
Lemma write_past_size_empty_counterexample :
  size file_g < 6 ∧
  vtfs_write small_fs (Some 3%positive) 4 false [] 6 kind_env
    = Some (WriteResult 0 small_fs 6 4) ∧
  small_fs !! 3%positive = Some file_g ∧ size file_g ≠ 6 + 0 ∧
  vtfs_read small_fs (Some 3%positive) 2 4 2 = Some (ReadResult 0 [] 4).
Proof.
  split; [reflexivity|]. split; [reflexivity|]. split; [reflexivity|].
  split; [discriminate|reflexivity].
Qed.

(** Three bytes for the empty "f" at offset 5000: one page is not enough,
    two are. *)
Lemma write_grows_capacity_witness :
  ∃ k, 0 ≤ k ∧
    (∀ j, 0 ≤ j < k → 4096 * 2 ^ j < 5003 ∧ 2 * (4096 * 2 ^ j) ≤ SIZE_MAX) ∧
    ((4096 * 2 ^ k < 5003 ∧ SIZE_MAX < 2 * (4096 * 2 ^ k) ∧
      vtfs_write small_fs (Some 2%positive) 0 false [x0a; x0b; x0c] 5000 kind_env
      = Some (WriteResult (- EFBIG) small_fs 5000 0)) ∨
     (5003 ≤ 4096 * 2 ^ k ∧ krealloc_ok kind_env = false ∧
      vtfs_write small_fs (Some 2%positive) 0 false [x0a; x0b; x0c] 5000 kind_env
      = Some (WriteResult (- ENOMEM) small_fs 5000 0)) ∨
     (5003 ≤ 4096 * 2 ^ k ∧ krealloc_ok kind_env = true ∧
      ∃ w nd' d',
        vtfs_write small_fs (Some 2%positive) 0 false [x0a; x0b; x0c] 5000 kind_env
          = Some w ∧
        w_heap w !! 2%positive = Some nd' ∧ capacity nd' = 4096 * 2 ^ k ∧
        data nd' = Some d' ∧ Z.of_nat (length d') = 4096 * 2 ^ k ∧
        ∀ i : nat, 0 ≤ Z.of_nat i < 4096 * 2 ^ k →
                   ¬ (5000 ≤ Z.of_nat i < 5003) → d' !! i = Some x00)).
Proof.
  exact (write_grows_capacity small_fs (Some 2%positive) 2%positive file_f 0 false
           [x0a; x0b; x0c] 5000 kind_env
           eq_refl eq_refl buffer_ok_file_f eq_refl
           ltac:(simpl; lia) ltac:(simpl; lia)
           ltac:(unfold SIZE_MAX; simpl; lia) ltac:(simpl; lia)).
Defined.

Lemma small_fs_names : name <$> nodes_at small_fs [2%positive; 3%positive] = ["f"; "g"]%string.
Proof. reflexivity. Defined.

(** A second "f" in the root, and "a" twice. *)
Lemma mkdir_existing_name_witness :
  vtfs_mkdir 8 small_fs 4 (Some 1%positive) "f" 0 (Some 4%positive) true
    = Some (- EEXIST, small_fs, 4) ∧
  ∃ h1 n1 pn1,
    vtfs_mkdir 8 small_fs 4 (Some 1%positive) "a" 0 (Some 4%positive) true
      = Some (0, h1, n1) ∧
    vtfs_mkdir 8 h1 n1 (Some 1%positive) "a" 0 (Some 5%positive) true
      = Some (- EEXIST, h1, n1) ∧
    h1 !! 1%positive = Some pn1 ∧
    chain h1 (first_child pn1) [4%positive; 2%positive; 3%positive] ∧
    length (filter (λ x, x = "a"%string)
              (name <$> nodes_at h1 [4%positive; 2%positive; 3%positive])) = 1%nat.
Proof.
  split.
  - apply (proj1 (mkdir_existing_name 8 small_fs 4 1%positive root_dir
                    [2%positive; 3%positive] "f" 0 (Some 4%positive) true
                    eq_refl small_fs_children ltac:(simpl; lia))).
    rewrite small_fs_names. apply list_elem_of_here.
  - apply (proj2 (mkdir_existing_name 8 small_fs 4 1%positive root_dir
                    [2%positive; 3%positive] "a" 0 (Some 4%positive) true
                    eq_refl small_fs_children ltac:(simpl; lia))
             4%positive 0 (Some 5%positive) true).
    + rewrite small_fs_names. intros Hin.
      apply elem_of_cons in Hin as [Hin|Hin]; [discriminate|].
      apply elem_of_cons in Hin as [Hin|Hin]; [discriminate|].
      by apply elem_of_nil in Hin.
    + reflexivity.
    + simpl. lia.
Defined.

(** Unlinking "g" from the root. *)
Lemma unlink_detaches_witness :
  ∃ h' pn' l1 l2,
    vtfs_unlink 8 small_fs (Some 1%positive) (Some 3%positive) = Some (0, h') ∧
    [2%positive; 3%positive] = l1 ++ 3%positive :: l2 ∧
    h' !! 1%positive = Some pn' ∧ chain h' (first_child pn') (l1 ++ l2) ∧
    h' !! 3%positive = Some (set_next_sibling (set_parent file_g None) None) ∧
    dom h' = dom small_fs.
Proof.
  apply (proj2 (proj2 (unlink_detaches 8 small_fs 1%positive root_dir 3%positive
                         file_g [2%positive; 3%positive]
                         eq_refl eq_refl eq_refl small_fs_children
                         ltac:(simpl; lia)))).
  - reflexivity.
  - apply list_elem_of_further, list_elem_of_here.
Defined.

(** Listing the root with a reader that stops after three entries and
    comes back for five more. *)
Lemma iterate_resumes_witness :
  ∃ out1 c1 out2 c2,
    vtfs_iterate small_fs S_IFDIR (Some 1%positive) 0 3 1 1 = Some (0, out1, c1) ∧
    c1 = 0 + Z.of_nat (length out1) ∧
    vtfs_iterate small_fs S_IFDIR (Some 1%positive) c1 5 1 1 = Some (0, out2, c2) ∧
    c2 = c1 + Z.of_nat (length out2) ∧
    out1 ++ out2
      = take (3 + 5) (drop 0 (Dirent "." 1 DT_DIR :: Dirent ".." 1 DT_DIR
                                :: (dirent_of <$> nodes_at small_fs
                                                    [2%positive; 3%positive]))) ∧
    vtfs_iterate small_fs S_IFDIR (Some 1%positive) 0 (3 + 5) 1 1
      = Some (0, out1 ++ out2, c2).
Proof.
  exact (iterate_resumes small_fs S_IFDIR 1%positive root_dir
           [2%positive; 3%positive] 1 1 0 3 5
           eq_refl eq_refl small_fs_children ltac:(simpl; lia) ltac:(simpl; lia)).
Defined.

Lemma small_fs_no_alias : no_alias_chain small_fs.
Proof.
  intros a nd t Ha Ht. unfold small_fs in Ha.
  destruct (decide (a = 1%positive)) as [->|H1].
  { rewrite lookup_insert_eq in Ha. injection Ha as <-. discriminate. }
  rewrite lookup_insert_ne in Ha by done.
  destruct (decide (a = 2%positive)) as [->|H2].
  { rewrite lookup_insert_eq in Ha. injection Ha as <-. discriminate. }
  rewrite lookup_insert_ne in Ha by done.
  destruct (decide (a = 3%positive)) as [->|H3].
  { rewrite lookup_insert_eq in Ha. injection Ha as <-. discriminate. }
  rewrite lookup_insert_ne in Ha by done. by rewrite lookup_empty in Ha.
Defined.

(** A hard link "h" to "g" in the root. *)
Lemma link_shares_buffer_witness :
  ∃ h' new,
    vtfs_link small_fs S_IFREG (Some 3%positive) (Some 1%positive) "h" (Some 4%positive)
      = Some (0, h') ∧
    h' !! 4%positive = Some new ∧ link_target new = Some 3%positive ∧
    vtfs_data_node h' (Some 4%positive) = vtfs_data_node h' (Some 3%positive).
Proof.
  destruct (link_shares_buffer small_fs S_IFREG 3%positive file_g 1%positive root_dir
              "h" 4%positive 3%positive file_g
              small_fs_no_alias eq_refl eq_refl eq_refl eq_refl eq_refl eq_refl
              buffer_ok_file_g)
    as (h' & new & dn' & Hlink & Hnew & Hlt & _ & _ & _ & Hda & Hdo & _).
  exists h', new. split; [exact Hlink|]. split; [exact Hnew|].
  split; [exact Hlt|].
  transitivity (Some 3%positive); [exact Hda|symmetry; exact Hdo].
Defined.

(** No inode for a new entry "n" of the root. *)
Lemma inode_failure_rolls_back_witness :
  vtfs_create small_fs 4 (Some 1%positive) "n" 0 (Some 4%positive) false
    = Some (- ENOMEM, small_fs, 5) ∧
  vtfs_mkdir 8 small_fs 4 (Some 1%positive) "n" 0 (Some 4%positive) false
    = Some (- ENOMEM, small_fs, 5).
Proof.
  destruct (inode_failure_rolls_back 8 small_fs 4 1%positive root_dir
              [2%positive; 3%positive] "n" 0 4%positive
              eq_refl eq_refl small_fs_children ltac:(simpl; lia))
    as [Hcreate Hmkdir].
  split; [exact Hcreate|]. apply Hmkdir.
  rewrite small_fs_names. intros Hin.
  apply elem_of_cons in Hin as [Hin|Hin]; [discriminate|].
  apply elem_of_cons in Hin as [Hin|Hin]; [discriminate|].
  by apply elem_of_nil in Hin.
Defined.

(** ** A run through the whole engine *)

(** A directory "d" in the root, a file "f" in it, 5000 bytes written at
    offset 0 and read back: the bytes come back, the size is 5000 and the
    block has grown from one page to two. *)
Example scenario_5000_bytes :
  let bytes := replicate 5000 x2a in
  ∃ h1 h2 w r nd,
    vtfs_mkdir 8 small_fs 4 (Some 1%positive) "d" 0 (Some 4%positive) true
      = Some (0, h1, 5) ∧
    vtfs_create h1 5 (Some 4%positive) "f" 0 (Some 5%positive) true
      = Some (0, h2, 6) ∧
    vtfs_lookup 8 h2 (Some 4%positive) "f" true = Some (0, Some 5%positive) ∧
    vtfs_write h2 (Some 5%positive) 0 false bytes 0 (WriteEnv true (λ _, xff) 5000 0)
      = Some w ∧
    w_ret w = 5000 ∧ w_pos w = 5000 ∧ w_isize w = 5000 ∧
    w_heap w !! 5%positive = Some nd ∧ size nd = 5000 ∧ capacity nd = 8192 ∧
    vtfs_read (w_heap w) (Some 5%positive) 5000 0 5000 = Some r ∧
    r_ret r = 5000 ∧ r_out r = bytes.
Proof.
  eexists _, _, _, _, _.
  repeat (split; [vm_compute; reflexivity|]). vm_compute; reflexivity.
Qed.

(** ** More on the buffer engine *)

Lemma grow_buffer_total nd e env :
  buffer_ok nd → 0 < e → is_Some (grow_buffer nd e env).
Proof.
  intros Hok He. destruct (Z.le_gt_cases e (capacity nd)) as [Hfit|Hgrow].
  - unfold grow_buffer. zbool.
    destruct (Z.ltb_spec (capacity nd) e); [lia|by eexists].
  - pose proof (grow_buffer_spec nd e env Hok ltac:(lia)) as Hs.
    cbv zeta in Hs.
    destruct Hs as (k & _ & _ & [(_ & _ & ->)|(_ & _ & _ & ->)]); [by eexists|].
    destruct (krealloc_ok env); by eexists.
Qed.

Lemma copied_le env buf : (copied env buf ≤ length buf)%nat.
Proof. unfold copied. case_decide; lia. Qed.

(** Every call of [vtfs_write] on a consistent node returns, in one of two
    ways: before the user copy, with nothing changed and a return value
    that is not positive; or after it, with the node's block, size and
    capacity replaced. *)
Lemma vtfs_write_cases (h : heap) ip a nd isz (o_append : bool) buf ppos env :
  vtfs_data_node h ip = Some a → h !! a = Some nd → buffer_ok nd →
  let pos := if o_append then to_s64 (size nd) else ppos in
  let len := Z.of_nat (length buf) in
  let k := copied env buf in
  ∃ w, vtfs_write h ip isz o_append buf ppos env = Some w ∧
    ((w_heap w = h ∧ w_pos w = ppos ∧ w_isize w = isz ∧ w_ret w ≤ 0) ∨
     (is_dir nd = false ∧ 0 ≤ pos ∧ 0 < len ∧
      ∃ c1, pos + len ≤ c1 ≤ SIZE_MAX ∧ capacity nd ≤ c1 ∧
        w = WriteResult (if Z.of_nat k =? 0 then - EFAULT else to_s64 (Z.of_nat k))
              (<[a := set_buffer nd (Some (stored nd c1 pos buf k))
                        (Z.max (size nd) (pos + Z.of_nat k)) c1]> h)
              (to_s64 (pos + Z.of_nat k))
              (Z.max (size nd) (pos + Z.of_nat k)))).
Proof.
  intros Hdn Hnd Hok pos len k.
  assert (∀ r, r ≤ 0 →
    ∃ w, Some (WriteResult r h ppos isz) = Some w ∧
      ((w_heap w = h ∧ w_pos w = ppos ∧ w_isize w = isz ∧ w_ret w ≤ 0) ∨
       (is_dir nd = false ∧ 0 ≤ pos ∧ 0 < len ∧
        ∃ c1, pos + len ≤ c1 ≤ SIZE_MAX ∧ capacity nd ≤ c1 ∧
          w = WriteResult (if Z.of_nat k =? 0 then - EFAULT else to_s64 (Z.of_nat k))
                (<[a := set_buffer nd (Some (stored nd c1 pos buf k))
                          (Z.max (size nd) (pos + Z.of_nat k)) c1]> h)
                (to_s64 (pos + Z.of_nat k))
                (Z.max (size nd) (pos + Z.of_nat k))))) as Hstop.
  { intros r Hr. eexists. split; [done|]. left. done. }
  destruct (is_dir nd) eqn:Hdir.
  { unfold vtfs_write. rewrite Hdn. simpl. rewrite Hnd. simpl. rewrite Hdir.
    apply Hstop. unfold EISDIR. lia. }
  destruct (decide (pos < 0)) as [Hneg|Hpos].
  { unfold vtfs_write. rewrite Hdn. simpl. rewrite Hnd. simpl. rewrite Hdir.
    fold pos. destruct (Z.ltb_spec pos 0); [|lia]. apply Hstop. unfold EINVAL. lia. }
  destruct (decide (len = 0)) as [Hz|Hnz].
  { unfold vtfs_write. rewrite Hdn. simpl. rewrite Hnd. simpl. rewrite Hdir.
    fold pos len. destruct (Z.ltb_spec pos 0); [lia|].
    destruct (Z.eqb_spec len 0); [|lia]. apply Hstop. lia. }
  destruct (decide (SIZE_MAX < pos + len)) as [Hbig|Hfit].
  { unfold vtfs_write. rewrite Hdn. simpl. rewrite Hnd. simpl. rewrite Hdir.
    fold pos len. zbool. destruct (Z.ltb_spec pos 0); [lia|].
    destruct (Z.eqb_spec len 0); [lia|].
    destruct (Z.ltb_spec SIZE_MAX pos); [apply Hstop; unfold EFBIG; lia|].
    destruct (Z.ltb_spec (SIZE_MAX - pos) len); [|lia].
    apply Hstop. unfold EFBIG. lia. }
  destruct (grow_buffer_total nd (pos + len) env Hok ltac:(lia)) as [[r|nd1] Hg].
  - unfold vtfs_write. rewrite Hdn. simpl. rewrite Hnd. simpl. rewrite Hdir.
    fold pos len. zbool. destruct (Z.ltb_spec pos 0); [lia|].
    destruct (Z.eqb_spec len 0); [lia|].
    destruct (Z.ltb_spec SIZE_MAX pos); [lia|].
    destruct (Z.ltb_spec (SIZE_MAX - pos) len); [lia|].
    rewrite Hg. simpl. apply Hstop.
    destruct (grow_buffer_inl _ _ _ _ Hg) as [-> | ->]; unfold EFBIG, ENOMEM; lia.
  - destruct (grow_buffer_inr nd (pos + len) env nd1 Hok ltac:(lia) Hg)
      as (c1 & Hc1 & Hcap & ->). fold (grown nd c1) in Hg.
    eexists. split.
    + apply (vtfs_write_copy h ip a nd isz o_append buf ppos env c1);
        (done || lia).
    + right. split; [done|]. split; [lia|]. split; [lia|]. exists c1. done.
Qed.

(** X1.  On a consistent file node [vtfs_write] never faults, whatever the
    arguments and whatever the kernel does, and the node is consistent
    afterwards: its block has [capacity] bytes and
    [0 <= size <= capacity <= SIZE_MAX].  Neither the size nor the
    capacity ever decreases. *)
Theorem write_keeps_buffer_ok (h : heap) ip a nd isz (o_append : bool) buf ppos env :
  vtfs_data_node h ip = Some a → h !! a = Some nd → buffer_ok nd →
  ∃ w nd', vtfs_write h ip isz o_append buf ppos env = Some w ∧
    w_heap w !! a = Some nd' ∧ buffer_ok nd' ∧
    size nd ≤ size nd' ∧ capacity nd ≤ capacity nd'.
Proof.
  intros Hdn Hnd Hok.
  destruct (vtfs_write_cases h ip a nd isz o_append buf ppos env Hdn Hnd Hok)
    as (w & Hw & [(Hh & _)|(Hdir & Hpos & Hlen & c1 & Hc1 & Hcap & ->)]).
  - exists w, nd. rewrite Hh. split; [done|]. split; [done|]. split; [done|]. lia.
  - eexists _, _. split; [exact Hw|]. simpl. split; [apply lookup_insert_eq|].
    pose proof (copied_le env buf) as Hk. destruct Hok as (Hsz & Hmax & Hd).
    split; [|simpl; lia].
    split; [simpl; lia|]. split; [simpl; lia|]. simpl.
    apply length_stored; try done; lia.
Qed.

(** X2.  A write changes nothing but the block, size and capacity of the
    data node: every other node is as before, the node keeps its name,
    inode number and links, and every pointer resolves to the same data
    node.  For a byte count within [LLONG_MAX], a call that returns
    neither a positive count nor [-EFAULT] changes nothing at all. *)
Theorem write_changes_only_the_buffer (h : heap) ip a nd isz (o_append : bool)
    buf ppos env w :
  vtfs_data_node h ip = Some a → h !! a = Some nd → buffer_ok nd →
  Z.of_nat (length buf) ≤ LLONG_MAX →
  vtfs_write h ip isz o_append buf ppos env = Some w →
  (∀ b, b ≠ a → w_heap w !! b = h !! b) ∧
  (∃ d' sz' c', w_heap w !! a = Some (set_buffer nd d' sz' c')) ∧
  (∀ p, vtfs_data_node (w_heap w) p = vtfs_data_node h p) ∧
  (w_ret w ≤ 0 → w_ret w ≠ - EFAULT → w_heap w = h).
Proof.
  intros Hdn Hnd Hok Hlen Hw.
  destruct (vtfs_write_cases h ip a nd isz o_append buf ppos env Hdn Hnd Hok)
    as (w' & Hw' & Hcase).
  rewrite Hw in Hw'. injection Hw' as <-.
  destruct Hcase as [(Hh & _)|(Hdir & Hpos & Hl & c1 & Hc1 & Hcap & ->)].
  - rewrite Hh. split; [done|]. split; [|done].
    exists (data nd), (size nd), (capacity nd). by rewrite set_buffer_id.
  - simpl. split; [intros b Hb; by rewrite lookup_insert_ne|].
    split; [eexists _, _, _; apply lookup_insert_eq|].
    split; [intros p; by apply (vtfs_data_node_insert h a nd)|].
    pose proof (copied_le env buf) as Hk. unfold LLONG_MAX in Hlen.
    destruct (Z.eqb_spec (Z.of_nat (copied env buf)) 0); [done|].
    rewrite to_s64_id by lia. lia.
Qed.

Lemma lookup_grown_old nd c1 (i : nat) :
  buffer_ok nd → Z.of_nat i < capacity nd →
  grown nd c1 !! i = default [] (data nd) !! i.
Proof.
  intros Hok Hi. pose proof (buffer_ok_length nd Hok). unfold grown.
  apply lookup_app_l. lia.
Qed.

Lemma take_drop_ext {A} (l1 l2 : list A) (o n : nat) :
  (∀ j, (j < n)%nat → l1 !! (o + j)%nat = l2 !! (o + j)%nat) →
  take n (drop o l1) = take n (drop o l2).
Proof.
  intros Hext. apply list_eq. intros j. rewrite !lookup_take, !lookup_drop.
  case_decide; [by apply Hext|done].
Qed.

(** X3.  A write leaves the rest of the file alone: a read of a range that
    lies below the old size and does not meet the range written gives the
    same result after the write as before it, whether the write was in
    full, short or refused. *)
Theorem write_keeps_other_bytes (h : heap) ip a nd isz (o_append : bool)
    buf ppos env w :
  vtfs_data_node h ip = Some a → h !! a = Some nd → buffer_ok nd →
  vtfs_write h ip isz o_append buf ppos env = Some w →
  let pos := if o_append then to_s64 (size nd) else ppos in
  ∀ o n ua, 0 ≤ o → 0 < n → o + n ≤ size nd →
    o + n ≤ pos ∨ pos + Z.of_nat (length buf) ≤ o →
    (Z.to_nat n ≤ ua)%nat →
    vtfs_read (w_heap w) ip n o ua = vtfs_read h ip n o ua.
Proof.
  intros Hdn Hnd Hok Hw pos o n ua Ho Hn Hon Hout Hua.
  destruct (vtfs_write_cases h ip a nd isz o_append buf ppos env Hdn Hnd Hok)
    as (w' & Hw' & Hcase).
  rewrite Hw in Hw'. injection Hw' as <-.
  destruct Hcase as [(-> & _)|(Hdir & Hpos & Hl & c1 & Hc1 & Hcap & ->)];
    [done|].
  simpl. fold pos in Hpos, Hc1 |- *. pose proof (copied_le env buf) as Hk.
  pose proof Hok as (Hsz & Hmax & Hd).
  destruct (data nd) as [d|] eqn:Hdata; [|lia].
  set (nd' := set_buffer nd _ _ _).
  assert (vtfs_data_node (<[a:=nd']> h) ip = Some a) as Hdn'
    by (by rewrite (vtfs_data_node_insert h a nd)).
  pose proof (vtfs_read_run _ ip a nd' _ n o ua Hdn'
                (lookup_insert_eq h a nd') Hdir eq_refl) as Hr1.
  pose proof (vtfs_read_run h ip a nd d n o ua Hdn Hnd Hdir Hdata) as Hr2.
  cbv zeta in Hr1, Hr2. simpl in Hr1.
  rewrite Hr1, Hr2; [|lia|lia|rewrite length_take; lia|lia|lia
                     |rewrite length_take; lia].
  rewrite !Z.min_r by lia. do 2 f_equal.
  apply take_drop_ext. intros j Hj.
  rewrite lookup_stored_outside by (done || lia).
  rewrite lookup_hole_cleared by (done || lia). case_decide; [lia|].
  rewrite lookup_grown_old by (done || lia). by rewrite Hdata.
Qed.

(** A write in full, read back at the offset it went to. *)
Lemma written_then_read (h : heap) ip a nd isz (o_append : bool) buf ppos env w ua :
  vtfs_data_node h ip = Some a → h !! a = Some nd → buffer_ok nd →
  vtfs_write h ip isz o_append buf ppos env = Some w →
  w_ret w = Z.of_nat (length buf) → (0 < length buf)%nat →
  (length buf ≤ ua)%nat →
  let pos := if o_append then to_s64 (size nd) else ppos in
  0 ≤ pos ∧
  (∃ d' c', w_heap w !! a
     = Some (set_buffer nd d' (Z.max (size nd) (pos + Z.of_nat (length buf))) c')) ∧
  w_pos w = to_s64 (pos + Z.of_nat (length buf)) ∧
  w_isize w = Z.max (size nd) (pos + Z.of_nat (length buf)) ∧
  ∃ r, vtfs_read (w_heap w) ip (Z.of_nat (length buf)) pos ua = Some r ∧
       r_ret r = Z.of_nat (length buf) ∧ r_out r = buf.
Proof.
  intros Hdn Hnd Hok Hw Hret Hlen Hua pos.
  destruct (vtfs_write_cases h ip a nd isz o_append buf ppos env Hdn Hnd Hok)
    as (w' & Hw' & Hcase).
  rewrite Hw in Hw'. injection Hw' as <-.
  destruct Hcase as [(_ & _ & _ & Hneg)|(Hdir & Hpos & Hl & c1 & Hc1 & Hcap & ->)];
    [lia|].
  fold pos in Hpos, Hc1 |- *. simpl in *. pose proof (copied_le env buf) as Hk.
  assert (copied env buf = length buf) as Hcp.
  { destruct (Z.eqb_spec (Z.of_nat (copied env buf)) 0) as [E|E];
      [unfold EFAULT in Hret; lia|].
    pose proof (to_s64_le (Z.of_nat (copied env buf)) ltac:(lia)). lia. }
  rewrite Hcp in *. destruct (Z.eqb_spec (Z.of_nat (length buf)) 0); [lia|].
  pose proof (to_s64_range (Z.of_nat (length buf))) as Hrng.
  split; [done|]. rewrite lookup_insert_eq.
  split; [by eexists _, _|]. split; [done|]. split; [done|].
  set (nd' := set_buffer nd _ _ _).
  assert (vtfs_data_node (<[a:=nd']> h) ip = Some a) as Hdn'
    by (by rewrite (vtfs_data_node_insert h a nd)).
  pose proof (vtfs_read_run _ ip a nd' _ (Z.of_nat (length buf)) pos ua Hdn'
                (lookup_insert_eq h a nd') Hdir eq_refl) as Hr1.
  cbv zeta in Hr1. simpl in Hr1.
  eexists. split; [apply Hr1; [lia|lia|rewrite length_take; lia]|].
  simpl. rewrite Z.min_r by lia. split; [apply to_s64_id; lia|].
  rewrite Nat2Z.id, stored_readback by (done || lia).
  rewrite take_ge by done. rewrite Nat.sub_diag. simpl. apply app_nil_r.
Qed.

(** X4.  With [O_APPEND] the caller's position is ignored: a write in full
    of at least one byte puts the bytes at the old end of the file (a read
    there delivers them), the size and the inode size grow by exactly the
    length, and the position returned is the new size. *)
Theorem append_goes_to_the_end (h : heap) ip a nd isz buf ppos env w ua :
  vtfs_data_node h ip = Some a → h !! a = Some nd → buffer_ok nd →
  size nd ≤ LLONG_MAX →
  vtfs_write h ip isz true buf ppos env = Some w →
  w_ret w = Z.of_nat (length buf) → (0 < length buf)%nat →
  (length buf ≤ ua)%nat →
  ∃ nd' r,
    w_heap w !! a = Some nd' ∧
    size nd' = size nd + Z.of_nat (length buf) ∧
    w_isize w = size nd + Z.of_nat (length buf) ∧
    w_pos w = to_s64 (size nd + Z.of_nat (length buf)) ∧
    vtfs_read (w_heap w) ip (Z.of_nat (length buf)) (size nd) ua = Some r ∧
    r_ret r = Z.of_nat (length buf) ∧ r_out r = buf.
Proof.
  intros Hdn Hnd Hok Hsz Hw Hret Hlen Hua.
  destruct (written_then_read h ip a nd isz true buf ppos env w ua
              Hdn Hnd Hok Hw Hret Hlen Hua)
    as (Hpos & (d' & c' & Hnd') & Hwpos & Hisz & r & Hr & Hrr & Hout).
  destruct Hok as ((Hs0 & _) & _). unfold LLONG_MAX in Hsz.
  rewrite (to_s64_id (size nd)) in Hnd', Hwpos, Hisz, Hr by lia.
  eexists _, r. split; [exact Hnd'|]. simpl.
  split; [lia|]. split; [lia|]. done.
Qed.

(** ** Opening with [O_TRUNC], and reading in pieces *)

(** X5.  Opening a file with [O_TRUNC] returns 0, sets the inode size to 0
    and leaves a consistent, empty data node (no block, size and capacity
    0); no other node changes.  From then on a read at any offset from 0
    on, through any name of the file, returns 0 bytes.  Opening without
    [O_TRUNC] returns 0 and changes nothing. *)
Theorem open_trunc_empties_the_file (h : heap) ip a nd isz :
  vtfs_data_node h ip = Some a → h !! a = Some nd → is_dir nd = false →
  vtfs_open h ip isz false = Some (0, h, isz) ∧
  ∃ h' nd',
    vtfs_open h ip isz true = Some (0, h', 0) ∧
    (∀ b, b ≠ a → h' !! b = h !! b) ∧
    h' !! a = Some nd' ∧ buffer_ok nd' ∧
    data nd' = None ∧ size nd' = 0 ∧ capacity nd' = 0 ∧
    ∀ ip2 len pos ua, vtfs_data_node h ip2 = Some a → 0 ≤ pos →
      vtfs_read h' ip2 len pos ua = Some (ReadResult 0 [] pos).
Proof.
  intros Hdn Hnd Hdir. unfold vtfs_open, store. rewrite Hdn. simpl.
  split; [done|]. rewrite Hnd. simpl.
  eexists _, _. split; [done|].
  split; [intros b Hb; by rewrite lookup_insert_ne|].
  split; [apply lookup_insert_eq|].
  split; [unfold buffer_ok, SIZE_MAX; simpl; lia|].
  do 3 (split; [done|]).
  intros ip2 len pos ua Hdn2 Hpos. unfold vtfs_read.
  rewrite (vtfs_data_node_insert h a nd) by done. rewrite Hdn2. simpl.
  rewrite lookup_insert_eq. simpl. rewrite Hdir.
  destruct (Z.ltb_spec pos 0); [lia|done].
Qed.

(** [vtfs_read] in closed form, for a caller whose buffer can take the
    bytes: it delivers the bytes from [pos] up to the size, at most [len]
    of them, and moves the position past them. *)
Lemma vtfs_read_closed (h : heap) ip a nd len pos ua :
  vtfs_data_node h ip = Some a → h !! a = Some nd → is_dir nd = false →
  buffer_ok nd → size nd ≤ LLONG_MAX → 0 ≤ pos → 0 ≤ len →
  (Z.to_nat (Z.max 0 (Z.min (size nd - pos) len)) ≤ ua)%nat →
  let m := Z.max 0 (Z.min (size nd - pos) len) in
  vtfs_read h ip len pos ua
  = Some (ReadResult m (take (Z.to_nat m) (drop (Z.to_nat pos) (default [] (data nd))))
            (pos + m)).
Proof.
  intros Hdn Hnd Hdir Hok Hsz Hpos Hlen Hua m. unfold LLONG_MAX in Hsz.
  pose proof Hok as (Hs & Hmax & Hd).
  destruct (decide (pos < size nd ∧ 0 < len)) as [[Hin Hl]|Hout].
  - destruct (data nd) as [d|] eqn:Hdata; [|lia].
    pose proof (vtfs_read_run h ip a nd d len pos ua Hdn Hnd Hdir Hdata) as Hr.
    cbv zeta in Hr. rewrite Hr; [|lia|lia|rewrite length_take; lia].
    subst m. rewrite (Z.max_r 0) by lia. rewrite !to_s64_id by lia. done.
  - assert (m = 0) as -> by lia. rewrite Z.add_0_r. simpl.
    unfold vtfs_read. rewrite Hdn. simpl. rewrite Hnd. simpl. rewrite Hdir.
    zbool. destruct (Z.ltb_spec pos 0); [lia|].
    destruct (data nd) as [d|]; [|done].
    destruct (Z.leb_spec (size nd) pos); [done|].
    destruct (Z.eqb_spec (Z.min (size nd - pos) len) 0); [done|lia].
Qed.

(** X6.  Reading in pieces gives what one read gives: a read of [n1] bytes
    followed by a read of [n2] bytes at the position the first one left
    delivers, together, the bytes, the count and the final position of a
    single read of [n1 + n2] bytes, also when the end of the file falls
    inside either piece or before both. *)
Theorem reads_tile (h : heap) ip a nd pos n1 n2 ua :
  vtfs_data_node h ip = Some a → h !! a = Some nd → is_dir nd = false →
  buffer_ok nd → size nd ≤ LLONG_MAX → 0 ≤ pos → 0 ≤ n1 → 0 ≤ n2 →
  (Z.to_nat (n1 + n2) ≤ ua)%nat →
  ∃ r1 r2 r,
    vtfs_read h ip n1 pos ua = Some r1 ∧
    vtfs_read h ip n2 (r_pos r1) ua = Some r2 ∧
    vtfs_read h ip (n1 + n2) pos ua = Some r ∧
    r_out r = r_out r1 ++ r_out r2 ∧
    r_ret r = r_ret r1 + r_ret r2 ∧
    r_pos r = r_pos r2.
Proof.
  intros Hdn Hnd Hdir Hok Hsz Hpos Hn1 Hn2 Hua.
  pose proof (vtfs_read_closed h ip a nd n1 pos ua Hdn Hnd Hdir Hok Hsz Hpos Hn1
                ltac:(lia)) as Hr1.
  cbv zeta in Hr1. set (m1 := Z.max 0 (Z.min (size nd - pos) n1)) in Hr1.
  pose proof (vtfs_read_closed h ip a nd n2 (pos + m1) ua Hdn Hnd Hdir Hok Hsz
                ltac:(lia) Hn2 ltac:(lia)) as Hr2.
  cbv zeta in Hr2. set (m2 := Z.max 0 (Z.min (size nd - (pos + m1)) n2)) in Hr2.
  pose proof (vtfs_read_closed h ip a nd (n1 + n2) pos ua Hdn Hnd Hdir Hok Hsz
                Hpos ltac:(lia) ltac:(lia)) as Hr.
  cbv zeta in Hr.
  replace (Z.max 0 (Z.min (size nd - pos) (n1 + n2))) with (m1 + m2) in Hr by lia.
  eexists _, _, _. split; [exact Hr1|]. split; [exact Hr2|]. split; [exact Hr|].
  simpl. split; [|lia].
  rewrite (Z2Nat.inj_add pos m1), (Z2Nat.inj_add m1 m2) by lia.
  rewrite <- drop_drop. apply eq_sym, take_take_drop.
Qed.

(** X21.  A read of a consistent file never faults and never leaves the
    file.  It returns [-EINVAL] for a negative offset; otherwise the count
    is the number of bytes from the offset to the size, at most [len] and
    at least 0; the bytes delivered are exactly that many, taken from the
    block at the offset, and the position advances by the count.  When the
    user buffer cannot take that many bytes the call returns [-EFAULT]
    and the position stays. *)
Theorem read_stays_within_the_file (h : heap) ip a nd len pos ua :
  vtfs_data_node h ip = Some a → h !! a = Some nd → is_dir nd = false →
  buffer_ok nd → size nd ≤ LLONG_MAX → 0 ≤ len →
  let m := Z.max 0 (Z.min (size nd - pos) len) in
  ∃ r, vtfs_read h ip len pos ua = Some r ∧
    ((pos < 0 ∧ r_ret r = - EINVAL ∧ r_out r = [] ∧ r_pos r = pos) ∨
     (0 ≤ pos ∧ Z.of_nat ua < m ∧ r_ret r = - EFAULT ∧ r_pos r = pos) ∨
     (0 ≤ pos ∧ m ≤ Z.of_nat ua ∧ r_ret r = m ∧
      r_out r = take (Z.to_nat m) (drop (Z.to_nat pos) (default [] (data nd))) ∧
      Z.of_nat (length (r_out r)) = m ∧ pos + m ≤ Z.max pos (size nd) ∧
      r_pos r = pos + m)).
Proof.
  intros Hdn Hnd Hdir Hok Hsz Hlen m. pose proof Hok as (Hs & Hmax & Hd).
  destruct (decide (pos < 0)) as [Hneg|Hpos].
  { eexists. split.
    - unfold vtfs_read. rewrite Hdn. simpl. rewrite Hnd. simpl. rewrite Hdir.
      destruct (Z.ltb_spec pos 0); [done|lia].
    - left. done. }
  destruct (decide (m ≤ Z.of_nat ua)) as [Hfit|Hshort].
  - eexists. split.
    + apply (vtfs_read_closed h ip a nd len pos ua); (done || lia).
    + right. right. fold m. simpl. split; [lia|]. do 3 (split; [done|]).
      split; [|split; [lia|done]].
      rewrite length_take, length_drop.
      destruct (data nd) as [d|]; simpl in *; lia.
  - destruct (data nd) as [d|] eqn:Hdata; [|lia].
    eexists. split.
    + unfold vtfs_read. rewrite Hdn. simpl. rewrite Hnd. simpl.
      rewrite Hdir, Hdata. zbool.
      destruct (Z.ltb_spec pos 0); [lia|].
      destruct (Z.leb_spec (size nd) pos); [lia|].
      destruct (Z.eqb_spec (Z.min (size nd - pos) len) 0); [lia|].
      unfold copy_to_user. rewrite length_take, length_drop.
      match goal with |- context [negb (?x =? 0)] =>
        destruct (Z.eqb_spec x 0); [lia|] end.
      simpl. reflexivity.
    + right. left. simpl. split; [lia|]. split; [lia|]. done.
Qed.

(** ** More on the tree: lookup, create, rmdir *)

Lemma vtfs_create_ok (h : heap) n pa pn nm md a :
  h !! pa = Some pn → h !! a = None →
  vtfs_create h n (Some pa) nm md (Some a) true
  = Some (0, <[pa := set_first_child pn (Some a)]>
               (<[a := fresh_node nm false md n pa (first_child pn)]> h),
          to_u64 (n + 1)).
Proof.
  intros Hpa Ha. assert (a ≠ pa) as Hne by congruence.
  unfold vtfs_create. simpl. unfold store. heap_simpl. done.
Qed.

(** The scan stops at the first node of the chain with the name. *)
Lemma find_child_chain fuel (h : heap) p l nm :
  chain h p l → (length l < fuel)%nat →
  find_child fuel h p nm = Some (first_named h nm l).
Proof.
  intros Hl. revert fuel.
  induction Hl as [|a nd l Ha _ IH] using chain_ind'; intros fuel Hf.
  - by destruct fuel.
  - destruct fuel as [|f]; [simpl in Hf; lia|]. simpl. rewrite Ha. simpl.
    unfold first_named. destruct (String.eqb_spec (name nd) nm) as [E|E].
    + rewrite filter_cons_True by (by rewrite Ha, <- E). done.
    + rewrite filter_cons_False by (rewrite Ha; simpl; congruence).
      apply IH. simpl in Hf. lia.
Qed.

Lemma first_named_ext (h h' : heap) nm l :
  (∀ b, b ∈ l → name <$> h' !! b = name <$> h !! b) →
  first_named h' nm l = first_named h nm l.
Proof.
  intros Hext. unfold first_named. f_equal.
  induction l as [|b l IH]; [done|].
  pose proof (Hext b ltac:(left)) as Hb.
  specialize (IH (λ c Hc, Hext c ltac:(by right))).
  destruct (decide (name <$> h !! b = Some nm)) as [E|E].
  - rewrite !filter_cons_True by congruence. by f_equal.
  - rewrite !filter_cons_False by congruence. done.
Qed.

Lemma first_named_app_miss (h : heap) nm l1 l2 :
  nm ∉ name <$> nodes_at h l1 → (∀ b, b ∈ l1 → is_Some (h !! b)) →
  first_named h nm (l1 ++ l2) = first_named h nm l2.
Proof.
  unfold first_named. induction l1 as [|b l1 IH]; intros Hnm Hall; [done|].
  destruct (Hall b ltac:(left)) as [bn Hb].
  rewrite (nodes_at_cons h b bn l1 Hb) in Hnm. simpl in Hnm.
  apply not_elem_of_cons in Hnm as [Hne Hnm]. simpl.
  rewrite filter_cons_False by (rewrite Hb; simpl; congruence).
  apply IH; [done|]. intros c Hc. apply Hall. by right.
Qed.

(** X7.  [vtfs_lookup] finds the first child, in chain order, whose name is
    the one asked for: with no such child the dentry stays negative and
    the result is NULL; with one, its inode is attached, or the result is
    [-ENOMEM] when no inode can be had.  Of two children with one name the
    later one is never found. *)
Theorem lookup_first_match fuel (h : heap) pa pn l nm (iok : bool) :
  h !! pa = Some pn → chain h (first_child pn) l → (length l < fuel)%nat →
  (nm ∉ name <$> nodes_at h l →
   vtfs_lookup fuel h (Some pa) nm iok = Some (0, None)) ∧
  (∀ l1 c cn l2,
     l = l1 ++ c :: l2 → h !! c = Some cn → name cn = nm →
     nm ∉ name <$> nodes_at h l1 →
     vtfs_lookup fuel h (Some pa) nm iok
     = Some (if iok then (0, Some c) else (- ENOMEM, None))).
Proof.
  intros Hpa Hl Hf. split.
  - intros Hnm. unfold vtfs_lookup. rewrite Hpa. simpl.
    by rewrite (find_child_miss fuel h _ l nm).
  - intros l1 c cn l2 -> Hc Hname Hnm. unfold vtfs_lookup. rewrite Hpa. simpl.
    rewrite (find_child_chain fuel h _ _ nm Hl Hf). simpl.
    rewrite first_named_app_miss; [|done|].
    + unfold first_named. rewrite filter_cons_True by (by rewrite Hc, <- Hname).
      simpl. by destruct iok.
    + intros b Hb. apply (chain_lookup h _ _ b Hl). set_solver.
Qed.

(** X8.  [vtfs_create] does not look at the children that are there: with
    memory for the node and an inode it returns 0 and advances the
    counter, whatever the name.  The new file node becomes the first
    child, before the former children in their order; the parent changes
    in its [first_child] only and no other node changes.  From then on a
    lookup of the name as stored finds the new node, also when an older
    child bears the same name. *)
Theorem create_then_lookup fuel (h : heap) n pa pn l nm md a :
  h !! pa = Some pn → chain h (first_child pn) l →
  (S (length l) < fuel)%nat → h !! a = None →
  ∃ h1,
    vtfs_create h n (Some pa) nm md (Some a) true = Some (0, h1, to_u64 (n + 1)) ∧
    h1 !! pa = Some (set_first_child pn (Some a)) ∧
    chain h1 (Some a) (a :: l) ∧
    h1 !! a = Some (fresh_node nm false md n pa (first_child pn)) ∧
    (∀ b, b ≠ a → b ≠ pa → h1 !! b = h !! b) ∧
    vtfs_lookup fuel h1 (Some pa) (strscpy nm VTFS_FILE_NAME_LEN) true
      = Some (0, Some a) ∧
    ((String.length nm < 255)%nat →
     vtfs_lookup fuel h1 (Some pa) nm true = Some (0, Some a)).
Proof.
  intros Hpa Hl Hf Ha. assert (a ≠ pa) as Hne by congruence.
  eexists. split; [by apply vtfs_create_ok|].
  destruct (chain_push h pa pn l a
              (fresh_node nm false md n pa (first_child pn)) Hpa Hl Ha eq_refl)
    as [Hl1 _].
  set (h1 := <[pa := _]> _) in *.
  assert (h1 !! a = Some (fresh_node nm false md n pa (first_child pn))) as Ha1
    by (subst h1; by heap_simpl).
  assert (vtfs_lookup fuel h1 (Some pa) (strscpy nm VTFS_FILE_NAME_LEN) true
          = Some (0, Some a)) as Hfound.
  { unfold vtfs_lookup. replace (h1 !! pa) with (Some (set_first_child pn (Some a)))
      by (subst h1; by heap_simpl).
    simpl. rewrite (find_child_chain fuel h1 _ (a :: l)) by done.
    unfold first_named. rewrite filter_cons_True by (by rewrite Ha1). done. }
  split; [subst h1; by heap_simpl|]. split; [done|]. split; [done|].
  split; [intros b Hb1 Hb2; subst h1; by heap_simpl|]. split; [done|].
  intros Hshort. by rewrite strscpy_short in Hfound.
Qed.

(** The loop of [vtfs_unlink] and [vtfs_rmdir] on a child [n] of [pa]: the
    chain loses [n] and keeps its order, [n] loses its parent and sibling,
    and no node changes in anything but its links. *)
Lemma detach_unlinks fuel (h : heap) pa pn n nd l1 l2 :
  h !! pa = Some pn → h !! n = Some nd → n ≠ pa →
  chain h (first_child pn) (l1 ++ n :: l2) → (length l1 ≤ fuel)%nat →
  ∃ h' pn',
    detach fuel h pa n None (first_child pn) = Some (Some n, h') ∧
    h' !! pa = Some pn' ∧ chain h' (first_child pn') (l1 ++ l2) ∧
    h' !! n = Some (set_next_sibling (set_parent nd None) None) ∧
    (∀ b, payload <$> h' !! b = payload <$> h !! b) ∧
    (∀ b, b ≠ n → parent <$> h' !! b = parent <$> h !! b) ∧
    (l1 = [] → h' = <[n := set_next_sibling (set_parent nd None) None]>
                      (<[pa := set_first_child pn (next_sibling nd)]> h)).
Proof.
  intros Hpa Hn Hne Hl Hf.
  pose proof (chain_NoDup _ _ _ Hl) as Hnd.
  apply NoDup_app in Hnd as (Hnd1 & Hn1 & Hnd2).
  apply NoDup_cons in Hnd2 as [Hn2 Hnd2].
  assert (n ∉ l1) as Hnl1 by (intros Hx; apply (Hn1 n Hx); by left).
  destruct (lseg_split _ _ _ _ _ Hl) as (q & Hseg1 & Hseg2).
  inversion Hseg2 as [|n' nd' q' l' Hn' Hrest]; subst.
  rewrite Hn in Hn'. injection Hn' as <-.
  rewrite (detach_hit fuel h pa n nd None _ l1 l2 Hl) by done.
  destruct (last l1) as [q|] eqn:Hlast; simpl.
  - apply last_Some in Hlast as (l1' & ->).
    assert (q ≠ n) as Hqn by (intros ->; apply Hnl1; set_solver).
    apply lseg_split in Hseg1 as (r & Hseg1 & Hq).
    inversion Hq as [|q' qn r' l' Hq' Hnil]; subst.
    apply lseg_nil_inv in Hnil as Hqnext.
    apply NoDup_app in Hnd1 as (Hnd1 & Hq1 & _).
    assert (q ∉ l1') as Hql1 by (intros Hx; apply (Hq1 q Hx); by left).
    assert (q ∉ l2) as Hql2.
    { intros Hx. apply (Hn1 q); [set_solver|by right]. }
    unfold store. heap_simpl.
    assert (chain (<[n := set_next_sibling (set_parent nd None) None]>
                     (<[q := set_next_sibling qn (next_sibling nd)]> h))
              (first_child pn) ((l1' ++ [q]) ++ l2)) as Hchain.
    { rewrite <- (assoc_L (++)). apply (lseg_app _ _ (Some q)).
      - apply (lseg_ext h); [|done]. intros b Hb.
        assert (b ≠ q) by (intros ->; done).
        assert (b ≠ n) by (intros ->; apply Hnl1; set_solver).
        by heap_simpl.
      - econstructor; [by heap_simpl|]. simpl.
        apply (lseg_ext h); [|done]. intros b Hb.
        assert (b ≠ q) by (intros ->; done).
        assert (b ≠ n) by (intros ->; done).
        by heap_simpl. }
    eexists _, (if decide (pa = q) then set_next_sibling qn (next_sibling nd) else pn).
    split; [done|]. split; [|split; [|split; [by heap_simpl|split; [|split]]]].
    + destruct (decide (pa = q)) as [->|]; by heap_simpl.
    + destruct (decide (pa = q)) as [->|]; [|done].
      rewrite Hpa in Hq'. by injection Hq' as <-.
    + intros b. destruct (decide (b = n)) as [->|]; [by heap_simpl|].
      destruct (decide (b = q)) as [->|]; by heap_simpl.
    + intros b Hb. destruct (decide (b = q)) as [->|]; by heap_simpl.
    + intros Hnil'. by destruct l1'.
  - apply last_None in Hlast as ->. simpl in *.
    apply lseg_nil_inv in Hseg1 as Hfirst.
    unfold store. heap_simpl.
    eexists _, _. split; [done|]. split; [by heap_simpl|].
    split; [|split; [by heap_simpl|split; [|split; [|done]]]].
    + simpl. apply (lseg_ext h); [|done]. intros b Hb.
      assert (b ≠ n) by (intros ->; done).
      destruct (decide (b = pa)) as [->|]; by heap_simpl.
    + intros b. destruct (decide (b = n)) as [->|]; [by heap_simpl|].
      destruct (decide (b = pa)) as [->|]; by heap_simpl.
    + intros b Hb. destruct (decide (b = pa)) as [->|]; by heap_simpl.
Qed.

(** X9.  [vtfs_rmdir] returns [-ENOTDIR] for a file node and [-ENOTEMPTY]
    for a directory that has a child.  For an empty directory it looks for
    the node itself among the children of the parent: not found there, it
    returns [-ENOENT]; found, the children are the former ones without
    this node, in the same order, the node has no parent and no sibling
    any more but stays allocated, and no node changes in anything but its
    links.  Nothing changes in the three error cases. *)
Theorem rmdir_detaches_empty_directory fuel (h : heap) pa pn n nd l :
  h !! pa = Some pn → h !! n = Some nd →
  chain h (first_child pn) l → (length l < fuel)%nat →
  (is_dir nd = false →
   vtfs_rmdir fuel h (Some pa) (Some n) = Some (- ENOTDIR, h)) ∧
  (is_dir nd = true → first_child nd ≠ None →
   vtfs_rmdir fuel h (Some pa) (Some n) = Some (- ENOTEMPTY, h)) ∧
  (is_dir nd = true → first_child nd = None → n ∉ l →
   vtfs_rmdir fuel h (Some pa) (Some n) = Some (- ENOENT, h)) ∧
  (is_dir nd = true → first_child nd = None → n ∈ l → n ≠ pa →
   ∃ h' pn' l1 l2,
     vtfs_rmdir fuel h (Some pa) (Some n) = Some (0, h') ∧
     l = l1 ++ n :: l2 ∧
     h' !! pa = Some pn' ∧ chain h' (first_child pn') (l1 ++ l2) ∧
     h' !! n = Some (set_next_sibling (set_parent nd None) None) ∧
     (∀ b, payload <$> h' !! b = payload <$> h !! b)).
Proof.
  intros Hpa Hn Hl Hf. unfold vtfs_rmdir. rewrite Hn. simpl.
  split; [by intros ->|]. split; [|split].
  - intros -> Hc. simpl. by destruct (first_child nd).
  - intros -> -> Hnl. simpl. rewrite Hpa. simpl.
    by rewrite (detach_miss fuel h pa n None _ l).
  - intros -> -> Hin Hne. simpl. rewrite Hpa. simpl.
    apply list_elem_of_split in Hin as (l1 & l2 & ->).
    destruct (detach_unlinks fuel h pa pn n nd l1 l2 Hpa Hn Hne Hl)
      as (h' & pn' & -> & Hpa' & Hl' & Hn' & Hpay & _).
    { rewrite length_app in Hf. lia. }
    simpl. by eexists h', pn', l1, l2.
Qed.

(** ** Making a node and removing it again *)

(** Removing the first child puts the parent back as it was. *)
Lemma detach_first_back (h : heap) pa pn a nd x :
  h !! pa = Some pn → h !! a = None →
  <[a := x]> (<[pa := set_first_child (set_first_child pn (Some a)) (first_child pn)]>
     (<[pa := set_first_child pn (Some a)]> (<[a := nd]> h)))
  = <[a := x]> h.
Proof.
  intros Hpa Ha. assert (a ≠ pa) as Hne by congruence.
  rewrite set_first_child_back. apply map_eq. intros b.
  destruct (decide (b = a)) as [->|]; [by heap_simpl|].
  destruct (decide (b = pa)) as [->|]; by heap_simpl.
Qed.

Lemma detach_at_head fuel (h : heap) pa pn n nd :
  h !! pa = Some pn → h !! n = Some nd → n ≠ pa →
  detach fuel h pa n None (Some n)
  = Some (Some n, <[n := set_next_sibling (set_parent nd None) None]>
                    (<[pa := set_first_child pn (next_sibling nd)]> h)).
Proof.
  intros Hpa Hn Hne.
  destruct fuel; simpl; rewrite decide_True by done; rewrite Hn; simpl;
    unfold store; by heap_simpl.
Qed.

(** X10.  A file that is created, unlinked and evicted leaves no trace.
    After [vtfs_create] and [vtfs_unlink] of the new node the memory is
    the one before the create, except that the node is still allocated,
    with no parent and no sibling; [vtfs_evict_inode] keeps it while the
    link count of the inode is not 0 and frees it when it is 0, which
    gives back exactly the memory before the create. *)
Theorem create_unlink_evict_restores fuel (h : heap) n pa pn nm md a :
  h !! pa = Some pn → h !! a = None →
  ∃ h1 h2,
    vtfs_create h n (Some pa) nm md (Some a) true = Some (0, h1, to_u64 (n + 1)) ∧
    vtfs_unlink fuel h1 (Some pa) (Some a) = Some (0, h2) ∧
    h2 = <[a := set_next_sibling (set_parent
                  (fresh_node nm false md n pa (first_child pn)) None) None]> h ∧
    (∀ k, k ≠ 0 → vtfs_evict_inode h2 (Some a) k = Some (h2, Some a)) ∧
    vtfs_evict_inode h2 (Some a) 0 = Some (h, None).
Proof.
  intros Hpa Ha. assert (a ≠ pa) as Hne by congruence.
  eexists _, _. split; [by apply vtfs_create_ok|].
  set (fr := fresh_node nm false md n pa (first_child pn)).
  split; [|split; [reflexivity|split]].
  - unfold vtfs_unlink. heap_simpl.
    rewrite (detach_at_head fuel _ pa (set_first_child pn (Some a)) a fr)
      by (done || by heap_simpl).
    simpl. f_equal. f_equal. by apply detach_first_back.
  - intros k Hk. unfold vtfs_evict_inode. heap_simpl.
    by destruct (Z.eqb_spec k 0).
  - unfold vtfs_evict_inode. heap_simpl. by rewrite delete_insert_eq, delete_id.
Qed.

(** X11.  The same for a directory: after [vtfs_mkdir] under a new name
    and [vtfs_rmdir] of the new, empty directory the memory is the one
    before, except for the detached node, and eviction with link count 0
    frees that too.  Before the [vtfs_rmdir] the parent is not empty:
    removing it instead is refused with [-ENOTEMPTY]. *)
Theorem mkdir_rmdir_evict_restores fuel (h : heap) n g pa pn l nm md a :
  h !! pa = Some pn → chain h (first_child pn) l → (length l < fuel)%nat →
  nm ∉ name <$> nodes_at h l → h !! a = None →
  is_dir pn = true →
  ∃ h1 h2,
    vtfs_mkdir fuel h n (Some pa) nm md (Some a) true = Some (0, h1, to_u64 (n + 1)) ∧
    vtfs_rmdir fuel h1 (Some g) (Some pa) = Some (- ENOTEMPTY, h1) ∧
    vtfs_rmdir fuel h1 (Some pa) (Some a) = Some (0, h2) ∧
    h2 = <[a := set_next_sibling (set_parent
                  (fresh_node nm true md n pa (first_child pn)) None) None]> h ∧
    vtfs_evict_inode h2 (Some a) 0 = Some (h, None).
Proof.
  intros Hpa Hl Hf Hnm Ha Hdir. assert (a ≠ pa) as Hne by congruence.
  eexists _, _. split; [by apply (vtfs_mkdir_ok fuel h n pa pn l)|].
  set (fr := fresh_node nm true md n pa (first_child pn)).
  split; [|split; [|split; [reflexivity|]]].
  - unfold vtfs_rmdir. heap_simpl. by rewrite Hdir.
  - unfold vtfs_rmdir. heap_simpl.
    rewrite (detach_at_head fuel _ pa (set_first_child pn (Some a)) a fr)
      by (done || by heap_simpl).
    simpl. f_equal. f_equal. by apply detach_first_back.
  - unfold vtfs_evict_inode. heap_simpl. by rewrite delete_insert_eq, delete_id.
Qed.

Lemma first_named_skip (h : heap) nm l1 n nd l2 :
  h !! n = Some nd → name nd ≠ nm →
  first_named h nm (l1 ++ n :: l2) = first_named h nm (l1 ++ l2).
Proof.
  intros Hn Hne. unfold first_named.
  rewrite !filter_app, filter_cons_False; [done|]. rewrite Hn. simpl. congruence.
Qed.

Lemma first_named_none (h : heap) nm l :
  (∀ b bn, b ∈ l → h !! b = Some bn → name bn ≠ nm) → first_named h nm l = None.
Proof.
  intros Hall. unfold first_named.
  induction l as [|b l IH]; [done|].
  rewrite filter_cons_False.
  - apply IH. intros c cn Hc. apply Hall. by right.
  - destruct (h !! b) as [bn|] eqn:Hb; [|done]. simpl.
    intros [= E]. by apply (Hall b bn ltac:(left) Hb).
Qed.

(** X12.  After a file is unlinked, a lookup of any other name gives what
    it gave before, and a lookup of the name of the file finds nothing if
    no other child of the directory bears that name. *)
Theorem unlink_then_lookup fuel (h : heap) pa pn n nd l (iok : bool) :
  h !! pa = Some pn → h !! n = Some nd → is_dir nd = false → n ≠ pa →
  chain h (first_child pn) l → (length l < fuel)%nat → n ∈ l →
  ∃ h',
    vtfs_unlink fuel h (Some pa) (Some n) = Some (0, h') ∧
    (∀ nm, nm ≠ name nd →
       vtfs_lookup fuel h' (Some pa) nm iok = vtfs_lookup fuel h (Some pa) nm iok) ∧
    ((∀ b bn, b ∈ l → b ≠ n → h !! b = Some bn → name bn ≠ name nd) →
     vtfs_lookup fuel h' (Some pa) (name nd) iok = Some (0, None)).
Proof.
  intros Hpa Hn Hdir Hne Hl Hf Hin.
  apply list_elem_of_split in Hin as (l1 & l2 & ->).
  pose proof (chain_NoDup _ _ _ Hl) as Hnd.
  rewrite length_app in Hf. simpl in Hf.
  destruct (detach_unlinks fuel h pa pn n nd l1 l2 Hpa Hn Hne Hl ltac:(lia))
    as (h' & pn' & Hd & Hpa' & Hl' & Hn' & Hpay & _).
  assert (∀ b, name <$> h' !! b = name <$> h !! b) as Hnames.
  { intros b. transitivity (name <$> (payload <$> h' !! b));
      [by destruct (h' !! b)|].
    rewrite Hpay. by destruct (h !! b). }
  assert (∀ nm, vtfs_lookup fuel h' (Some pa) nm iok
                = match first_named h nm (l1 ++ l2) with
                  | Some c => if iok then Some (0, Some c) else Some (- ENOMEM, None)
                  | None => Some (0, None)
                  end) as Hafter.
  { intros nm. unfold vtfs_lookup. rewrite Hpa'. simpl.
    rewrite (find_child_chain fuel h' _ (l1 ++ l2) nm Hl')
      by (rewrite length_app; lia).
    simpl. by rewrite (first_named_ext h h'). }
  exists h'. split; [|split].
  - unfold vtfs_unlink. rewrite Hn. simpl. rewrite Hdir, Hpa. simpl.
    by rewrite Hd.
  - intros nm Hnm. rewrite Hafter. unfold vtfs_lookup. rewrite Hpa. simpl.
    rewrite (find_child_chain fuel h _ (l1 ++ n :: l2) nm Hl)
      by (rewrite length_app; simpl; lia).
    simpl. by rewrite (first_named_skip h nm l1 n nd l2).
  - intros Hothers. rewrite Hafter. rewrite first_named_none; [done|].
    apply NoDup_app in Hnd as (_ & Hn1 & Hnd2).
    apply NoDup_cons in Hnd2 as [Hn2 _].
    intros b bn Hb Hbn. apply elem_of_app in Hb as [Hb|Hb].
    + apply (Hothers b bn); [apply elem_of_app; by left| |done].
      intros ->. apply (Hn1 n Hb). by left.
    + apply (Hothers b bn); [apply elem_of_app; right; by right| |done].
      by intros ->.
Qed.

(** ** More on the directory cursor *)

(** A call from a cursor past the dot entries: the cursor less 2, cut to
    32 bits, is the number of children skipped. *)
Lemma vtfs_iterate_from (h : heap) m dn dnode l si pi pos r :
  S_ISDIR m = true → h !! dn = Some dnode → chain h (first_child dnode) l →
  2 ≤ pos → pos + Z.of_nat (length l) ≤ LLONG_MAX →
  let rest := take r (drop (Z.to_nat (to_uint (pos - 2))) l) in
  vtfs_iterate h m (Some dn) pos r si pi
  = Some (0, dirent_of <$> nodes_at h rest, pos + Z.of_nat (length rest)).
Proof.
  intros Hm Hdn Hl Hpos Hmax rest.
  unfold vtfs_iterate. rewrite (S_ISDIR_negb m Hm).
  assert (dir_emit_dots r pos si pi = (true, [], pos, r)) as ->.
  { unfold dir_emit_dots.
    destruct (Z.eqb_spec pos 0); [lia|]. cbn.
    destruct (Z.eqb_spec pos 1); [lia|]. done. }
  cbn -[skip_children emit_children Z.to_nat to_uint]. rewrite Hdn.
  cbn -[skip_children emit_children Z.to_nat to_uint].
  destruct (skip_children_spec h _ l (Z.to_nat (to_uint (pos - 2))) Hl)
    as (q & -> & Hq).
  cbn -[emit_children Z.to_nat to_uint].
  rewrite (emit_children_spec r h q _ pos Hq) by (rewrite ?length_drop; lia).
  cbn -[Z.to_nat to_uint]. subst rest. by rewrite length_take.
Qed.

Lemma length_nodes_at_sub (h : heap) p l k r :
  chain h p l → length (nodes_at h (take r (drop k l))) = length (take r (drop k l)).
Proof.
  intros Hl. destruct (skip_children_spec h p l k Hl) as (q & _ & Hq).
  rewrite (nodes_at_take h q (drop k l)) by done.
  rewrite !length_take. by rewrite (length_nodes_at h q).
Qed.

(** X13.  The cursor of [vtfs_iterate] is cut to 32 bits when it is turned
    into a number of children to skip: a call from cursor [pos + 2 ^ 32]
    emits the same entries as the call from cursor [pos], for every
    [pos >= 2], and advances the cursor by as much.  From cursor
    [2 + 2 ^ 32] the children are listed again from the first one. *)
Theorem iterate_cursor_wraps (h : heap) m dn dnode l si pi pos r :
  S_ISDIR m = true → h !! dn = Some dnode → chain h (first_child dnode) l →
  2 ≤ pos → pos + 2 ^ 32 + Z.of_nat (length l) ≤ LLONG_MAX →
  ∃ out,
    vtfs_iterate h m (Some dn) pos r si pi
      = Some (0, out, pos + Z.of_nat (length out)) ∧
    vtfs_iterate h m (Some dn) (pos + 2 ^ 32) r si pi
      = Some (0, out, pos + 2 ^ 32 + Z.of_nat (length out)) ∧
    (pos = 2 → out = dirent_of <$> nodes_at h (take r l)).
Proof.
  intros Hm Hdn Hl Hpos Hmax.
  pose proof (vtfs_iterate_from h m dn dnode l si pi pos r Hm Hdn Hl Hpos
                ltac:(lia)) as H1.
  pose proof (vtfs_iterate_from h m dn dnode l si pi (pos + 2 ^ 32) r Hm Hdn Hl
                ltac:(lia) ltac:(lia)) as H2.
  cbv zeta in H1, H2.
  replace (to_uint (pos + 2 ^ 32 - 2)) with (to_uint (pos - 2)) in H2.
  2:{ unfold to_uint. replace (pos + 2 ^ 32 - 2) with (pos - 2 + 1 * 2 ^ 32) by lia.
      by rewrite Z.mod_add. }
  exists (dirent_of <$> nodes_at h (take r (drop (Z.to_nat (to_uint (pos - 2))) l))).
  rewrite H1, H2, length_fmap, (length_nodes_at_sub h _ l _ r Hl).
  split; [done|]. split; [done|]. by intros ->.
Qed.

Lemma str_prefix_all n s : (String.length s ≤ n)%nat → str_prefix n s = s.
Proof.
  revert n. induction s as [|c s IH]; intros n Hn; [by destruct n|].
  destruct n as [|n]; simpl in *; [lia|]. f_equal. apply IH. lia.
Qed.

Lemma length_strscpy nm :
  (String.length (strscpy nm VTFS_FILE_NAME_LEN) ≤ 254)%nat.
Proof. unfold strscpy. rewrite length_str_prefix. unfold VTFS_FILE_NAME_LEN. lia. Qed.

(** The entry of a node whose name fits its field. *)
Lemma dirent_of_fits nd :
  (String.length (name nd) ≤ 255)%nat →
  dirent_of nd = Dirent (name nd) (ino nd) (if is_dir nd then DT_DIR else DT_REG).
Proof.
  intros Hn. unfold dirent_of. f_equal. apply str_prefix_all.
  unfold strnlen, VTFS_FILE_NAME_LEN. lia.
Qed.

(** The listing after a node was put at the head of the children. *)
Lemma listing_push (h : heap) pa pn l a nd m si pi r :
  h !! pa = Some pn → chain h (first_child pn) l →
  Z.of_nat (length l) + 1 < 2 ^ 32 → h !! a = None →
  next_sibling nd = first_child pn → S_ISDIR m = true →
  (String.length (name nd) ≤ 255)%nat →
  let listing := Dirent "." si DT_DIR :: Dirent ".." pi DT_DIR
                   :: Dirent (name nd) (ino nd) (if is_dir nd then DT_DIR else DT_REG)
                   :: (dirent_of <$> nodes_at h l) in
  vtfs_iterate (<[pa := set_first_child pn (Some a)]> (<[a := nd]> h))
    m (Some pa) 0 r si pi
  = Some (0, take r listing, Z.of_nat (length (take r listing))).
Proof.
  intros Hpa Hl Hlen Ha Hnext Hm Hname listing.
  assert (a ≠ pa) as Hne by congruence.
  destruct (chain_push h pa pn l a nd Hpa Hl Ha Hnext) as [Hl1 _].
  set (h1 := <[pa := _]> _) in *.
  pose proof (vtfs_iterate_at h1 m pa (set_first_child pn (Some a)) (a :: l)
                si pi 0 r Hm) as Hit.
  cbv zeta in Hit. change (Z.of_nat 0) with 0 in Hit.
  rewrite Hit; [|subst h1; by heap_simpl|done|simpl length; lia|lia].
  rewrite !drop_0, Z.add_0_l.
  rewrite (nodes_at_cons h1 a nd l) by (subst h1; by heap_simpl).
  rewrite fmap_cons, dirent_of_fits by done.
  rewrite (nodes_at_fmap_ext dirent_of h h1 l); [done|].
  intros b Hb. assert (b ≠ a) as Hba.
  { intros ->. destruct (chain_lookup h _ l a Hl Hb) as [x Hx]. congruence. }
  subst h1. destruct (decide (b = pa)) as [->|]; by heap_simpl.
Qed.

(** X14.  A file just created is listed first among the children: a
    listing from cursor 0 gives ".", "..", then the new entry, with the
    name as stored, the inode number taken from the counter and type
    [DT_REG], then the former entries in their former order. *)
Theorem create_is_listed_first (h : heap) n pa pn l nm md a m si pi r :
  h !! pa = Some pn → chain h (first_child pn) l →
  Z.of_nat (length l) + 1 < 2 ^ 32 → h !! a = None → S_ISDIR m = true →
  let listing := Dirent "." si DT_DIR :: Dirent ".." pi DT_DIR
                   :: Dirent (strscpy nm VTFS_FILE_NAME_LEN) n DT_REG
                   :: (dirent_of <$> nodes_at h l) in
  ∃ h1,
    vtfs_create h n (Some pa) nm md (Some a) true = Some (0, h1, to_u64 (n + 1)) ∧
    vtfs_iterate h1 m (Some pa) 0 r si pi
      = Some (0, take r listing, Z.of_nat (length (take r listing))).
Proof.
  intros Hpa Hl Hlen Ha Hm listing.
  eexists. split; [by apply vtfs_create_ok|].
  apply (listing_push h pa pn l a (fresh_node nm false md n pa (first_child pn)));
    try done.
  simpl. pose proof (length_strscpy nm). lia.
Qed.

(** X15.  [vtfs_link] refuses a directory inode with [-EPERM] and reports
    [-ENOMEM] when there is no memory for the node; nothing changes then.
    Otherwise it returns 0 and the new node is the first child of the
    directory: a file node without a block of its own, with the inode
    number and the mode of the node linked to.  No node but the new one
    and the directory changes, and a listing of the directory shows the
    new name first, with the inode number of the old one. *)
Theorem link_adds_a_name (h : heap) m o on pa pn l nm a :
  h !! o = Some on → h !! pa = Some pn → chain h (first_child pn) l →
  Z.of_nat (length l) + 1 < 2 ^ 32 →
  (∀ kz, S_ISDIR m = true →
     vtfs_link h m (Some o) (Some pa) nm kz = Some (- EPERM, h)) ∧
  (S_ISDIR m = false →
     vtfs_link h m (Some o) (Some pa) nm None = Some (- ENOMEM, h)) ∧
  (S_ISDIR m = false → h !! a = None →
   ∃ h1 new,
     vtfs_link h m (Some o) (Some pa) nm (Some a) = Some (0, h1) ∧
     h1 !! a = Some new ∧
     name new = strscpy nm VTFS_FILE_NAME_LEN ∧
     ino new = ino on ∧ mode new = mode on ∧ is_dir new = false ∧
     data new = None ∧ parent new = Some pa ∧
     h1 !! pa = Some (set_first_child pn (Some a)) ∧
     chain h1 (Some a) (a :: l) ∧
     (∀ b, b ≠ a → b ≠ pa → h1 !! b = h !! b) ∧
     ∀ md si pi r, S_ISDIR md = true →
       let listing := Dirent "." si DT_DIR :: Dirent ".." pi DT_DIR
                        :: Dirent (strscpy nm VTFS_FILE_NAME_LEN) (ino on) DT_REG
                        :: (dirent_of <$> nodes_at h l) in
       vtfs_iterate h1 md (Some pa) 0 r si pi
       = Some (0, take r listing, Z.of_nat (length (take r listing)))).
Proof.
  intros Ho Hpa Hl Hlen. split; [|split].
  - intros kz Hm. unfold vtfs_link. by rewrite Hm.
  - intros Hm. unfold vtfs_link. rewrite Hm, Ho. done.
  - intros Hm Ha. assert (a ≠ pa) as Hapa by congruence.
    assert (a ≠ o) as Hao by congruence.
    set (new := mk_node (strscpy nm VTFS_FILE_NAME_LEN) (ino on) false (mode on)
                  (Some pa) None (first_child pn)
                  (Some (match link_target on with Some t => t | None => o end))
                  None 0 0).
    exists (<[pa := set_first_child pn (Some a)]> (<[a := new]> h)), new.
    split; [unfold vtfs_link; rewrite Hm, Ho; simpl; unfold store; by heap_simpl|].
    split; [by heap_simpl|]. do 6 (split; [done|]).
    split; [by heap_simpl|].
    split; [by apply (chain_push h pa pn l a new)|].
    split; [intros b Hb1 Hb2; by heap_simpl|].
    intros md si pi r Hmd.
    apply (listing_push h pa pn l a new); try done.
    simpl. pose proof (length_strscpy nm). lia.
Qed.

(** ** Inode numbers, inodes and eviction *)

Lemma inos_below_push (h : heap) n pa pn a nd :
  inos_below h n → h !! pa = Some pn → 0 ≤ ino nd ≤ n →
  inos_below (<[pa := set_first_child pn (Some a)]> (<[a := nd]> h)) (n + 1).
Proof.
  intros Hinv Hpa Hnd b x Hb.
  destruct (decide (b = pa)) as [->|Hbpa].
  - rewrite lookup_insert_eq in Hb. injection Hb as <-. simpl.
    pose proof (Hinv pa pn Hpa). lia.
  - rewrite lookup_insert_ne in Hb by done.
    destruct (decide (b = a)) as [->|Hba].
    + rewrite lookup_insert_eq in Hb. injection Hb as <-. lia.
    + rewrite lookup_insert_ne in Hb by done. pose proof (Hinv b x Hb). lia.
Qed.

(** X16.  Inode numbers are not handed out twice.  When every number in
    use is below the counter, and the counter is not at the end of its 64
    bits, the number a new file or directory gets is in use nowhere else,
    the counter moves one past it, and every number in use is again below
    the counter. *)
Theorem inode_numbers_stay_fresh fuel (h : heap) n pa pn l nm md a :
  inos_below h n → 0 ≤ n → n + 1 < 2 ^ 64 →
  h !! pa = Some pn → chain h (first_child pn) l → (length l < fuel)%nat →
  h !! a = None →
  (∀ b nd, h !! b = Some nd → ino nd ≠ n) ∧
  (∃ h1, vtfs_create h n (Some pa) nm md (Some a) true = Some (0, h1, n + 1) ∧
         ino <$> h1 !! a = Some n ∧ inos_below h1 (n + 1)) ∧
  (nm ∉ name <$> nodes_at h l →
   ∃ h1, vtfs_mkdir fuel h n (Some pa) nm md (Some a) true = Some (0, h1, n + 1) ∧
         ino <$> h1 !! a = Some n ∧ inos_below h1 (n + 1)).
Proof.
  intros Hinv Hn Hmax Hpa Hl Hf Ha. assert (a ≠ pa) as Hne by congruence.
  assert (to_u64 (n + 1) = n + 1) as Hu
    by (unfold to_u64; apply Z.mod_small; lia).
  split; [|split].
  - intros b nd Hb. pose proof (Hinv b nd Hb). lia.
  - eexists. rewrite <- Hu. split; [by apply vtfs_create_ok|].
    split; [by heap_simpl|]. rewrite Hu. apply inos_below_push; simpl; (done || lia).
  - intros Hnm. eexists. rewrite <- Hu.
    split; [by apply (vtfs_mkdir_ok fuel h n pa pn l)|].
    split; [by heap_simpl|]. rewrite Hu. apply inos_below_push; simpl; (done || lia).
Qed.

(** X17.  Eviction of the node that owns the bytes leaves its aliases
    dangling.  After [vtfs_link] to a file, [vtfs_unlink] of the file and
    [vtfs_evict_inode] on it with link count 0, the alias is still the
    first child of its directory and a lookup of its name finds it, but
    its link target is freed memory: a read or a write through the alias,
    or opening it with [O_TRUNC], is an access to freed memory. *)
Theorem alias_dangles_after_eviction fuel (h : heap) m o on pa pn l nm a :
  h !! o = Some on → link_target on = None → is_dir on = false →
  S_ISDIR m = false → h !! pa = Some pn → o ≠ pa →
  chain h (first_child pn) l → o ∈ l → (S (length l) < fuel)%nat →
  h !! a = None →
  ∃ h1 h2 h3,
    vtfs_link h m (Some o) (Some pa) nm (Some a) = Some (0, h1) ∧
    vtfs_unlink fuel h1 (Some pa) (Some o) = Some (0, h2) ∧
    vtfs_evict_inode h2 (Some o) 0 = Some (h3, None) ∧
    vtfs_lookup fuel h3 (Some pa) (strscpy nm VTFS_FILE_NAME_LEN) true
      = Some (0, Some a) ∧
    (∀ len pos ua, vtfs_read h3 (Some a) len pos ua = None) ∧
    (∀ isz (o_append : bool) buf ppos env,
       vtfs_write h3 (Some a) isz o_append buf ppos env = None) ∧
    (∀ isz, vtfs_open h3 (Some a) isz true = None).
Proof.
  intros Ho Hown Hdir Hm Hpa Hopa Hl Hin Hf Ha.
  assert (a ≠ pa) as Hapa by congruence.
  assert (a ≠ o) as Hao by congruence.
  set (new := mk_node (strscpy nm VTFS_FILE_NAME_LEN) (ino on) false (mode on)
                (Some pa) None (first_child pn) (Some o) None 0 0).
  set (h1 := <[pa := set_first_child pn (Some a)]> (<[a := new]> h)).
  assert (vtfs_link h m (Some o) (Some pa) nm (Some a) = Some (0, h1)) as Hlink.
  { unfold vtfs_link. rewrite Hm, Ho. simpl. unfold store. heap_simpl.
    by rewrite Hown. }
  destruct (chain_push h pa pn l a new Hpa Hl Ha eq_refl) as [Hl1 _].
  fold h1 in Hl1.
  assert (h1 !! pa = Some (set_first_child pn (Some a))) as Hpa1
    by (unfold h1; by heap_simpl).
  assert (h1 !! o = Some on) as Ho1 by (unfold h1; by heap_simpl).
  apply list_elem_of_split in Hin as (l1 & l2 & ->).
  rewrite length_app in Hf. simpl in Hf.
  destruct (detach_unlinks fuel h1 pa (set_first_child pn (Some a)) o on
              (a :: l1) l2 Hpa1 Ho1 Hopa Hl1 ltac:(simpl; lia))
    as (h2 & pn2 & Hd & Hpa2 & Hl2 & Ho2 & Hpay & _).
  assert (∃ an, h2 !! a = Some an ∧ name an = name new ∧
                link_target an = Some o) as (an & Ha2 & Hname & Hlt).
  { pose proof (Hpay a) as Hp. unfold h1 in Hp.
    rewrite lookup_insert_ne, lookup_insert_eq in Hp by done.
    destruct (h2 !! a) as [an|]; [|done]. exists an. split; [done|].
    pose proof (f_equal (fmap name) Hp) as Hp1.
    pose proof (f_equal (fmap link_target) Hp) as Hp2.
    simpl in Hp1, Hp2. injection Hp1 as Hp1. injection Hp2 as Hp2. done. }
  exists h1, h2, (delete o h2). split; [done|]. split; [|split].
  - unfold vtfs_unlink. rewrite Ho1. simpl. rewrite Hdir, Hpa1. simpl.
    simpl in Hd. by rewrite Hd.
  - unfold vtfs_evict_inode. by rewrite Ho2.
  - assert (delete o h2 !! a = Some an) as Ha3 by by heap_simpl.
    assert (vtfs_data_node (delete o h2) (Some a) = Some o) as Hdn
      by (simpl; rewrite Ha3; simpl; by rewrite Hlt).
    split; [|split; [|split]].
    + unfold vtfs_lookup. rewrite lookup_delete_ne, Hpa2 by done. simpl.
      assert (chain (delete o h2) (first_child pn2) ((a :: l1) ++ l2)) as Hl3.
      { apply (lseg_ext h2); [|done]. intros b Hb.
        assert (b ≠ o); [|by heap_simpl]. intros ->.
        pose proof (chain_NoDup _ _ _ Hl1) as Hnd.
        change (a :: l1 ++ o :: l2) with ((a :: l1) ++ o :: l2) in Hnd.
        apply NoDup_app in Hnd as (_ & Hn1 & Hnd2).
        apply NoDup_cons in Hnd2 as [Hn2 _].
        apply elem_of_app in Hb as [Hb|Hb]; [|done].
        apply (Hn1 o Hb). by left. }
      rewrite (find_child_chain fuel _ _ ((a :: l1) ++ l2) _ Hl3)
        by (simpl; rewrite length_app; lia).
      unfold first_named. simpl.
      rewrite filter_cons_True by (by rewrite Ha3; simpl; rewrite Hname).
      done.
    + intros len pos ua. unfold vtfs_read. rewrite Hdn. simpl.
      by rewrite lookup_delete_eq.
    + intros isz o_append buf ppos env. unfold vtfs_write. rewrite Hdn. simpl.
      by rewrite lookup_delete_eq.
    + intros isz. unfold vtfs_open, store. rewrite Hdn. simpl.
      by rewrite lookup_delete_eq.
Qed.

(** X18.  A file just created is empty and ready for use: a read at any
    offset from 0 on returns 0 bytes, and the first write at offset 0,
    given memory and a readable user buffer, is in full, makes the length
    of the buffer the size of the file and the new position, and is what a
    read from offset 0 then delivers. *)
Theorem created_file_is_empty_and_writable (h : heap) n pa pn nm md a :
  h !! pa = Some pn → h !! a = None →
  ∃ h1,
    vtfs_create h n (Some pa) nm md (Some a) true = Some (0, h1, to_u64 (n + 1)) ∧
    (∀ len pos ua, 0 ≤ pos →
       vtfs_read h1 (Some a) len pos ua = Some (ReadResult 0 [] pos)) ∧
    (∀ isz buf env ua,
       krealloc_ok env = true → (0 < length buf ≤ uaccess1 env)%nat →
       Z.of_nat (length buf) ≤ LLONG_MAX → (length buf ≤ ua)%nat →
       ∃ w r,
         vtfs_write h1 (Some a) isz false buf 0 env = Some w ∧
         w_ret w = Z.of_nat (length buf) ∧
         w_isize w = Z.of_nat (length buf) ∧
         w_pos w = Z.of_nat (length buf) ∧
         vtfs_read (w_heap w) (Some a) (Z.of_nat (length buf)) 0 ua = Some r ∧
         r_ret r = Z.of_nat (length buf) ∧ r_out r = buf).
Proof.
  intros Hpa Ha. assert (a ≠ pa) as Hne by congruence.
  eexists. split; [by apply vtfs_create_ok|].
  set (fr := fresh_node nm false md n pa (first_child pn)).
  set (h1 := <[pa := _]> _).
  assert (h1 !! a = Some fr) as Ha1 by (subst h1; by heap_simpl).
  assert (vtfs_data_node h1 (Some a) = Some a) as Hdn by (simpl; by rewrite Ha1).
  assert (buffer_ok fr) as Hok by (unfold buffer_ok, SIZE_MAX; simpl; lia).
  split.
  - intros len pos ua Hpos. unfold vtfs_read. rewrite Hdn. simpl. rewrite Ha1.
    simpl. by destruct (Z.ltb_spec pos 0); [lia|].
  - intros isz buf env ua Hmem [Hlen Hua1] Hmax Hua.
    destruct (vtfs_write_in_full h1 (Some a) a fr isz buf 0 env Hdn Ha1 Hok)
      as (w & Hw & Hret); try done; try lia.
    destruct (written_then_read h1 (Some a) a fr isz false buf 0 env w ua
                Hdn Ha1 Hok Hw Hret Hlen Hua)
      as (_ & _ & Hwpos & Hisz & r & Hr & Hrr & Hout).
    unfold LLONG_MAX in Hmax. rewrite Z.add_0_l in Hwpos, Hisz.
    rewrite to_s64_id in Hwpos by lia. simpl in Hisz.
    exists w, r. split; [done|]. split; [done|]. split; [lia|]. done.
Qed.

Lemma S_ISDIR_lor md : Z.land md S_IFMT = 0 → S_ISDIR (Z.lor md S_IFDIR) = true.
Proof.
  intros E. unfold S_ISDIR. by rewrite Z.land_lor_distr_l, E, Z.lor_0_l.
Qed.

(** X19.  A directory just made is a directory to the kernel and is empty.
    For a mode without type bits, the inode [vtfs_get_inode] builds for
    the new node has the number taken from the counter, link count 2, the
    directory operations and a mode that [S_ISDIR] accepts; a listing of
    it from cursor 0 gives the two dot entries and nothing else, and a
    lookup of any name in it finds nothing.  No inode at all is built when
    the kernel has none to give. *)
Theorem new_directory_is_empty fuel (h : heap) n pa pn l nm md a :
  h !! pa = Some pn → chain h (first_child pn) l → (length l < fuel)%nat →
  nm ∉ name <$> nodes_at h l → h !! a = None → Z.land md S_IFMT = 0 →
  ∃ h1 i,
    vtfs_mkdir fuel h n (Some pa) nm md (Some a) true = Some (0, h1, to_u64 (n + 1)) ∧
    vtfs_get_inode h1 a false = Some None ∧
    vtfs_get_inode h1 a true = Some (Some i) ∧
    i_ino i = n ∧ i_nlink i = 2 ∧ i_dir_ops i = true ∧ i_private i = Some a ∧
    S_ISDIR (i_mode i) = true ∧
    (∀ r si pi,
       vtfs_iterate h1 (i_mode i) (i_private i) 0 r si pi
       = Some (0, take r [Dirent "." si DT_DIR; Dirent ".." pi DT_DIR],
               Z.of_nat (Nat.min r 2))) ∧
    (∀ nm' iok, vtfs_lookup fuel h1 (Some a) nm' iok = Some (0, None)).
Proof.
  intros Hpa Hl Hf Hnm Ha Hmd. assert (a ≠ pa) as Hne by congruence.
  eexists _, _. split; [by apply (vtfs_mkdir_ok fuel h n pa pn l)|].
  set (fr := fresh_node nm true md n pa (first_child pn)).
  set (h1 := <[pa := _]> _).
  assert (h1 !! a = Some fr) as Ha1 by (subst h1; by heap_simpl).
  assert (S_ISDIR (mode fr) = true) as Hdir.
  { simpl. rewrite Hmd. simpl. by apply S_ISDIR_lor. }
  split; [done|]. unfold vtfs_get_inode. rewrite Ha1. simpl.
  split; [done|]. do 4 (split; [done|]). split; [exact Hdir|]. split.
  - intros r si pi.
    pose proof (vtfs_iterate_at h1 (mode fr) a fr [] si pi 0 r Hdir Ha1
                  (lseg_nil h1 None) ltac:(simpl; lia) ltac:(simpl; lia)) as Hit.
    cbv zeta in Hit. change (Z.of_nat 0) with 0 in Hit.
    rewrite drop_0 in Hit. simpl fmap in Hit.
    simpl mode in Hit. cbn [i_mode i_private]. rewrite Hit, length_take.
    simpl length. do 2 f_equal.
  - intros nm' iok. unfold vtfs_lookup. rewrite Ha1. simpl. by destruct fuel.
Qed.

(** ** Teardown *)

Lemma lookup_freed (h : heap) l b :
  freed h l !! b = if decide (b ∈ l) then None else h !! b.
Proof.
  unfold freed. induction l as [|c l IH]; cbn [foldr].
  - case_decide as Hin; [exfalso; by eapply not_elem_of_nil|done].
  - destruct (decide (b = c)) as [->|Hne].
    + rewrite lookup_delete_eq.
      destruct (decide (c ∈ c :: l)) as [|Hin]; [done|].
      exfalso. apply Hin. by left.
    + rewrite lookup_delete_ne, IH by done.
      destruct (decide (b ∈ l)) as [Hin|Hout],
               (decide (b ∈ c :: l)) as [Hin'|Hout']; try done.
      * exfalso. apply Hout'. by right.
      * by apply elem_of_cons in Hin' as [?|?].
Qed.

Lemma freed_app (h : heap) l1 l2 : freed (freed h l1) l2 = freed h (l1 ++ l2).
Proof.
  apply map_eq. intros b. rewrite !lookup_freed.
  destruct (decide (b ∈ l2)) as [H2|H2], (decide (b ∈ l1)) as [H1|H1].
  - rewrite decide_True by (apply elem_of_app; by left). done.
  - rewrite decide_True by (apply elem_of_app; by right). done.
  - rewrite decide_True by (apply elem_of_app; by left). done.
  - rewrite decide_False; [done|]. by intros [?|?]%elem_of_app.
Qed.

Lemma tree_at_head (h : heap) a l : tree_at h a l → ∃ l', l = a :: l'.
Proof. inversion 1; subst. by eexists. Qed.

(** Freeing a subtree, in any memory that holds the nodes of the subtree
    as [h] does. *)
Lemma free_subtree (h : heap) a l :
  tree_at h a l →
  ∀ h' fuel, (∀ b, b ∈ l → h' !! b = h !! b) → NoDup l →
    (2 * length l ≤ S fuel)%nat →
    vtfs_free_node_recursive fuel h' (Some a) = Some (freed h' l).
Proof.
  intros Ht.
  apply (tree_at_mut h
    (λ a l, ∀ h' fuel, (∀ b, b ∈ l → h' !! b = h !! b) → NoDup l →
       (2 * length l ≤ S fuel)%nat →
       vtfs_free_node_recursive fuel h' (Some a) = Some (freed h' l))
    (λ p l, ∀ h' fuel, (∀ b, b ∈ l → h' !! b = h !! b) → NoDup l →
       (2 * length l ≤ fuel)%nat →
       free_children fuel h' p = Some (freed h' l))); [| |  |exact Ht].
  - clear a l Ht. intros a nd l Ha _ IH h' fuel Hag Hnd Hf.
    apply NoDup_cons in Hnd as [Hal Hnd].
    destruct fuel as [|f]; [simpl in Hf; lia|].
    cbn -[freed]. rewrite (Hag a ltac:(left)), Ha. cbn -[freed].
    rewrite (IH h' f); [|intros b Hb; apply Hag; by right|done|simpl in Hf; lia].
    cbn -[freed]. rewrite lookup_freed, decide_False by done.
    rewrite (Hag a ltac:(left)), Ha. done.
  - intros h' fuel _ _ _. by destruct fuel.
  - clear a l Ht. intros c cn l1 l2 Hc Ht1 IH1 _ IH2 h' fuel Hag Hnd Hf.
    destruct (tree_at_head h c l1 Ht1) as (l1' & ->).
    apply NoDup_app in Hnd as (Hnd1 & Hdisj & Hnd2).
    rewrite length_app in Hf. simpl in Hf.
    destruct fuel as [|f]; [lia|].
    cbn -[freed]. rewrite (Hag c ltac:(left)), Hc. cbn -[freed].
    rewrite (IH1 h' f);
      [|intros b Hb; apply Hag, elem_of_app; by left|done|simpl; lia].
    cbn -[freed].
    rewrite (IH2 (freed h' (c :: l1')) f); [by rewrite freed_app| |done|lia].
    intros b Hb. rewrite lookup_freed, decide_False.
    + apply Hag, elem_of_app. by right.
    + intros Hb1. by apply (Hdisj b Hb1).
Qed.

(** X20.  [vtfs_free_node_recursive] on a tree in which no node occurs
    twice frees every node of the tree, each once and none after it was
    freed, and nothing else: a node outside the tree, such as one that was
    unlinked and not evicted, is still allocated afterwards. *)
Theorem teardown_frees_the_tree fuel (h : heap) root l :
  tree_at h root l → NoDup l → (2 * length l ≤ fuel)%nat →
  ∃ h', vtfs_free_node_recursive fuel h (Some root) = Some h' ∧
        (∀ b, b ∈ l → h' !! b = None) ∧
        (∀ b, b ∉ l → h' !! b = h !! b).
Proof.
  intros Ht Hnd Hf. exists (freed h l).
  split; [apply (free_subtree h root l Ht); (done || lia)|].
  split; intros b Hb; rewrite lookup_freed.
  - by rewrite decide_True.
  - by rewrite decide_False.
Qed.

(** ** More runs on the small file system *)

Lemma small_fs_no_n : "n"%string ∉ name <$> nodes_at small_fs [2%positive; 3%positive].
Proof.
  rewrite small_fs_names. intros Hin.
  apply elem_of_cons in Hin as [Hin|Hin]; [discriminate|].
  apply elem_of_cons in Hin as [Hin|Hin]; [discriminate|].
  by apply elem_of_nil in Hin.
Defined.

Lemma small_fs_inos : inos_below small_fs 4.
Proof.
  intros a nd Ha. unfold small_fs in Ha.
  destruct (decide (a = 1%positive)) as [->|H1].
  { rewrite lookup_insert_eq in Ha. injection Ha as <-. simpl. lia. }
  rewrite lookup_insert_ne in Ha by done.
  destruct (decide (a = 2%positive)) as [->|H2].
  { rewrite lookup_insert_eq in Ha. injection Ha as <-. simpl. lia. }
  rewrite lookup_insert_ne in Ha by done.
  destruct (decide (a = 3%positive)) as [->|H3].
  { rewrite lookup_insert_eq in Ha. injection Ha as <-. simpl. lia. }
  rewrite lookup_insert_ne in Ha by done. by rewrite lookup_empty in Ha.
Defined.

Lemma dir_fs_children :
  chain dir_fs (first_child (set_first_child root_dir (Some 4%positive)))
    [4%positive; 2%positive; 3%positive].
Proof.
  unfold chain. simpl.
  apply (lseg_cons _ _ dir_d); [reflexivity|].
  apply (lseg_cons _ _ file_f); [reflexivity|].
  apply (lseg_cons _ _ file_g); [reflexivity|].
  apply lseg_nil.
Defined.

Lemma small_fs_tree : tree_at small_fs 1%positive [1%positive; 2%positive; 3%positive].
Proof.
  apply (tree_node _ _ root_dir); [reflexivity|]. simpl.
  apply (forest_cons _ _ file_f [2%positive] [3%positive]); [reflexivity| |].
  - apply (tree_node _ _ file_f); [reflexivity|]. apply forest_nil.
  - apply (forest_cons _ _ file_g [3%positive] []); [reflexivity| |].
    + apply (tree_node _ _ file_g); [reflexivity|]. apply forest_nil.
    + apply forest_nil.
Defined.

(** One byte for "g" at offset 6. *)
Lemma write_keeps_buffer_ok_witness :
  ∃ w nd',
    vtfs_write small_fs (Some 3%positive) 4 false [x0a] 6 kind_env = Some w ∧
    w_heap w !! 3%positive = Some nd' ∧ buffer_ok nd' ∧
    size file_g ≤ size nd' ∧ capacity file_g ≤ capacity nd'.
Proof.
  exact (write_keeps_buffer_ok small_fs (Some 3%positive) 3%positive file_g 4 false
           [x0a] 6 kind_env eq_refl eq_refl buffer_ok_file_g).
Defined.

(** The same write leaves the root and "f" as they are. *)
Lemma write_changes_only_the_buffer_witness :
  ∃ w,
    vtfs_write small_fs (Some 3%positive) 4 false [x0a] 6 kind_env = Some w ∧
    (∀ b, b ≠ 3%positive → w_heap w !! b = small_fs !! b) ∧
    (∃ d' sz' c', w_heap w !! 3%positive = Some (set_buffer file_g d' sz' c')) ∧
    (∀ p, vtfs_data_node (w_heap w) p = vtfs_data_node small_fs p) ∧
    (w_ret w ≤ 0 → w_ret w ≠ - EFAULT → w_heap w = small_fs).
Proof.
  eexists.
  assert (vtfs_write small_fs (Some 3%positive) 4 false [x0a] 6 kind_env = Some _)
    as Hw by reflexivity.
  split; [exact Hw|].
  exact (write_changes_only_the_buffer small_fs (Some 3%positive) 3%positive file_g
           4 false [x0a] 6 kind_env _ eq_refl eq_refl buffer_ok_file_g
           ltac:(unfold LLONG_MAX; simpl; lia) Hw).
Defined.

(** One byte for "g" at offset 1; bytes 2 and 3 read as before. *)
Lemma write_keeps_other_bytes_witness :
  ∃ w,
    vtfs_write small_fs (Some 3%positive) 4 false [x0a] 1 kind_env = Some w ∧
    vtfs_read (w_heap w) (Some 3%positive) 2 2 2
    = vtfs_read small_fs (Some 3%positive) 2 2 2.
Proof.
  eexists.
  assert (vtfs_write small_fs (Some 3%positive) 4 false [x0a] 1 kind_env = Some _)
    as Hw by reflexivity.
  split; [exact Hw|].
  exact (write_keeps_other_bytes small_fs (Some 3%positive) 3%positive file_g
           4 false [x0a] 1 kind_env _ eq_refl eq_refl buffer_ok_file_g Hw
           2 2 2%nat ltac:(lia) ltac:(lia) ltac:(simpl; lia)
           ltac:(right; simpl; lia) ltac:(simpl; lia)).
Defined.

(** Two bytes appended to "g", the caller's position being 0. *)
Lemma append_goes_to_the_end_witness :
  ∃ w nd' r,
    vtfs_write small_fs (Some 3%positive) 4 true [x0a; x0b] 0 kind_env = Some w ∧
    w_heap w !! 3%positive = Some nd' ∧
    size nd' = 4 + 2 ∧ w_isize w = 4 + 2 ∧ w_pos w = 6 ∧
    vtfs_read (w_heap w) (Some 3%positive) 2 4 2 = Some r ∧
    r_ret r = 2 ∧ r_out r = [x0a; x0b].
Proof.
  eexists.
  assert (vtfs_write small_fs (Some 3%positive) 4 true [x0a; x0b] 0 kind_env = Some _)
    as Hw by reflexivity.
  destruct (append_goes_to_the_end small_fs (Some 3%positive) 3%positive file_g
              4 [x0a; x0b] 0 kind_env _ 2%nat eq_refl eq_refl buffer_ok_file_g
              ltac:(unfold LLONG_MAX; simpl; lia) Hw eq_refl
              ltac:(simpl; lia) ltac:(simpl; lia))
    as (nd' & r & Hnd' & Hsz & Hisz & Hpos & Hr & Hrr & Hout).
  exists nd', r. split; [exact Hw|]. split; [exact Hnd'|]. split; [exact Hsz|].
  split; [exact Hisz|]. split; [exact Hpos|]. split; [exact Hr|].
  split; [exact Hrr|exact Hout].
Defined.

(** "g" opened with [O_TRUNC]. *)
Lemma open_trunc_empties_the_file_witness :
  vtfs_open small_fs (Some 3%positive) 4 false = Some (0, small_fs, 4) ∧
  ∃ h' nd',
    vtfs_open small_fs (Some 3%positive) 4 true = Some (0, h', 0) ∧
    (∀ b, b ≠ 3%positive → h' !! b = small_fs !! b) ∧
    h' !! 3%positive = Some nd' ∧ buffer_ok nd' ∧
    data nd' = None ∧ size nd' = 0 ∧ capacity nd' = 0 ∧
    ∀ ip2 len pos ua, vtfs_data_node small_fs ip2 = Some 3%positive → 0 ≤ pos →
      vtfs_read h' ip2 len pos ua = Some (ReadResult 0 [] pos).
Proof.
  exact (open_trunc_empties_the_file small_fs (Some 3%positive) 3%positive file_g 4
           eq_refl eq_refl eq_refl).
Defined.

(** "g" read from offset 1 in pieces of 2 and 5 bytes. *)
Lemma reads_tile_witness :
  ∃ r1 r2 r,
    vtfs_read small_fs (Some 3%positive) 2 1 7 = Some r1 ∧
    vtfs_read small_fs (Some 3%positive) 5 (r_pos r1) 7 = Some r2 ∧
    vtfs_read small_fs (Some 3%positive) (2 + 5) 1 7 = Some r ∧
    r_out r = r_out r1 ++ r_out r2 ∧
    r_ret r = r_ret r1 + r_ret r2 ∧
    r_pos r = r_pos r2.
Proof.
  exact (reads_tile small_fs (Some 3%positive) 3%positive file_g 1 2 5 7%nat
           eq_refl eq_refl eq_refl buffer_ok_file_g
           ltac:(unfold LLONG_MAX; simpl; lia) ltac:(lia) ltac:(lia) ltac:(lia)
           ltac:(simpl; lia)).
Defined.

(** Eight bytes asked of "g" at offset 1, into a buffer that takes three. *)
Lemma read_stays_within_the_file_witness :
  ∃ r, vtfs_read small_fs (Some 3%positive) 8 1 3 = Some r ∧
    ((1 < 0 ∧ r_ret r = - EINVAL ∧ r_out r = [] ∧ r_pos r = 1) ∨
     (0 ≤ 1 ∧ Z.of_nat 3 < 3 ∧ r_ret r = - EFAULT ∧ r_pos r = 1) ∨
     (0 ≤ 1 ∧ 3 ≤ Z.of_nat 3 ∧ r_ret r = 3 ∧
      r_out r = take (Z.to_nat 3) (drop (Z.to_nat 1) (default [] (data file_g))) ∧
      Z.of_nat (length (r_out r)) = 3 ∧ 1 + 3 ≤ Z.max 1 (size file_g) ∧
      r_pos r = 1 + 3)).
Proof.
  exact (read_stays_within_the_file small_fs (Some 3%positive) 3%positive file_g
           8 1 3%nat eq_refl eq_refl eq_refl buffer_ok_file_g
           ltac:(unfold LLONG_MAX; simpl; lia) ltac:(lia)).
Defined.

(** Looking up "n" and "g" in the root. *)
Lemma lookup_first_match_witness :
  vtfs_lookup 8 small_fs (Some 1%positive) "n" true = Some (0, None) ∧
  vtfs_lookup 8 small_fs (Some 1%positive) "g" true = Some (0, Some 3%positive).
Proof.
  destruct (lookup_first_match 8 small_fs 1%positive root_dir
              [2%positive; 3%positive] "n" true
              eq_refl small_fs_children ltac:(simpl; lia)) as [Hmiss _].
  destruct (lookup_first_match 8 small_fs 1%positive root_dir
              [2%positive; 3%positive] "g" true
              eq_refl small_fs_children ltac:(simpl; lia)) as [_ Hhit].
  split; [exact (Hmiss small_fs_no_n)|].
  apply (Hhit [2%positive] 3%positive file_g []); [reflexivity..|].
  intros Hin. apply elem_of_cons in Hin as [Hin|Hin]; [discriminate|].
  by apply elem_of_nil in Hin.
Defined.

(** A second file "f" in the root. *)
Lemma create_then_lookup_witness :
  ∃ h1,
    vtfs_create small_fs 4 (Some 1%positive) "f" 0 (Some 4%positive) true
      = Some (0, h1, to_u64 (4 + 1)) ∧
    h1 !! 1%positive = Some (set_first_child root_dir (Some 4%positive)) ∧
    chain h1 (Some 4%positive) [4%positive; 2%positive; 3%positive] ∧
    h1 !! 4%positive
      = Some (fresh_node "f" false 0 4 1%positive (first_child root_dir)) ∧
    (∀ b, b ≠ 4%positive → b ≠ 1%positive → h1 !! b = small_fs !! b) ∧
    vtfs_lookup 8 h1 (Some 1%positive) (strscpy "f" VTFS_FILE_NAME_LEN) true
      = Some (0, Some 4%positive) ∧
    ((String.length "f" < 255)%nat →
     vtfs_lookup 8 h1 (Some 1%positive) "f" true = Some (0, Some 4%positive)).
Proof.
  exact (create_then_lookup 8 small_fs 4 1%positive root_dir
           [2%positive; 3%positive] "f" 0 4%positive
           eq_refl small_fs_children ltac:(simpl; lia) eq_refl).
Defined.

(** Removing the empty directory "d". *)
Lemma rmdir_detaches_empty_directory_witness :
  ∃ h' pn' l1 l2,
    vtfs_rmdir 8 dir_fs (Some 1%positive) (Some 4%positive) = Some (0, h') ∧
    [4%positive; 2%positive; 3%positive] = l1 ++ 4%positive :: l2 ∧
    h' !! 1%positive = Some pn' ∧ chain h' (first_child pn') (l1 ++ l2) ∧
    h' !! 4%positive = Some (set_next_sibling (set_parent dir_d None) None) ∧
    (∀ b, payload <$> h' !! b = payload <$> dir_fs !! b).
Proof.
  apply (proj2 (proj2 (proj2
           (rmdir_detaches_empty_directory 8 dir_fs 1%positive
              (set_first_child root_dir (Some 4%positive)) 4%positive dir_d
              [4%positive; 2%positive; 3%positive]
              eq_refl eq_refl dir_fs_children ltac:(simpl; lia))))).
  - reflexivity.
  - reflexivity.
  - apply list_elem_of_here.
  - discriminate.
Defined.

(** A file "n" made in the root, unlinked and evicted. *)
Lemma create_unlink_evict_restores_witness :
  ∃ h1 h2,
    vtfs_create small_fs 4 (Some 1%positive) "n" 0 (Some 4%positive) true
      = Some (0, h1, to_u64 (4 + 1)) ∧
    vtfs_unlink 8 h1 (Some 1%positive) (Some 4%positive) = Some (0, h2) ∧
    h2 = <[4%positive := set_next_sibling (set_parent
             (fresh_node "n" false 0 4 1%positive (first_child root_dir)) None) None]>
           small_fs ∧
    (∀ k, k ≠ 0 → vtfs_evict_inode h2 (Some 4%positive) k = Some (h2, Some 4%positive)) ∧
    vtfs_evict_inode h2 (Some 4%positive) 0 = Some (small_fs, None).
Proof.
  exact (create_unlink_evict_restores 8 small_fs 4 1%positive root_dir "n" 0
           4%positive eq_refl eq_refl).
Defined.

(** A directory "n" made in the root, removed and evicted. *)
Lemma mkdir_rmdir_evict_restores_witness :
  ∃ h1 h2,
    vtfs_mkdir 8 small_fs 4 (Some 1%positive) "n" 0 (Some 4%positive) true
      = Some (0, h1, to_u64 (4 + 1)) ∧
    vtfs_rmdir 8 h1 (Some 1%positive) (Some 1%positive) = Some (- ENOTEMPTY, h1) ∧
    vtfs_rmdir 8 h1 (Some 1%positive) (Some 4%positive) = Some (0, h2) ∧
    h2 = <[4%positive := set_next_sibling (set_parent
             (fresh_node "n" true 0 4 1%positive (first_child root_dir)) None) None]>
           small_fs ∧
    vtfs_evict_inode h2 (Some 4%positive) 0 = Some (small_fs, None).
Proof.
  exact (mkdir_rmdir_evict_restores 8 small_fs 4 1%positive 1%positive root_dir
           [2%positive; 3%positive] "n" 0 4%positive
           eq_refl small_fs_children ltac:(simpl; lia) small_fs_no_n eq_refl
           eq_refl).
Defined.

(** "g" unlinked from the root, then looked up. *)
Lemma unlink_then_lookup_witness :
  ∃ h',
    vtfs_unlink 8 small_fs (Some 1%positive) (Some 3%positive) = Some (0, h') ∧
    vtfs_lookup 8 h' (Some 1%positive) "f" true
      = vtfs_lookup 8 small_fs (Some 1%positive) "f" true ∧
    vtfs_lookup 8 h' (Some 1%positive) "g" true = Some (0, None).
Proof.
  destruct (unlink_then_lookup 8 small_fs 1%positive root_dir 3%positive file_g
              [2%positive; 3%positive] true
              eq_refl eq_refl eq_refl ltac:(discriminate) small_fs_children
              ltac:(simpl; lia)
              ltac:(apply list_elem_of_further, list_elem_of_here))
    as (h' & Hun & Hother & Hgone).
  exists h'. split; [exact Hun|]. split.
  - apply Hother. discriminate.
  - apply Hgone. intros b bn Hb Hne Hbn.
    apply elem_of_cons in Hb as [->|Hb].
    + injection Hbn as <-. discriminate.
    + apply elem_of_cons in Hb as [->|Hb]; [done|]. by apply elem_of_nil in Hb.
Defined.

(** The root listed from cursor 2 and from cursor [2 + 2 ^ 32]. *)
Lemma iterate_cursor_wraps_witness :
  ∃ out,
    vtfs_iterate small_fs S_IFDIR (Some 1%positive) 2 5 1 1
      = Some (0, out, 2 + Z.of_nat (length out)) ∧
    vtfs_iterate small_fs S_IFDIR (Some 1%positive) (2 + 2 ^ 32) 5 1 1
      = Some (0, out, 2 + 2 ^ 32 + Z.of_nat (length out)) ∧
    (2 = 2 → out = dirent_of <$> nodes_at small_fs (take 5 [2%positive; 3%positive])).
Proof.
  exact (iterate_cursor_wraps small_fs S_IFDIR 1%positive root_dir
           [2%positive; 3%positive] 1 1 2 5
           eq_refl eq_refl small_fs_children ltac:(lia)
           ltac:(unfold LLONG_MAX; simpl; lia)).
Defined.

(** The root listed after a file "n" was created in it. *)
Lemma create_is_listed_first_witness :
  ∃ h1,
    vtfs_create small_fs 4 (Some 1%positive) "n" 0 (Some 4%positive) true
      = Some (0, h1, to_u64 (4 + 1)) ∧
    vtfs_iterate h1 S_IFDIR (Some 1%positive) 0 8 1 1
      = Some (0, [Dirent "." 1 DT_DIR; Dirent ".." 1 DT_DIR; Dirent "n" 4 DT_REG;
                  Dirent "f" 2 DT_REG; Dirent "g" 3 DT_REG], 5).
Proof.
  exact (create_is_listed_first small_fs 4 1%positive root_dir
           [2%positive; 3%positive] "n" 0 4%positive S_IFDIR 1 1 8
           eq_refl small_fs_children ltac:(simpl; lia) eq_refl eq_refl).
Defined.

(** A hard link "h" to "g", and the listing of the root after it. *)
Lemma link_adds_a_name_witness :
  ∃ h1 new,
    vtfs_link small_fs S_IFREG (Some 3%positive) (Some 1%positive) "h" (Some 4%positive)
      = Some (0, h1) ∧
    h1 !! 4%positive = Some new ∧ ino new = 3 ∧
    vtfs_iterate h1 S_IFDIR (Some 1%positive) 0 3 1 1
      = Some (0, [Dirent "." 1 DT_DIR; Dirent ".." 1 DT_DIR; Dirent "h" 3 DT_REG], 3).
Proof.
  destruct (proj2 (proj2 (link_adds_a_name small_fs S_IFREG 3%positive file_g
                            1%positive root_dir [2%positive; 3%positive] "h"
                            4%positive eq_refl eq_refl small_fs_children
                            ltac:(simpl; lia))) eq_refl eq_refl)
    as (h1 & new & Hlink & Hnew & _ & Hino & _ & _ & _ & _ & _ & _ & _ & Hlist).
  exists h1, new. split; [exact Hlink|]. split; [exact Hnew|].
  split; [exact Hino|]. exact (Hlist S_IFDIR 1 1 3%nat eq_refl).
Defined.

(** A file and a directory "n" for the root, the counter being 4. *)
Lemma inode_numbers_stay_fresh_witness :
  (∀ b nd, small_fs !! b = Some nd → ino nd ≠ 4) ∧
  (∃ h1, vtfs_create small_fs 4 (Some 1%positive) "n" 0 (Some 4%positive) true
           = Some (0, h1, 4 + 1) ∧
         ino <$> h1 !! 4%positive = Some 4 ∧ inos_below h1 (4 + 1)) ∧
  ∃ h1, vtfs_mkdir 8 small_fs 4 (Some 1%positive) "n" 0 (Some 4%positive) true
          = Some (0, h1, 4 + 1) ∧
        ino <$> h1 !! 4%positive = Some 4 ∧ inos_below h1 (4 + 1).
Proof.
  destruct (inode_numbers_stay_fresh 8 small_fs 4 1%positive root_dir
              [2%positive; 3%positive] "n" 0 4%positive
              small_fs_inos ltac:(lia) ltac:(lia) eq_refl small_fs_children
              ltac:(simpl; lia) eq_refl)
    as (Hfresh & Hcreate & Hmkdir).
  split; [exact Hfresh|]. split; [exact Hcreate|exact (Hmkdir small_fs_no_n)].
Defined.

(** A hard link "h" to "g"; then "g" is unlinked and evicted. *)
Lemma alias_dangles_after_eviction_witness :
  ∃ h1 h2 h3,
    vtfs_link small_fs S_IFREG (Some 3%positive) (Some 1%positive) "h" (Some 4%positive)
      = Some (0, h1) ∧
    vtfs_unlink 8 h1 (Some 1%positive) (Some 3%positive) = Some (0, h2) ∧
    vtfs_evict_inode h2 (Some 3%positive) 0 = Some (h3, None) ∧
    vtfs_lookup 8 h3 (Some 1%positive) (strscpy "h" VTFS_FILE_NAME_LEN) true
      = Some (0, Some 4%positive) ∧
    (∀ len pos ua, vtfs_read h3 (Some 4%positive) len pos ua = None) ∧
    (∀ isz (o_append : bool) buf ppos env,
       vtfs_write h3 (Some 4%positive) isz o_append buf ppos env = None) ∧
    (∀ isz, vtfs_open h3 (Some 4%positive) isz true = None).
Proof.
  exact (alias_dangles_after_eviction 8 small_fs S_IFREG 3%positive file_g
           1%positive root_dir [2%positive; 3%positive] "h" 4%positive
           eq_refl eq_refl eq_refl eq_refl eq_refl ltac:(discriminate)
           small_fs_children
           ltac:(apply list_elem_of_further, list_elem_of_here)
           ltac:(simpl; lia) eq_refl).
Defined.

(** A file "n" made in the root, read, written and read again. *)
Lemma created_file_is_empty_and_writable_witness :
  ∃ h1 w r,
    vtfs_create small_fs 4 (Some 1%positive) "n" 0 (Some 4%positive) true
      = Some (0, h1, to_u64 (4 + 1)) ∧
    vtfs_read h1 (Some 4%positive) 8 0 8 = Some (ReadResult 0 [] 0) ∧
    vtfs_write h1 (Some 4%positive) 0 false [x0a; x0b] 0 kind_env = Some w ∧
    w_ret w = 2 ∧ w_isize w = 2 ∧ w_pos w = 2 ∧
    vtfs_read (w_heap w) (Some 4%positive) 2 0 2 = Some r ∧
    r_ret r = 2 ∧ r_out r = [x0a; x0b].
Proof.
  destruct (created_file_is_empty_and_writable small_fs 4 1%positive root_dir
              "n" 0 4%positive eq_refl eq_refl)
    as (h1 & Hcreate & Hempty & Hwrite).
  destruct (Hwrite 0 [x0a; x0b] kind_env 2%nat eq_refl
              ltac:(simpl; lia) ltac:(unfold LLONG_MAX; simpl; lia)
              ltac:(simpl; lia))
    as (w & r & Hw & Hret & Hisz & Hpos & Hr & Hrr & Hout).
  exists h1, w, r. split; [exact Hcreate|].
  split; [exact (Hempty 8 0 8%nat ltac:(lia))|]. split; [exact Hw|].
  split; [exact Hret|]. split; [exact Hisz|]. split; [exact Hpos|].
  split; [exact Hr|]. split; [exact Hrr|exact Hout].
Defined.

(** A directory "n" with mode 0755 made in the root. *)
Lemma new_directory_is_empty_witness :
  ∃ h1 i,
    vtfs_mkdir 8 small_fs 4 (Some 1%positive) "n" 493 (Some 4%positive) true
      = Some (0, h1, to_u64 (4 + 1)) ∧
    vtfs_get_inode h1 4%positive false = Some None ∧
    vtfs_get_inode h1 4%positive true = Some (Some i) ∧
    i_ino i = 4 ∧ i_nlink i = 2 ∧ i_dir_ops i = true ∧
    i_private i = Some 4%positive ∧
    S_ISDIR (i_mode i) = true ∧
    (∀ r si pi,
       vtfs_iterate h1 (i_mode i) (i_private i) 0 r si pi
       = Some (0, take r [Dirent "." si DT_DIR; Dirent ".." pi DT_DIR],
               Z.of_nat (Nat.min r 2))) ∧
    (∀ nm' iok, vtfs_lookup 8 h1 (Some 4%positive) nm' iok = Some (0, None)).
Proof.
  exact (new_directory_is_empty 8 small_fs 4 1%positive root_dir
           [2%positive; 3%positive] "n" 493 4%positive
           eq_refl small_fs_children ltac:(simpl; lia) small_fs_no_n eq_refl
           eq_refl).
Defined.

(** The small file system torn down from its root. *)
Lemma teardown_frees_the_tree_witness :
  ∃ h', vtfs_free_node_recursive 6 small_fs (Some 1%positive) = Some h' ∧
        (∀ b, b ∈ [1%positive; 2%positive; 3%positive] → h' !! b = None) ∧
        (∀ b, b ∉ [1%positive; 2%positive; 3%positive] → h' !! b = small_fs !! b).
Proof.
  apply (teardown_frees_the_tree 6 small_fs 1%positive
           [1%positive; 2%positive; 3%positive] small_fs_tree).
  - apply (bool_decide_unpack _). reflexivity.
  - simpl. lia.
Defined.

(** ** The cursor beyond 32 bits *)

Lemma file_addr_inj i j : file_addr i = file_addr j → i = j.
Proof. unfold file_addr. intros E. apply SuccNat2Pos.inj in E. lia. Qed.

Lemma file_addr_not_root j : file_addr j ≠ 1%positive.
Proof. unfold file_addr. cbn [Pos.of_succ_nat]. apply Pos.succ_not_1. Qed.

Lemma elem_of_file_addrs k b : b ∈ file_addrs k → ∃ j, (j < k)%nat ∧ b = file_addr j.
Proof.
  induction k as [|k IH]; simpl; [by intros ?%elem_of_nil|].
  intros [->|Hb]%elem_of_cons.
  - exists k. split; [lia|done].
  - destruct (IH Hb) as (j & Hj & ->). exists j. split; [lia|done].
Qed.

Lemma length_file_addrs k : length (file_addrs k) = k.
Proof. induction k; simpl; congruence. Qed.

Lemma many_files_chain k : chain (many_files k) (last_file k) (file_addrs k).
Proof.
  induction k as [|k IH]; [apply lseg_nil|].
  cbn [many_files last_file file_addrs].
  apply (lseg_cons _ _ (numbered_file k)); [apply lookup_insert_eq|].
  change (next_sibling (numbered_file k)) with (last_file k).
  apply (lseg_ext (many_files k)); [|exact IH].
  intros b Hb. destruct (elem_of_file_addrs k b Hb) as (j & Hj & ->).
  rewrite lookup_insert_ne; [done|]. intros E. apply file_addr_inj in E. lia.
Qed.

Lemma big_fs_root k : big_fs k !! 1%positive = Some (big_root k).
Proof. apply lookup_insert_eq. Qed.

Lemma big_fs_children k :
  chain (big_fs k) (first_child (big_root k)) (file_addrs k).
Proof.
  change (first_child (big_root k)) with (last_file k).
  apply (lseg_ext (many_files k)); [|apply many_files_chain].
  intros b Hb. destruct (elem_of_file_addrs k b Hb) as (j & Hj & ->).
  unfold big_fs. rewrite lookup_insert_ne; [done|].
  intros E. by apply (file_addr_not_root j).
Qed.

(** C7.  Resumption breaks in a directory with more than [2 ^ 32]
    children, because the number of children to skip is the cursor less 2
    cut to 32 bits.  A call from a cursor [c] from 2 on and below
    [2 + 2 ^ 32], with room up to cursor [2 + 2 ^ 32], emits the children
    from index [c - 2] to index [2 ^ 32 - 1] and leaves the cursor at
    [2 + 2 ^ 32], as it should.  The call resumed from there emits the
    first [r] children of the directory, which were emitted before, and
    not the [r] children from index [2 ^ 32] on, which a single call with
    room for all emits next and which are other nodes. *)
Theorem iterate_restarts_past_32_bits (h : heap) m dn dnode l si pi c
    (k32 r1 r : nat) :
  S_ISDIR m = true → h !! dn = Some dnode → chain h (first_child dnode) l →
  Z.of_nat k32 = 2 ^ 32 → (k32 < length l)%nat →
  2 + 2 ^ 32 + Z.of_nat (length l) ≤ LLONG_MAX →
  2 ≤ c < 2 + 2 ^ 32 → Z.of_nat r1 = 2 + 2 ^ 32 - c → (0 < r)%nat →
  let i := Z.to_nat (c - 2) in
  vtfs_iterate h m (Some dn) c r1 si pi
    = Some (0, dirent_of <$> nodes_at h (take r1 (drop i l)), 2 + 2 ^ 32) ∧
  vtfs_iterate h m (Some dn) (2 + 2 ^ 32) r si pi
    = Some (0, dirent_of <$> nodes_at h (take r l),
            2 + 2 ^ 32 + Z.of_nat (length (take r l))) ∧
  vtfs_iterate h m (Some dn) c (r1 + r) si pi
    = Some (0, dirent_of <$> nodes_at h (take r1 (drop i l) ++ take r (drop k32 l)),
            c + Z.of_nat (length (take r1 (drop i l) ++ take r (drop k32 l)))) ∧
  take r l ≠ take r (drop k32 l) ∧
  head (take r l) = head l.
Proof.
  intros Hm Hdn Hl Hk32 Hlen Hmax Hc Hr1 Hr i.
  assert (∀ z, 0 ≤ z < 2 ^ 32 → to_uint z = z) as Hsmall
    by (intros z Hz; unfold to_uint; apply Z.mod_small; lia).
  assert (to_uint (2 + 2 ^ 32 - 2) = 0) as Hwrap.
  { unfold to_uint. replace (2 + 2 ^ 32 - 2) with (0 + 1 * 2 ^ 32) by lia.
    by rewrite Z.mod_add. }
  assert (length (take r1 (drop i l)) = r1) as Hlen1.
  { rewrite length_take, length_drop. lia. }
  assert (i + r1 = k32)%nat as Hsum by lia.
  split; [|split; [|split; [|split]]].
  - pose proof (vtfs_iterate_from h m dn dnode l si pi c r1
                  Hm Hdn Hl ltac:(lia) ltac:(lia)) as Hit.
    cbv zeta in Hit. rewrite (Hsmall (c - 2)) in Hit by lia. fold i in Hit.
    rewrite Hit, Hlen1. do 2 f_equal. lia.
  - pose proof (vtfs_iterate_from h m dn dnode l si pi (2 + 2 ^ 32) r
                  Hm Hdn Hl ltac:(lia) Hmax) as Hit.
    cbv zeta in Hit. rewrite Hwrap in Hit. change (Z.to_nat 0) with 0%nat in Hit.
    by rewrite drop_0 in Hit.
  - pose proof (vtfs_iterate_from h m dn dnode l si pi c (r1 + r)
                  Hm Hdn Hl ltac:(lia) ltac:(lia)) as Hit.
    cbv zeta in Hit. rewrite (Hsmall (c - 2)) in Hit by lia. fold i in Hit.
    rewrite <- Hsum, <- drop_drop, (take_take_drop (drop i l) r1 r). exact Hit.
  - intros Heq. pose proof (chain_NoDup _ _ _ Hl) as Hnd.
    assert (take r l !! 0%nat = take r (drop k32 l) !! 0%nat) as E by by rewrite Heq.
    rewrite !lookup_take_lt, lookup_drop, Nat.add_0_r in E by lia.
    destruct (lookup_lt_is_Some_2 l 0 ltac:(lia)) as [x Hx].
    rewrite Hx in E. pose proof (NoDup_lookup l 0 k32 x Hnd Hx (eq_sym E)). lia.
  - destruct r; [lia|]. by destruct l.
Qed.

Lemma many_files_lookup k n :
  (n < k)%nat → many_files k !! file_addr n = Some (numbered_file n).
Proof.
  induction k as [|k IH]; [lia|]. intros Hn. cbn [many_files].
  destruct (decide (n = k)) as [->|Hne]; [apply lookup_insert_eq|].
  rewrite lookup_insert_ne; [apply IH; lia|].
  intros E. apply file_addr_inj in E. lia.
Qed.

Lemma big_fs_file k n :
  (n < k)%nat → big_fs k !! file_addr n = Some (numbered_file n).
Proof.
  intros Hn. unfold big_fs. rewrite lookup_insert_ne; [by apply many_files_lookup|].
  intros E. by apply (file_addr_not_root n).
Qed.

Lemma drop_file_addrs j k : drop j (file_addrs (j + k)) = file_addrs k.
Proof. induction j as [|j IH]; [done|]. exact IH. Qed.

(** A directory of [2 ^ 32 + 1] files, numbered in the order they were
    made, so that the newest, number [2 ^ 32], is the first child.  From
    cursor [2 ^ 32 + 1] a reader that takes one entry gets file 1 and the
    cursor [2 + 2 ^ 32]; when it comes back for the last entry it gets
    the first child again, where a reader that takes two entries at once
    gets file 0. *)
Lemma iterate_restarts_past_32_bits_witness :
  ∃ k32 : nat, Z.of_nat k32 = 2 ^ 32 ∧
    vtfs_iterate (big_fs (S k32)) S_IFDIR (Some 1%positive) (2 ^ 32 + 1) 1 1 1
      = Some (0, [dirent_of (numbered_file 1)], 2 + 2 ^ 32) ∧
    vtfs_iterate (big_fs (S k32)) S_IFDIR (Some 1%positive) (2 + 2 ^ 32) 1 1 1
      = Some (0, [dirent_of (numbered_file k32)], 2 + 2 ^ 32 + 1) ∧
    vtfs_iterate (big_fs (S k32)) S_IFDIR (Some 1%positive) (2 ^ 32 + 1) 2 1 1
      = Some (0, [dirent_of (numbered_file 1); dirent_of (numbered_file 0)],
              2 ^ 32 + 1 + 2) ∧
    d_ino (dirent_of (numbered_file k32)) ≠ d_ino (dirent_of (numbered_file 0)).
Proof.
  destruct (Z_of_nat_complete (2 ^ 32) ltac:(lia)) as [k32 Hk32].
  symmetry in Hk32. exists k32. split; [exact Hk32|].
  pose proof (iterate_restarts_past_32_bits (big_fs (S k32)) S_IFDIR 1%positive
                (big_root (S k32)) (file_addrs (S k32)) 1 1 (2 ^ 32 + 1) k32 1 1
                eq_refl (big_fs_root (S k32)) (big_fs_children (S k32)) Hk32
                ltac:(rewrite length_file_addrs; lia)
                ltac:(rewrite length_file_addrs; unfold LLONG_MAX; lia)
                ltac:(lia) ltac:(lia) ltac:(lia)) as Hrun.
  cbv zeta in Hrun. destruct Hrun as (H1 & H2 & H3 & _ & _).
  assert (Z.to_nat (2 ^ 32 + 1 - 2) = (k32 - 1)%nat) as Hi by lia.
  assert (S k32 = (k32 - 1) + 2)%nat as Hk by lia.
  assert (drop (k32 - 1) (file_addrs (S k32)) = [file_addr 1; file_addr 0]) as Hd1.
  { rewrite Hk at 1. apply drop_file_addrs. }
  assert (drop k32 (file_addrs (S k32)) = [file_addr 0]) as Hd2.
  { replace (S k32) with (k32 + 1)%nat by lia. apply drop_file_addrs. }
  assert (∀ n, (n < S k32)%nat →
            nodes_at (big_fs (S k32)) [file_addr n] = [numbered_file n]) as Hone.
  { intros n Hn. by rewrite (nodes_at_cons _ _ _ [] (big_fs_file (S k32) n Hn)). }
  rewrite Hi, Hd1 in H1, H3. rewrite Hd2 in H3.
  cbn [take app file_addrs] in H1, H2, H3. rewrite take_0 in H2.
  cbn [length] in H2, H3.
  rewrite (Hone 1%nat) in H1 by lia. rewrite (Hone k32) in H2 by lia.
  rewrite (nodes_at_cons _ _ _ _ (big_fs_file (S k32) 1 ltac:(lia))),
          (Hone 0%nat) in H3 by lia.
  split; [exact H1|]. split; [exact H2|]. split; [exact H3|].
  unfold dirent_of, numbered_file. cbn [d_ino ino]. lia.
Defined.
